(** * google-authenticator-extract: the migration decoder of [generate-html.js]

    A shallow embedding of the decoding pipeline of [generate-html.js]
    ([extractDataFromUrl], [secretToBase32], [createOtpauthUrl], [decodeUrl]
    and the collecting part of [processAllUrls]) together with executable
    models of the library calls the script makes (Node's [url.parse],
    [Buffer.from(s, 'base64')], [Buffer#toString('hex')], protobufjs'
    reader and generated decoder, hi-base32's [encode] and
    [encodeURIComponent]).

    Conventions.
    - A Node [Buffer] is a [list byte].
    - A JavaScript string is a [string] holding the UTF-8 encoding of the
      (well-formed) JavaScript string.  Every string the script handles is
      well formed: command-line arguments and the results of UTF-8
      decoding never contain lone surrogates.  Where Node reads a string
      by its UTF-16 code units ([Buffer.from(s, 'base64')]) the model goes
      through [Utf16.units].
    - The models of [url.parse] and [querystring.parse] are those of
      Node on ASCII input, which is what a migration URL is.  For a URL
      with characters outside ASCII Node does more (IDNA on the host
      name, code units cut to their low byte when an escape is
      malformed); the theorems that follow a URL through the parser are
      stated for ASCII URLs.
    - An exception is a value of [exn]; code that may throw returns a
      [completion]. *)

From Stdlib Require Import String Ascii List NArith ZArith Lia Bool DecimalString.
From Stdlib.Strings Require Import Byte.
Import ListNotations.

Local Open Scope list_scope.
Local Open Scope string_scope.

(* ================================================================== *)
(** * Part I.  Definitions *)
(* ================================================================== *)

(** ** JavaScript values, exceptions and a few string primitives *)

Module JS.

(** The exceptions the script can meet.  [Error] is the plain
    [new Error(message)]; the others are the built-in subclasses. *)
Inductive exn : Type :=
| Error (message : string)
| TypeError (message : string)
| RangeError (message : string)
| URIError (message : string).

(** Outcome of a computation that may throw. *)
Inductive completion (A : Type) : Type :=
| Return (a : A)
| Throw (e : exn).
Arguments Return {A} a.
Arguments Throw {A} e.

Definition bind {A B} (c : completion A) (k : A -> completion B) : completion B :=
  match c with
  | Return a => k a
  | Throw e => Throw e
  end.

Definition is_throw {A} (c : completion A) : bool :=
  match c with Throw _ => true | Return _ => false end.

(** [s.replace(/c/g, r)] for a one-character pattern. *)
Fixpoint replace_all (c : ascii) (r : string) (s : string) : string :=
  match s with
  | EmptyString => EmptyString
  | String a s' =>
      if Ascii.eqb a c then r ++ replace_all c r s'
      else String a (replace_all c r s')
  end.

(** [parts.join(sep)]. *)
Fixpoint join (sep : string) (parts : list string) : string :=
  match parts with
  | [] => ""
  | [p] => p
  | p :: ps => p ++ sep ++ join sep ps
  end.

(** Decimal rendering of an integer ([String(n)] for an integer [n]). *)
Definition string_of_Z (n : Z) : string := NilZero.string_of_int (Z.to_int n).
Definition string_of_N (n : N) : string := NilZero.string_of_uint (N.to_uint n).

Definition to_lower (a : ascii) : ascii :=
  let n := N_of_ascii a in
  if ((65 <=? n) && (n <=? 90))%N then ascii_of_N (n + 32) else a.

Fixpoint toLowerCase (s : string) : string :=
  match s with
  | EmptyString => EmptyString
  | String a s' => String (to_lower a) (toLowerCase s')
  end.

Definition hex_digit_upper (n : N) : ascii :=
  match String.get (N.to_nat n) "0123456789ABCDEF" with
  | Some c => c
  | None => "0"%char
  end.

Definition hex_digit_lower (n : N) : ascii :=
  match String.get (N.to_nat n) "0123456789abcdef" with
  | Some c => c
  | None => "0"%char
  end.

End JS.

Import JS.

Declare Scope js_scope.
Notation "x <- c ;; k" := (bind c (fun x => k))
  (at level 61, c at next level, right associativity) : js_scope.
Local Open Scope js_scope.

(** ** UTF-8 decoding, as done by [Buffer#utf8Slice] / [Buffer#toString()] *)

Module Utf8.

(** U+FFFD REPLACEMENT CHARACTER, in UTF-8. *)
Definition replacement : string :=
  String (ascii_of_N 239) (String (ascii_of_N 191) (String (ascii_of_N 189) "")).

Inductive lead_kind : Type :=
| Single
| Lead (needed : nat) (lower upper : N)
| Invalid.

(** First byte of a sequence: how many continuation bytes follow and the
    range the next one must lie in (this excludes overlong forms,
    surrogates and code points above U+10FFFF). *)
Definition classify (n : N) : lead_kind :=
  (if n <=? 127 then Single
   else if (194 <=? n) && (n <=? 223) then Lead 1 128 191
   else if n =? 224 then Lead 2 160 191
   else if n =? 237 then Lead 2 128 159
   else if (225 <=? n) && (n <=? 239) then Lead 2 128 191
   else if n =? 240 then Lead 3 144 191
   else if n =? 244 then Lead 3 128 143
   else if (241 <=? n) && (n <=? 243) then Lead 3 128 191
   else Invalid)%N.

(** The decoder: bytes of a complete valid sequence are passed through,
    every maximal invalid part becomes one U+FFFD, and the byte that
    broke a sequence is looked at again as a possible first byte. *)
Fixpoint decode_from (needed : nat) (pending : string) (lower upper : N)
         (bs : list byte) : string :=
  match bs with
  | [] => match needed with O => "" | S _ => replacement end
  | b :: rest =>
      let n := Byte.to_N b in
      let a := ascii_of_byte b in
      let fresh :=
        match classify n with
        | Single => String a (decode_from 0 "" 128 191 rest)
        | Lead k lo hi => decode_from k (String a "") lo hi rest
        | Invalid => replacement ++ decode_from 0 "" 128 191 rest
        end in
      match needed with
      | O => fresh
      | S k =>
          if ((lower <=? n) && (n <=? upper))%N then
            match k with
            | O => pending ++ String a (decode_from 0 "" 128 191 rest)
            | S _ => decode_from k (pending ++ String a "") 128 191 rest
            end
          else replacement ++ fresh
      end
  end.

Definition utf8Slice (bs : list byte) : string := decode_from 0 "" 128 191 bs.

End Utf8.

(** ** UTF-16 code units, as [String.prototype.charCodeAt] reads them *)

Module Utf16.

(** The code units of the JavaScript string a text stands for: one unit
    for a character of one, two or three bytes of UTF-8, the two
    surrogates for a character of four bytes.  (A byte that starts no
    complete character stands for itself; a well-formed text has
    none.) *)
Fixpoint units (s : string) : list N :=
  match s with
  | EmptyString => []
  | String a s1 =>
      let n := N_of_ascii a in
      if (n <? 192)%N then n :: units s1
      else
        match s1 with
        | String b s2 =>
            let m := (N_of_ascii b mod 64)%N in
            if (n <? 224)%N then ((n - 192) * 64 + m)%N :: units s2
            else
              match s2 with
              | String c s3 =>
                  let k := (N_of_ascii c mod 64)%N in
                  if (n <? 240)%N then ((n - 224) * 4096 + m * 64 + k)%N :: units s3
                  else
                    match s3 with
                    | String d s4 =>
                        let point :=
                          ((n - 240) * 262144 + m * 4096 + k * 64 + N_of_ascii d mod 64)%N in
                        (55296 + (point - 65536) / 1024)%N ::
                        (56320 + (point - 65536) mod 1024)%N :: units s4
                    | EmptyString => n :: units s1
                    end
              | EmptyString => n :: units s1
              end
        | EmptyString => n :: units s1
        end
  end.

End Utf16.

(** ** Dynamically typed values *)

Inductive value : Type :=
| VUndefined
| VNumber (n : Z)
| VString (s : string)
| VBuffer (b : list byte).

(** [String(v)], the conversion template literals and property keys use. *)
Definition ToString (v : value) : string :=
  match v with
  | VUndefined => "undefined"
  | VNumber n => string_of_Z n
  | VString s => s
  | VBuffer b => Utf8.utf8Slice b
  end.

(** [Boolean(v)]: what [if (v)] and [v || d] test. *)
Definition truthy (v : value) : bool :=
  match v with
  | VUndefined => false
  | VNumber n => negb (n =? 0)%Z
  | VString s => negb (String.eqb s "")
  | VBuffer _ => true
  end.

(** An object literal with string values, as the list of its own
    properties; [lookup t v] is [t[v]].  (Members inherited from
    [Object.prototype] are not part of the model: no key produced by the
    decoder names one.) *)
Definition table := list (string * string).

Fixpoint lookup_key (t : table) (k : string) : value :=
  match t with
  | [] => VUndefined
  | (k', v) :: t' => if String.eqb k k' then VString v else lookup_key t' k
  end.

Definition lookup (t : table) (v : value) : value := lookup_key t (ToString v).

(** [v === 'lit']. *)
Definition strict_eq_string (v : value) (lit : string) : bool :=
  match v with
  | VString s => String.eqb s lit
  | _ => false
  end.

(** ** hi-base32: [base32.encode] *)

Module Base32.

Definition BASE32_ENCODE_CHAR : string := "ABCDEFGHIJKLMNOPQRSTUVWXYZ234567".

(** [BASE32_ENCODE_CHAR[n]]; every index the encoder computes is below 32. *)
Definition chr (n : N) : ascii :=
  match String.get (N.to_nat n) BASE32_ENCODE_CHAR with
  | Some c => c
  | None => "="%char
  end.

Definition str (cs : list ascii) (tail : string) : string :=
  fold_right String tail cs.

(** [encodeBytes]: full groups of five bytes give eight characters; a
    remainder of one to four bytes gives 2, 4, 5 or 7 characters followed
    by [=] padding up to eight. *)
Fixpoint encodeBytes (bytes : list byte) : string :=
  match bytes with
  | b1 :: b2 :: b3 :: b4 :: b5 :: rest =>
      let v1 := Byte.to_N b1 in let v2 := Byte.to_N b2 in
      let v3 := Byte.to_N b3 in let v4 := Byte.to_N b4 in
      let v5 := Byte.to_N b5 in
      str [ chr (N.shiftr v1 3);
            chr (N.land (N.lor (N.shiftl v1 2) (N.shiftr v2 6)) 31);
            chr (N.land (N.shiftr v2 1) 31);
            chr (N.land (N.lor (N.shiftl v2 4) (N.shiftr v3 4)) 31);
            chr (N.land (N.lor (N.shiftl v3 1) (N.shiftr v4 7)) 31);
            chr (N.land (N.shiftr v4 2) 31);
            chr (N.land (N.lor (N.shiftl v4 3) (N.shiftr v5 5)) 31);
            chr (N.land v5 31) ] (encodeBytes rest)
  | [b1] =>
      let v1 := Byte.to_N b1 in
      str [ chr (N.shiftr v1 3);
            chr (N.land (N.shiftl v1 2) 31) ] "======"
  | [b1; b2] =>
      let v1 := Byte.to_N b1 in let v2 := Byte.to_N b2 in
      str [ chr (N.shiftr v1 3);
            chr (N.land (N.lor (N.shiftl v1 2) (N.shiftr v2 6)) 31);
            chr (N.land (N.shiftr v2 1) 31);
            chr (N.land (N.shiftl v2 4) 31) ] "===="
  | [b1; b2; b3] =>
      let v1 := Byte.to_N b1 in let v2 := Byte.to_N b2 in
      let v3 := Byte.to_N b3 in
      str [ chr (N.shiftr v1 3);
            chr (N.land (N.lor (N.shiftl v1 2) (N.shiftr v2 6)) 31);
            chr (N.land (N.shiftr v2 1) 31);
            chr (N.land (N.lor (N.shiftl v2 4) (N.shiftr v3 4)) 31);
            chr (N.land (N.shiftl v3 1) 31) ] "==="
  | [b1; b2; b3; b4] =>
      let v1 := Byte.to_N b1 in let v2 := Byte.to_N b2 in
      let v3 := Byte.to_N b3 in let v4 := Byte.to_N b4 in
      str [ chr (N.shiftr v1 3);
            chr (N.land (N.lor (N.shiftl v1 2) (N.shiftr v2 6)) 31);
            chr (N.land (N.shiftr v2 1) 31);
            chr (N.land (N.lor (N.shiftl v2 4) (N.shiftr v3 4)) 31);
            chr (N.land (N.lor (N.shiftl v3 1) (N.shiftr v4 7)) 31);
            chr (N.land (N.shiftr v4 2) 31);
            chr (N.land (N.shiftl v4 3) 31) ] "="
  | [] => ""
  end.

(** [base32.encode(input)] as the script calls it (no [asciiOnly] flag).
    A string is encoded through its UTF-8 bytes; a number has no [length]
    and encodes to the empty string; [undefined] has no [constructor]
    property to read. *)
Definition encode (input : value) : completion string :=
  match input with
  | VBuffer b => Return (encodeBytes b)
  | VString s => Return (encodeBytes (list_byte_of_string s))
  | VNumber _ => Return ""
  | VUndefined =>
      Throw (TypeError "Cannot read properties of undefined (reading 'constructor')")
  end.

End Base32.

(** ** [encodeURIComponent] *)

Module Uri.

(** The characters [encodeURIComponent] leaves alone:
    [A-Z a-z 0-9 - _ . ! ~ * ' ( )]. *)
Definition unreserved (a : ascii) : bool :=
  let n := N_of_ascii a in
  ((65 <=? n) && (n <=? 90) || (97 <=? n) && (n <=? 122) ||
   (48 <=? n) && (n <=? 57) ||
   (n =? 45) || (n =? 95) || (n =? 46) || (n =? 33) || (n =? 126) ||
   (n =? 42) || (n =? 39) || (n =? 40) || (n =? 41))%N.

Definition percent (a : ascii) : string :=
  let n := N_of_ascii a in
  String "%" (String (hex_digit_upper (N.shiftr n 4))
             (String (hex_digit_upper (N.land n 15)) "")).

(** Every other character is replaced by the [%XX] escapes of its UTF-8
    bytes. *)
Fixpoint escape (s : string) : string :=
  match s with
  | EmptyString => EmptyString
  | String a s' =>
      if unreserved a then String a (escape s') else percent a ++ escape s'
  end.

Definition encodeURIComponent (v : value) : string := escape (ToString v).

End Uri.

(** ** Node buffers: [Buffer.from(s, 'base64')] and [toString('hex')] *)

Module Buffer.

(** [unbase64]: the value of a character of the standard or of the
    URL-safe alphabet; [None] for every other character. *)
Definition unbase64 (a : ascii) : option N :=
  let n := N_of_ascii a in
  (if (65 <=? n) && (n <=? 90) then Some (n - 65)
   else if (97 <=? n) && (n <=? 122) then Some (n - 71)
   else if (48 <=? n) && (n <=? 57) then Some (n + 4)
   else if (n =? 43) || (n =? 45) then Some 62
   else if (n =? 47) || (n =? 95) then Some 63
   else None)%N.

Definition byte_of_N (n : N) : byte :=
  match Byte.of_N (n mod 256) with
  | Some b => b
  | None => x00
  end.

(** Node's base64 decoder never rejects its input.  Characters outside
    the alphabet are skipped, [=] ends the decoding, and a byte is written
    as soon as its bits are complete: [phase] counts the characters of the
    current group of four and [hi] is the previous one. *)
Fixpoint base64_decode (phase : nat) (hi : N) (src : string) : list byte :=
  match src with
  | EmptyString => []
  | String c rest =>
      match unbase64 c with
      | Some lo =>
          match phase with
          | 0%nat => base64_decode 1 lo rest
          | 1%nat =>
              byte_of_N (N.lor (N.shiftl (N.land hi 63) 2) (N.shiftr (N.land lo 48) 4))
                :: base64_decode 2 lo rest
          | 2%nat =>
              byte_of_N (N.lor (N.shiftl (N.land hi 15) 4) (N.shiftr (N.land lo 60) 2))
                :: base64_decode 3 lo rest
          | _ =>
              byte_of_N (N.lor (N.shiftl (N.land hi 3) 6) (N.land lo 63))
                :: base64_decode 0 lo rest
          end
      | None =>
          if Ascii.eqb c "=" then [] else base64_decode phase hi rest
      end
  end.

(** What the decoder sees of a string: every UTF-16 code unit by its low
    byte ([unbase64(static_cast<uint8_t>(c))]), so a character above
    U+00FF counts as the character of its low byte. *)
Definition low_bytes (s : string) : string :=
  string_of_list_ascii (map (fun u => ascii_of_N (u mod 256)) (Utf16.units s)).

(** [Buffer.from(s, 'base64')]. *)
Definition from_base64 (s : string) : list byte := base64_decode 0 0 (low_bytes s).

(** [buf.toString('hex')]: two lowercase digits per byte. *)
Fixpoint toString_hex (buf : list byte) : string :=
  match buf with
  | [] => ""
  | b :: rest =>
      let n := Byte.to_N b in
      String (hex_digit_lower (N.shiftr n 4))
        (String (hex_digit_lower (N.land n 15)) (toString_hex rest))
  end.

(** [Buffer.from(v)] with no encoding argument. *)
Definition from (v : value) : completion (list byte) :=
  match v with
  | VBuffer b => Return b
  | VString s => Return (list_byte_of_string s)
  | _ => Throw (TypeError "The first argument must be of type string or an instance of Buffer, ArrayBuffer, or Array or an Array-like Object.")
  end.

End Buffer.

(** ** Node's legacy [url.parse(s, true)] and [querystring.parse]

    The model follows [Url.prototype.parse] of Node's [lib/url.js] step by
    step for what the script reads: [protocol], [host] and [query], on
    ASCII input.  Left out: the fast path for strings that are only a
    path (they have no protocol either way), and what Node does only for
    characters outside ASCII: the IDNA conversion ([toASCII]) and the
    Unicode lower-casing of the host name, which is kept as it is here,
    and the cut of a code unit to its low byte in [unescapeBuffer]. *)

Module Url.

(** A value of the parsed query object: a string, or an array when the key
    occurs more than once. *)
Inductive qvalue : Type :=
| QString (s : string)
| QArray (ss : list string).

(** The fields of the parsed URL the script reads; [None] is [null]. *)
Record t : Type := mk {
  protocol : option string;
  host : option string;
  query : list (string * qvalue)
}.

Definition code (a : ascii) : N := N_of_ascii a.

Definition is_char (c : ascii) (a : ascii) : bool := Ascii.eqb a c.

(** The double quote character. *)
Definition dquote : ascii := ascii_of_N 34.

Fixpoint any_char (cs : string) (a : ascii) : bool :=
  match cs with
  | EmptyString => false
  | String c cs' => Ascii.eqb a c || any_char cs' a
  end.

Definition is_digit (a : ascii) : bool := ((48 <=? code a) && (code a <=? 57))%N.
Definition is_alpha (a : ascii) : bool :=
  ((65 <=? code a) && (code a <=? 90) || (97 <=? code a) && (code a <=? 122))%N.
Definition is_hex (a : ascii) : bool :=
  (is_digit a || (65 <=? code a) && (code a <=? 70) || (97 <=? code a) && (code a <=? 102))%N.

Definition unhex (a : ascii) : N :=
  (if is_digit a then code a - 48
   else if (97 <=? code a) then code a - 87 else code a - 55)%N.

(** Longest prefix of characters satisfying [p], and what follows. *)
Fixpoint span (p : ascii -> bool) (s : string) : string * string :=
  match s with
  | EmptyString => (EmptyString, EmptyString)
  | String a s' =>
      if p a then let (x, y) := span p s' in (String a x, y)
      else (EmptyString, s)
  end.

Fixpoint drop (n : nat) (s : string) : string :=
  match n, s with
  | O, _ => s
  | S n', String _ s' => drop n' s'
  | S _, EmptyString => EmptyString
  end.

Fixpoint take (n : nat) (s : string) : string :=
  match n, s with
  | S n', String a s' => String a (take n' s')
  | _, _ => EmptyString
  end.

Fixpoint rev_append (s acc : string) : string :=
  match s with
  | EmptyString => acc
  | String a s' => rev_append s' (String a acc)
  end.

Definition rev (s : string) : string := rev_append s EmptyString.

Fixpoint forall_chars (p : ascii -> bool) (s : string) : bool :=
  match s with
  | EmptyString => true
  | String a s' => p a && forall_chars p s'
  end.

Definition exists_char (p : ascii -> bool) (s : string) : bool :=
  negb (forall_chars (fun a => negb (p a)) s).

(** *** Trimming and backslashes *)

(** White space is every code below 33, U+00A0 and U+FEFF (here in
    UTF-8). *)
Fixpoint trim_start (s : string) : string :=
  match s with
  | String a s1 =>
      if (code a <? 33)%N then trim_start s1
      else
        match s1 with
        | String b s2 =>
            if ((code a =? 194) && (code b =? 160))%N then trim_start s2
            else
              match s2 with
              | String c s3 =>
                  if ((code a =? 239) && (code b =? 187) && (code c =? 191))%N
                  then trim_start s3 else s
              | EmptyString => s
              end
        | EmptyString => s
        end
  | EmptyString => EmptyString
  end.

(** The same from the end, on the reversed string. *)
Fixpoint trim_start_rev (s : string) : string :=
  match s with
  | String a s1 =>
      if (code a <? 33)%N then trim_start_rev s1
      else
        match s1 with
        | String b s2 =>
            if ((code a =? 160) && (code b =? 194))%N then trim_start_rev s2
            else
              match s2 with
              | String c s3 =>
                  if ((code a =? 191) && (code b =? 187) && (code c =? 239))%N
                  then trim_start_rev s3 else s
              | EmptyString => s
              end
        | EmptyString => s
        end
  | EmptyString => EmptyString
  end.

Definition trim (s : string) : string := rev (trim_start_rev (rev (trim_start s))).

(** Backslashes before the first [?] or [#] become slashes. *)
Fixpoint convert_backslashes (s : string) : string :=
  match s with
  | EmptyString => EmptyString
  | String a s' =>
      if any_char "?#" a then s
      else String (if is_char "\" a then "/"%char else a) (convert_backslashes s')
  end.

(** *** The protocol, [/^[a-z0-9.+-]+:/i] *)

Definition proto_char (a : ascii) : bool := is_alpha a || is_digit a || any_char ".+-" a.

Definition match_protocol (rest : string) : option (string * string) :=
  let (pre, post) := span proto_char rest in
  match pre, post with
  | String _ _, String c post' =>
      if is_char ":" c then Some (pre ++ ":", post') else None
  | _, _ => None
  end.

Definition hostlessProtocol (p : option string) : bool :=
  match p with
  | Some p => String.eqb p "javascript" || String.eqb p "javascript:"
  | None => false
  end.

Definition slashedProtocol (p : string) : bool :=
  existsb (String.eqb p)
    ["http"; "http:"; "https"; "https:"; "ftp"; "ftp:"; "gopher"; "gopher:";
     "file"; "file:"; "ws"; "ws:"; "wss"; "wss:"].

Definition starts_with_slashes (rest : string) : bool :=
  match rest with
  | String a (String b _) => is_char "/" a && is_char "/" b
  | _ => false
  end.

(** [hostPattern], [/^\/\/[^@/]+@[^@/]+/]. *)
Definition hostPattern (rest : string) : bool :=
  starts_with_slashes rest &&
  let (user, after) := span (fun a => negb (any_char "@/" a)) (drop 2 rest) in
  match user, after with
  | String _ _, String c (String d _) => is_char "@" c && negb (any_char "@/" d)
  | _, _ => false
  end.

(** *** Percent escapes *)

(** [querystring.unescapeBuffer]: every [%XX] with two hexadecimal digits
    becomes the byte, any other [%] stays. *)
Fixpoint unescapeBuffer (s : string) : list byte :=
  match s with
  | EmptyString => []
  | String a s' =>
      match s' with
      | String h (String l s'') =>
          if is_char "%" a && is_hex h && is_hex l
          then Buffer.byte_of_N (unhex h * 16 + unhex l) :: unescapeBuffer s''
          else byte_of_ascii a :: unescapeBuffer s'
      | _ => byte_of_ascii a :: unescapeBuffer s'
      end
  end.

(** Every [%] is followed by two hexadecimal digits. *)
Fixpoint escapes_ok (s : string) : bool :=
  match s with
  | EmptyString => true
  | String a s' =>
      if is_char "%" a then
        match s' with
        | String h (String l s'') => is_hex h && is_hex l && escapes_ok s''
        | _ => false
        end
      else escapes_ok s'
  end.

(** [decodeURIComponent]: throws on a malformed escape and on escapes that
    do not decode to UTF-8. *)
Definition decodeURIComponent (s : string) : completion string :=
  let bytes := string_of_list_byte (unescapeBuffer s) in
  if escapes_ok s && String.eqb (Utf8.utf8Slice (unescapeBuffer s)) bytes
  then Return bytes
  else Throw (URIError "URI malformed").

(** [querystring.unescape]: [decodeURIComponent], and when that throws
    the bytes of [unescapeBuffer] read as UTF-8.  On ASCII text the two
    agree wherever the first returns, so one definition serves for
    both. *)
Definition unescape (s : string) : string := Utf8.utf8Slice (unescapeBuffer s).

(** *** [querystring.parse(qs)] with the default separators *)

(** [s.split(c)]. *)
Fixpoint split (c : ascii) (s : string) : list string :=
  match s with
  | EmptyString => [EmptyString]
  | String a s' =>
      if Ascii.eqb a c then EmptyString :: split c s'
      else
        match split c s' with
        | x :: xs => String a x :: xs
        | [] => [String a EmptyString]
        end
  end.

(** [obj[key] = value], or the array of all values when the key is there
    already. *)
Fixpoint addKeyValue (obj : list (string * qvalue)) (key value : string)
  : list (string * qvalue) :=
  match obj with
  | [] => [(key, QString value)]
  | (k, v) :: obj' =>
      if String.eqb k key then
        match v with
        | QString cur => (k, QArray [cur; value]) :: obj'
        | QArray cur => (k, QArray (cur ++ [value])%list) :: obj'
        end
      else (k, v) :: addKeyValue obj' key value
  end.

(** One [key=value] segment: the first [=] separates key and value, [+]
    is a space, and escapes are decoded afterwards. *)
Definition parse_segment (obj : list (string * qvalue)) (seg : string)
  : list (string * qvalue) :=
  match seg with
  | EmptyString => obj
  | _ =>
      let (k, v) := span (fun a => negb (is_char "=" a)) seg in
      let plus s := replace_all "+" " " s in
      addKeyValue obj (unescape (plus k)) (unescape (plus (drop 1 v)))
  end.

(** At most 1000 segments are read ([maxKeys]). *)
Definition querystring_parse (qs : string) : list (string * qvalue) :=
  match qs with
  | EmptyString => []
  | _ => fold_left parse_segment (firstn 1000 (split "&" qs)) []
  end.

(** [parsedUrl.query.data]. *)
Fixpoint query_get (obj : list (string * qvalue)) (key : string) : option qvalue :=
  match obj with
  | [] => None
  | (k, v) :: obj' => if String.eqb k key then Some v else query_get obj' key
  end.

(** *** The host *)

(** The loop that looks for the end of the host: tabs and line breaks are
    removed, [atSign] is the last [@], [nonHost] the first character after
    it that cannot be in a host name; the loop stops at the first [#], [/]
    or [?].  The result is [rest] without the removed characters. *)
Fixpoint scan_host (rest : string) (i : nat) (atSign nonHost : option nat)
  : string * option nat * option nat :=
  let first := match nonHost with Some n => Some n | None => Some i end in
  match rest with
  | EmptyString => (EmptyString, atSign, nonHost)
  | String c rest' =>
      if (code c =? 9)%N || (code c =? 10)%N || (code c =? 13)%N then
        scan_host rest' i atSign nonHost
      else if is_char dquote c || any_char " %';<>\^`{|}" c then
        let '(r, a, n) := scan_host rest' (S i) atSign first in (String c r, a, n)
      else if any_char "#/?" c then
        (rest, atSign, first)
      else if is_char "@" c then
        let '(r, a, n) := scan_host rest' (S i) (Some i) None in (String c r, a, n)
      else
        let '(r, a, n) := scan_host rest' (S i) atSign nonHost in (String c r, a, n)
  end.

(** [parseHost]: a trailing [:digits] is the port. *)
Definition parseHost (host : string) : string * string :=
  let (digits_rev, before_rev) := span is_digit (rev host) in
  match before_rev with
  | String c before_rev' =>
      if is_char ":" c then (rev before_rev', rev digits_rev) else (host, "")
  | EmptyString => (host, "")
  end.

Definition isIpv6Hostname (hostname : string) : bool :=
  match hostname, rev hostname with
  | String a _, String b _ => is_char "[" a && is_char "]" b
  | _, _ => false
  end.

(** [getHostname]: the host name ends at the first of [/ \ # ? :]; the
    rest of it goes back in front of [rest] after a slash. *)
Definition getHostname (rest hostname : string) : string * string :=
  let (h, tail) := span (fun a => negb (any_char "/\#?:" a)) hostname in
  match tail with
  | EmptyString => (hostname, rest)
  | _ => (h, "/" ++ tail ++ rest)
  end.

Definition forbiddenHostChars (a : ascii) : bool :=
  (code a =? 0)%N || (code a =? 9)%N || (code a =? 10)%N || (code a =? 13)%N ||
  any_char " #%/:<>?@[\]^|" a.

Definition forbiddenHostCharsIpv6 (a : ascii) : bool :=
  (code a =? 0)%N || (code a =? 9)%N || (code a =? 10)%N || (code a =? 13)%N ||
  any_char " #%/<>?@\^|" a.

(** The host part of [parse]: from [rest] after the protocol and the
    slashes to the final [host] and the new [rest]. *)
Definition parse_host (rest : string) : completion (string * string) :=
  let '(rest, atSign, nonHost) := scan_host rest 0 None None in
  _ <- match atSign with
       | Some a => decodeURIComponent (take a rest)
       | None => Return ""
       end ;;
  let start := match atSign with Some a => S a | None => O end in
  let '(host, rest) :=
    match nonHost with
    | None => (drop start rest, "")
    | Some n => (take (n - start) (drop start rest), drop n rest)
    end in
  let '(hostname, port) := parseHost host in
  let ipv6Hostname := isIpv6Hostname hostname in
  let '(hostname, rest) :=
    if ipv6Hostname then (hostname, rest) else getHostname rest hostname in
  let hostname :=
    if (255 <? String.length hostname)%nat then "" else toLowerCase hostname in
  if negb (String.eqb hostname "") &&
     exists_char (if ipv6Hostname then forbiddenHostCharsIpv6 else forbiddenHostChars)
                 hostname
  then Throw (TypeError "Invalid URL")
  else
    let p := if String.eqb port "" then "" else ":" ++ port in
    let rest :=
      if ipv6Hostname &&
         negb (match rest with String c _ => is_char "/" c | _ => false end)
      then "/" ++ rest else rest in
    Return (hostname ++ p, rest).

(** *** What follows the host *)

Definition autoEscape (a : ascii) : bool :=
  (code a =? 9)%N || (code a =? 10)%N || (code a =? 13)%N ||
  is_char dquote a || any_char " '<>\^`{|}" a.

Fixpoint autoEscapeStr (rest : string) : string :=
  match rest with
  | EmptyString => EmptyString
  | String a rest' =>
      if autoEscape a then Uri.percent a ++ autoEscapeStr rest'
      else String a (autoEscapeStr rest')
  end.

(** The query: what lies between the first [?] and the first [#]. *)
Definition query_of (rest : string) : option string :=
  let (before_hash, _) := span (fun a => negb (is_char "#" a)) rest in
  let (_, q) := span (fun a => negb (is_char "?" a)) before_hash in
  match q with
  | String _ q' => Some q'
  | EmptyString => None
  end.

(** [url.parse(url, true)]. *)
Definition parse (url : string) : completion t :=
  let rest := convert_backslashes (trim url) in
  let '(proto, rest) :=
    match match_protocol rest with
    | Some (proto, rest') => (Some proto, rest')
    | None => (None, rest)
    end in
  let lowerProto := option_map toLowerCase proto in
  let has_proto := match proto with Some _ => true | None => false end in
  let slashes :=
    (has_proto || hostPattern rest) && starts_with_slashes rest in
  let rest :=
    if slashes && negb (has_proto && hostlessProtocol lowerProto)
    then drop 2 rest else rest in
  r <- (if negb (hostlessProtocol lowerProto) &&
           (slashes ||
            match proto with Some p => negb (slashedProtocol p) | None => false end)
        then
          hr <- parse_host rest ;;
          Return (Some (fst hr), snd hr)
        else Return (None, rest)) ;;
  let '(host, rest) := r in
  let rest := if hostlessProtocol lowerProto then rest else autoEscapeStr rest in
  let query :=
    match query_of rest with
    | Some q => querystring_parse q
    | None => []
    end in
  Return (mk lowerProto host query).

End Url.

(** ** protobufjs: the reader, the generated decoders and [toObject]

    [Payload.decode(data)] is the decoder protobufjs generates from the
    schema text [protoDefinition]; it runs on a [BufferReader] because
    [data] is a Node buffer.  A message keeps as own properties only the
    fields met on the wire: a field is [None] when the wire never set
    it. *)

Module Protobuf.

(** One [Payload.OtpParameters] message instance. *)
Record OtpParameters : Type := mkOtpParameters {
  secret : option (list byte);
  name : option string;
  issuer : option string;
  algorithm : option Z;
  digits : option Z;
  type : option Z;
  counter : option N
}.

(** One [Payload] message instance; [otpParameters] is the array of the
    repeated field (empty when the wire has none). *)
Record Payload : Type := mkPayload {
  otpParameters : list OtpParameters;
  version : option Z;
  batchSize : option Z;
  batchIndex : option Z;
  batchId : option Z
}.

Definition emptyOtpParameters : OtpParameters :=
  mkOtpParameters None None None None None None None.

Definition emptyPayload : Payload := mkPayload [] None None None None.

(** The loops below are bounded by [fuel]; every iteration consumes at
    least one byte, so the length of the buffer plus one is enough. *)
Definition out_of_fuel : exn := Error "out of fuel".

Section Reader.

(** [reader.buf]; [reader.len] is its length and the position [pos] is
    threaded through the calls. *)
Variable buf : list byte.

Definition len : N := N.of_nat (length buf).

(** [buf[pos]]: [None] is [undefined], past the end. *)
Definition at_ (pos : N) : option N :=
  option_map Byte.to_N (nth_error buf (N.to_nat pos)).

(** [buf[pos] & k]; [undefined & k] is 0. *)
Definition band (b : option N) (k : N) : N :=
  match b with Some v => N.land v k | None => 0%N end.

(** [buf[pos] < 128]; [undefined < 128] is false. *)
Definition lt128 (b : option N) : bool :=
  match b with Some v => (v <? 128)%N | None => false end.

(** [x >>> 0] on the result of 32-bit [|] and [<<]. *)
Definition u32 (x : N) : N := (x mod 4294967296)%N.

(** [x | 0]: the signed reading of 32 bits. *)
Definition to_int32 (x : N) : Z :=
  let y := Z.of_N (u32 x) in
  if (y <? 2147483648)%Z then y else (y - 4294967296)%Z.

Definition indexOutOfRange (pos : N) (writeLength : N) : exn :=
  RangeError ("index out of range: " ++ string_of_N pos ++ " + " ++
              string_of_N (if (writeLength =? 0)%N then 1%N else writeLength) ++
              " > " ++ string_of_N len).

(** [Reader.prototype.uint32]: five unrolled steps without a bounds
    check, then five more bytes are skipped. *)
Definition uint32 (pos : N) : completion (N * N) :=
  (let value := u32 (band (at_ pos) 127) in
   if lt128 (at_ pos) then Return (value, pos + 1) else
   let value := u32 (N.lor value (N.shiftl (band (at_ (pos + 1)) 127) 7)) in
   if lt128 (at_ (pos + 1)) then Return (value, pos + 2) else
   let value := u32 (N.lor value (N.shiftl (band (at_ (pos + 2)) 127) 14)) in
   if lt128 (at_ (pos + 2)) then Return (value, pos + 3) else
   let value := u32 (N.lor value (N.shiftl (band (at_ (pos + 3)) 127) 21)) in
   if lt128 (at_ (pos + 3)) then Return (value, pos + 4) else
   let value := u32 (N.lor value (N.shiftl (band (at_ (pos + 4)) 15) 28)) in
   if lt128 (at_ (pos + 4)) then Return (value, pos + 5) else
   if len <? pos + 10 then Throw (indexOutOfRange len 10)
   else Return (value, pos + 10))%N.

(** [Reader.prototype.int32]: [this.uint32() | 0]. *)
Definition int32 (pos : N) : completion (Z * N) :=
  r <- uint32 pos ;;
  Return (to_int32 (fst r), snd r).

(** A run of [count] steps of [readLongVarint]: each ors seven bits into
    [bits] at [shift]; [checked] is the slow route, which tests the
    position before each read. *)
Inductive run : Type :=
| Done (bits pos : N)
| More (bits pos : N).

Fixpoint read_run (checked : bool) (count : nat) (shift bits pos : N)
  : completion run :=
  match count with
  | O => Return (More bits pos)
  | S count' =>
      if checked && (len <=? pos)%N then Throw (indexOutOfRange pos 0)
      else
        let bits' := u32 (N.lor bits (N.shiftl (band (at_ pos) 127) shift)) in
        if lt128 (at_ pos) then Return (Done bits' (pos + 1))
        else read_run checked count' (shift + 7) bits' (pos + 1)
  end.

(** [readLongVarint]: the two 32-bit halves [(lo, hi)]. *)
Definition readLongVarint (pos : N) : completion (N * N * N) :=
  (low <- (if pos + 4 <? len then
             r <- read_run false 4 0 0 pos ;;
             match r with
             | Done lo pos' => Return (Done lo pos', 0)
             | More lo pos' =>
                 let lo' := u32 (N.lor lo (N.shiftl (band (at_ pos') 127) 28)) in
                 let hi := u32 (N.shiftr (band (at_ pos') 127) 4) in
                 if lt128 (at_ pos') then Return (Done lo' (pos' + 1), hi)
                 else Return (More lo' (pos' + 1), hi)
             end
           else
             r <- read_run true 3 0 0 pos ;;
             match r with
             | Done lo pos' => Return (Done lo pos', 0)
             | More lo pos' =>
                 Return (Done (u32 (N.lor lo (N.shiftl (band (at_ pos') 127) 21)))
                              (pos' + 1), 0)
             end) ;;
   match low with
   | (Done lo pos', hi) => Return (lo, hi, pos')
   | (More lo pos', hi) =>
       r <- read_run (negb (pos' + 4 <? len)) 5 3 hi pos' ;;
       match r with
       | Done hi' pos'' => Return (lo, hi', pos'')
       | More _ _ => Throw (Error "invalid varint encoding")
       end
   end)%N.

(** [Reader.prototype.uint64]: an unsigned [Long] with these halves. *)
Definition uint64 (pos : N) : completion (N * N) :=
  r <- readLongVarint pos ;;
  let '(lo, hi, pos') := r in
  Return ((lo + hi * 4294967296)%N, pos').

Definition slice (start stop : N) : list byte :=
  firstn (N.to_nat (stop - start)) (skipn (N.to_nat start) buf).

(** [Reader.prototype.bytes]. *)
Definition bytes (pos : N) : completion (list byte * N) :=
  r <- uint32 pos ;;
  let '(length, pos) := r in
  (if len <? pos + length then Throw (indexOutOfRange pos length)
   else Return (slice pos (pos + length), pos + length))%N.

(** [BufferReader.prototype.string]: the end is clamped to the buffer. *)
Definition string_ (pos : N) : completion (string * N) :=
  r <- uint32 pos ;;
  let '(length, pos) := r in
  let stop := N.min (pos + length) len in
  Return (Utf8.utf8Slice (slice pos stop), stop).

(** [Reader.prototype.skip(length)]. *)
Definition skip (length pos : N) : completion N :=
  (if len <? pos + length then Throw (indexOutOfRange pos length)
   else Return (pos + length))%N.

(** [Reader.prototype.skip()]: over one varint. *)
Fixpoint skip_varint (fuel : nat) (pos : N) : completion N :=
  match fuel with
  | O => Throw out_of_fuel
  | S fuel' =>
      if (len <=? pos)%N then Throw (indexOutOfRange pos 0)
      else if negb (N.land (band (at_ pos) 255) 128 =? 0)%N
           then skip_varint fuel' (pos + 1)
           else Return (pos + 1)%N
  end.

(** [Reader.prototype.skipType]; wire type 3 skips nested fields up to the
    matching end-group tag. *)
Fixpoint skipType (fuel : nat) (wireType : N) (pos : N) : completion N :=
  match fuel with
  | O => Throw out_of_fuel
  | S fuel' =>
      match wireType with
      | 0%N => skip_varint (S (length buf)) pos
      | 1%N => skip 8 pos
      | 2%N => r <- uint32 pos ;; skip (fst r) (snd r)
      | 3%N =>
          (fix group (n : nat) (pos : N) : completion N :=
             match n with
             | O => Throw out_of_fuel
             | S n' =>
                 r <- uint32 pos ;;
                 let w := N.land (fst r) 7 in
                 if (w =? 4)%N then Return (snd r)
                 else pos' <- skipType fuel' w (snd r) ;; group n' pos'
             end) (S (length buf)) pos
      | 5%N => skip 4 pos
      | _ =>
          Throw (Error ("invalid wire type " ++ string_of_N wireType ++
                        " at offset " ++ string_of_N pos))
      end
  end.

(** The [switch] of the generated [OtpParameters.decode]: the field number
    alone selects the read, whatever the wire type of the tag. *)
Definition OtpParameters_field (t : N) (m : OtpParameters) (pos : N)
  : completion (OtpParameters * N) :=
  match N.shiftr t 3 with
  | 1%N => r <- bytes pos ;;
      Return (mkOtpParameters (Some (fst r)) (name m) (issuer m) (algorithm m)
                (digits m) (type m) (counter m), snd r)
  | 2%N => r <- string_ pos ;;
      Return (mkOtpParameters (secret m) (Some (fst r)) (issuer m) (algorithm m)
                (digits m) (type m) (counter m), snd r)
  | 3%N => r <- string_ pos ;;
      Return (mkOtpParameters (secret m) (name m) (Some (fst r)) (algorithm m)
                (digits m) (type m) (counter m), snd r)
  | 4%N => r <- int32 pos ;;
      Return (mkOtpParameters (secret m) (name m) (issuer m) (Some (fst r))
                (digits m) (type m) (counter m), snd r)
  | 5%N => r <- int32 pos ;;
      Return (mkOtpParameters (secret m) (name m) (issuer m) (algorithm m)
                (Some (fst r)) (type m) (counter m), snd r)
  | 6%N => r <- int32 pos ;;
      Return (mkOtpParameters (secret m) (name m) (issuer m) (algorithm m)
                (digits m) (Some (fst r)) (counter m), snd r)
  | 7%N => r <- uint64 pos ;;
      Return (mkOtpParameters (secret m) (name m) (issuer m) (algorithm m)
                (digits m) (type m) (Some (fst r)), snd r)
  | _ => pos' <- skipType (S (length buf)) (N.land t 7) pos ;;
      Return (m, pos')
  end.

(** [while (r.pos < c) { var t = r.uint32(); switch (t >>> 3) ... }] of
    [OtpParameters.decode(r, l)], with [c = r.pos + l]. *)
Fixpoint OtpParameters_loop (fuel : nat) (c : N) (m : OtpParameters) (pos : N)
  : completion (OtpParameters * N) :=
  if (pos <? c)%N then
    match fuel with
    | O => Throw out_of_fuel
    | S fuel' =>
        r <- uint32 pos ;;
        r' <- OtpParameters_field (fst r) m (snd r) ;;
        OtpParameters_loop fuel' c (fst r') (snd r')
    end
  else Return (m, pos).

Definition OtpParameters_decode (l : N) (pos : N) : completion (OtpParameters * N) :=
  OtpParameters_loop (S (length buf)) (pos + l) emptyOtpParameters pos.

(** The [switch] of the generated [Payload.decode]. *)
Definition Payload_field (t : N) (m : Payload) (pos : N) : completion (Payload * N) :=
  match N.shiftr t 3 with
  | 1%N =>
      r <- uint32 pos ;;
      r' <- OtpParameters_decode (fst r) (snd r) ;;
      Return (mkPayload (otpParameters m ++ [fst r'])%list (version m) (batchSize m)
                (batchIndex m) (batchId m), snd r')
  | 2%N => r <- int32 pos ;;
      Return (mkPayload (otpParameters m) (Some (fst r)) (batchSize m)
                (batchIndex m) (batchId m), snd r)
  | 3%N => r <- int32 pos ;;
      Return (mkPayload (otpParameters m) (version m) (Some (fst r))
                (batchIndex m) (batchId m), snd r)
  | 4%N => r <- int32 pos ;;
      Return (mkPayload (otpParameters m) (version m) (batchSize m)
                (Some (fst r)) (batchId m), snd r)
  | 5%N => r <- int32 pos ;;
      Return (mkPayload (otpParameters m) (version m) (batchSize m)
                (batchIndex m) (Some (fst r)), snd r)
  | _ => pos' <- skipType (S (length buf)) (N.land t 7) pos ;;
      Return (m, pos')
  end.

Fixpoint Payload_loop (fuel : nat) (c : N) (m : Payload) (pos : N)
  : completion (Payload * N) :=
  if (pos <? c)%N then
    match fuel with
    | O => Throw out_of_fuel
    | S fuel' =>
        r <- uint32 pos ;;
        r' <- Payload_field (fst r) m (snd r) ;;
        Payload_loop fuel' c (fst r') (snd r')
    end
  else Return (m, pos).

End Reader.

(** [Payload.decode(data)]: the whole buffer, from position 0. *)
Definition decode (data : list byte) : completion Payload :=
  r <- Payload_loop data (S (length data)) (len data) emptyPayload 0 ;;
  Return (fst r).

(** *** [Payload.toObject(message, { longs: String, enums: String, bytes: Buffer })] *)

(** An enum of the schema: the names of its values, by number. *)
Definition Algorithm : list (Z * string) :=
  [ (0, "ALGORITHM_UNSPECIFIED"); (1, "ALGORITHM_SHA1"); (2, "ALGORITHM_SHA256");
    (3, "ALGORITHM_SHA512"); (4, "ALGORITHM_MD5") ]%Z.

Definition DigitCount : list (Z * string) :=
  [ (0, "DIGIT_COUNT_UNSPECIFIED"); (1, "DIGIT_COUNT_SIX"); (2, "DIGIT_COUNT_EIGHT") ]%Z.

Definition OtpType : list (Z * string) :=
  [ (0, "OTP_TYPE_UNSPECIFIED"); (1, "OTP_TYPE_HOTP"); (2, "OTP_TYPE_TOTP") ]%Z.

Fixpoint valuesById (enum : list (Z * string)) (n : Z) : option string :=
  match enum with
  | [] => None
  | (k, v) :: enum' => if (k =? n)%Z then Some v else valuesById enum' n
  end.

(** With [enums: String] a known number becomes its name and an unknown
    one stays a number. *)
Definition enum_toObject (enum : list (Z * string)) (n : Z) : value :=
  match valuesById enum n with
  | Some s => VString s
  | None => VNumber n
  end.

(** A field that is not an own property of the message is left out of the
    object: reading it there gives [undefined]. *)
Definition field {A} (f : A -> value) (x : option A) : value :=
  match x with
  | Some a => f a
  | None => VUndefined
  end.

End Protobuf.

(** ** The script: lookup tables and the URI reconstructor *)

(** [algorithmNames], [digitCounts], [otpTypes]. *)
Definition algorithmNames : table :=
  [ ("ALGORITHM_UNSPECIFIED", "SHA1");
    ("ALGORITHM_SHA1", "SHA1");
    ("ALGORITHM_SHA256", "SHA256");
    ("ALGORITHM_SHA512", "SHA512");
    ("ALGORITHM_MD5", "MD5") ].

Definition digitCounts : table :=
  [ ("DIGIT_COUNT_UNSPECIFIED", "6");
    ("DIGIT_COUNT_SIX", "6");
    ("DIGIT_COUNT_EIGHT", "8") ].

Definition otpTypes : table :=
  [ ("OTP_TYPE_UNSPECIFIED", "totp");
    ("OTP_TYPE_HOTP", "hotp");
    ("OTP_TYPE_TOTP", "totp") ].

(** The object handed to [createOtpauthUrl]: one element of
    [payload.otpParameters]. *)
Record Params : Type := mkParams {
  secret : value;
  name : value;
  issuer : value;
  algorithm : value;
  digits : value;
  type : value;
  counter : value
}.

(** [secretToBase32]. *)
Definition secretToBase32 (secretBytes : value) : completion string :=
  s <- Base32.encode secretBytes ;;
  Return (replace_all "=" "" s).

(** [queryParams.push(x)]. *)
Definition push (xs : list string) (x : string) : list string := (xs ++ [x])%list.

(** The array [queryParams] after all the [push]es of [createOtpauthUrl]. *)
Definition queryParams (params : Params) : completion (list string) :=
  let otpType := lookup otpTypes (type params) in
  b32 <- secretToBase32 (secret params) ;;
  let q1 := push [] ("secret=" ++ b32) in
  let q2 :=
    if truthy (issuer params)
    then push q1 ("issuer=" ++ Uri.encodeURIComponent (issuer params))
    else q1 in
  let algo := lookup algorithmNames (algorithm params) in
  let q3 := push q2 ("algorithm=" ++ ToString algo) in
  let digits := lookup digitCounts (digits params) in
  let q4 := push q3 ("digits=" ++ ToString digits) in
  let q5 :=
    if strict_eq_string otpType "hotp" && truthy (counter params)
    then push q4 ("counter=" ++ ToString (counter params))
    else q4 in
  let q6 :=
    if strict_eq_string otpType "totp"
    then push q5 "period=30"
    else q5 in
  Return q6.

(** [createOtpauthUrl]. *)
Definition createOtpauthUrl (params : Params) : completion string :=
  let otpType := lookup otpTypes (type params) in
  let path := Uri.encodeURIComponent (name params) in
  let result := "otpauth://" ++ ToString otpType ++ "/" ++ path ++ "?" in
  qs <- queryParams params ;;
  Return (result ++ join "&" qs).

(** ** The script: from a migration URL to the account list *)

(** [extractDataFromUrl].  [parsedUrl.query.data] is [undefined] when the
    URL has no [data] parameter and an array when it has several; an array
    is truthy and has no [replace] method. *)
Definition extractDataFromUrl (migrationUrl : string) : completion (list byte) :=
  parsedUrl <- Url.parse migrationUrl ;;
  if negb (match Url.protocol parsedUrl with
           | Some p => String.eqb p "otpauth-migration:"
           | None => false
           end) ||
     negb (match Url.host parsedUrl with
           | Some h => String.eqb h "offline"
           | None => false
           end)
  then Throw (Error "Invalid Google Authenticator migration URL")
  else
    match Url.query_get (Url.query parsedUrl) "data" with
    | Some (Url.QArray _) => Throw (TypeError "data.replace is not a function")
    | Some (Url.QString data) => Return (Buffer.from_base64 (replace_all " " "+" data))
    | None => Return (Buffer.from_base64 (replace_all " " "+" ""))
    end.

(** [Payload.toObject(message, { longs: String, enums: String, bytes: Buffer })]
    on one element of the repeated field. *)
Definition OtpParameters_toObject (m : Protobuf.OtpParameters) : Params :=
  mkParams
    (Protobuf.field VBuffer (Protobuf.secret m))
    (Protobuf.field VString (Protobuf.name m))
    (Protobuf.field VString (Protobuf.issuer m))
    (Protobuf.field (Protobuf.enum_toObject Protobuf.Algorithm) (Protobuf.algorithm m))
    (Protobuf.field (Protobuf.enum_toObject Protobuf.DigitCount) (Protobuf.digits m))
    (Protobuf.field (Protobuf.enum_toObject Protobuf.OtpType) (Protobuf.type m))
    (Protobuf.field (fun n => VString (string_of_N n)) (Protobuf.counter m)).

(** The object [payload]; [otpParameters] is only set for a non-empty
    array, so [None] is [undefined]. *)
Record PayloadObject : Type := mkPayloadObject {
  otpParameters : option (list Params);
  version : value;
  batchSize : value;
  batchIndex : value;
  batchId : value
}.

Definition Payload_toObject (m : Protobuf.Payload) : PayloadObject :=
  mkPayloadObject
    (match Protobuf.otpParameters m with
     | [] => None
     | ps => Some (map OtpParameters_toObject ps)
     end)
    (Protobuf.field VNumber (Protobuf.version m))
    (Protobuf.field VNumber (Protobuf.batchSize m))
    (Protobuf.field VNumber (Protobuf.batchIndex m))
    (Protobuf.field VNumber (Protobuf.batchId m)).

(** One element of the array [decodeUrl] returns. *)
Record Account : Type := mkAccount {
  account_name : value;
  account_issuer : value;
  account_secret : string;
  account_type : value;
  account_algorithm : value;
  account_digits : value;
  otpauthUrl : string
}.

(** The callback of [payload.otpParameters.map]. *)
Definition account_of (params : Params) : completion Account :=
  otpauthUrl <- createOtpauthUrl params ;;
  bytes <- Buffer.from (secret params) ;;
  Return (mkAccount (name params) (issuer params) (Buffer.toString_hex bytes)
            (type params) (algorithm params) (digits params) otpauthUrl).

(** [array.map(f)] for a callback that may throw. *)
Fixpoint map_completion {A B} (f : A -> completion B) (xs : list A)
  : completion (list B) :=
  match xs with
  | [] => Return []
  | x :: xs' =>
      y <- f x ;;
      ys <- map_completion f xs' ;;
      Return (y :: ys)
  end.

(** The [try] block of [decodeUrl]. *)
Definition decodeUrl_try (migrationUrl : string) : completion (list Account) :=
  data <- extractDataFromUrl migrationUrl ;;
  message <- Protobuf.decode data ;;
  let payload := Payload_toObject message in
  match otpParameters payload with
  | None => Throw (TypeError "Cannot read properties of undefined (reading 'map')")
  | Some ps => map_completion account_of ps
  end.

(** [decodeUrl]: the accounts, and what [console.error] was given (the
    [catch] block logs the error and returns the empty array). *)
Definition decodeUrl (migrationUrl : string) : list Account * list exn :=
  match decodeUrl_try migrationUrl with
  | Return accounts => (accounts, [])
  | Throw error => ([], [error])
  end.

(** [processAllUrls] up to [allAccounts]: the URLs are decoded in order
    and the arrays flattened; the second component collects the errors
    logged on the way. *)
Definition processAllUrls (migrationUrls : list string) : list Account * list exn :=
  let allAccountsArrays := map decodeUrl migrationUrls in
  (concat (map fst allAccountsArrays), concat (map snd allAccountsArrays)).

(** ** Reference definitions the statements are measured against

    Nothing below is code of the script: these are the encodings the
    specification names (RFC 4648 base32 and base64, the protobuf wire
    format of a synthetic payload, the query part of a URI), written from
    their own definitions. *)

(** *** RFC 4648, on bit strings *)

Module RFC4648.

(** The [width] low bits of [n], most significant first. *)
Fixpoint bits_of_N (width : nat) (n : N) : list bool :=
  match width with
  | O => []
  | S w => N.testbit n (N.of_nat w) :: bits_of_N w n
  end.

(** The number a bit string denotes, most significant bit first. *)
Definition N_of_bits (bits : list bool) : N :=
  fold_left (fun acc (b : bool) => (2 * acc + (if b then 1 else 0))%N) bits 0%N.

Definition bits_of_bytes (bytes : list byte) : list bool :=
  flat_map (fun b => bits_of_N 8 (Byte.to_N b)) bytes.

(** Groups of five bits; an incomplete last group is completed with zero
    bits on the right. *)
Fixpoint quintets (bits : list bool) : list (list bool) :=
  match bits with
  | [] => []
  | a :: b :: c :: d :: e :: rest => [a; b; c; d; e] :: quintets rest
  | [a; b; c; d] => [[a; b; c; d; false]]
  | [a; b; c] => [[a; b; c; false; false]]
  | [a; b] => [[a; b; false; false; false]]
  | [a] => [[a; false; false; false; false]]
  end.

(** Groups of eight bits; an incomplete last group is dropped. *)
Fixpoint octets (bits : list bool) : list (list bool) :=
  match bits with
  | a :: b :: c :: d :: e :: f :: g :: h :: rest =>
      [a; b; c; d; e; f; g; h] :: octets rest
  | _ => []
  end.

Definition alphabet32 : string := "ABCDEFGHIJKLMNOPQRSTUVWXYZ234567".

Definition char32 (v : N) : ascii :=
  match String.get (N.to_nat v) alphabet32 with
  | Some c => c
  | None => "="%char
  end.

(** The value of a character of the base32 alphabet. *)
Definition value32 (c : ascii) : option N :=
  let n := N_of_ascii c in
  (if (65 <=? n) && (n <=? 90) then Some (n - 65)
   else if (50 <=? n) && (n <=? 55) then Some (n - 24)
   else None)%N.

Fixpoint string_of_chars (cs : list ascii) : string :=
  match cs with
  | [] => EmptyString
  | c :: cs' => String c (string_of_chars cs')
  end.

Fixpoint repeat_char (c : ascii) (n : nat) : string :=
  match n with
  | O => EmptyString
  | S n' => String c (repeat_char c n')
  end.

(** Base32 without padding: one character per group of five bits. *)
Definition base32_unpadded (bytes : list byte) : string :=
  string_of_chars (map (fun q => char32 (N_of_bits q)) (quintets (bits_of_bytes bytes))).

(** Base32 as in section 6: padded with [=] to a multiple of eight
    characters. *)
Definition base32 (bytes : list byte) : string :=
  let s := base32_unpadded bytes in
  s ++ repeat_char "=" ((8 - String.length s mod 8) mod 8).

(** Decoding of unpadded base32: [None] on a character outside the
    alphabet; the bits left over after the last whole byte are dropped. *)
Fixpoint values32 (s : string) : option (list N) :=
  match s with
  | EmptyString => Some []
  | String c s' =>
      match value32 c, values32 s' with
      | Some v, Some vs => Some (v :: vs)
      | _, _ => None
      end
  end.

Definition byte_of_bits (bits : list bool) : byte := Buffer.byte_of_N (N_of_bits bits).

Definition base32_decode (s : string) : option (list byte) :=
  match values32 s with
  | Some vs => Some (map byte_of_bits (octets (flat_map (bits_of_N 5) vs)))
  | None => None
  end.

(** Base64 (section 4), with padding. *)
Definition alphabet64 : string :=
  "ABCDEFGHIJKLMNOPQRSTUVWXYZabcdefghijklmnopqrstuvwxyz0123456789+/".

Definition char64 (v : N) : ascii :=
  match String.get (N.to_nat v) alphabet64 with
  | Some c => c
  | None => "="%char
  end.

Fixpoint sextets (bits : list bool) : list (list bool) :=
  match bits with
  | [] => []
  | a :: b :: c :: d :: e :: f :: rest => [a; b; c; d; e; f] :: sextets rest
  | [a; b; c; d; e] => [[a; b; c; d; e; false]]
  | [a; b; c; d] => [[a; b; c; d; false; false]]
  | [a; b; c] => [[a; b; c; false; false; false]]
  | [a; b] => [[a; b; false; false; false; false]]
  | [a] => [[a; false; false; false; false; false]]
  end.

Definition base64 (bytes : list byte) : string :=
  let s := string_of_chars (map (fun q => char64 (N_of_bits q)) (sextets (bits_of_bytes bytes))) in
  s ++ repeat_char "=" ((4 - String.length s mod 4) mod 4).

(** Well-formed base64 text: characters of the standard alphabet, then at
    most two [=], a multiple of four characters in all. *)
Definition is_char64 (c : ascii) : bool :=
  let n := N_of_ascii c in
  ((65 <=? n) && (n <=? 90) || (97 <=? n) && (n <=? 122) ||
   (48 <=? n) && (n <=? 57) || (n =? 43) || (n =? 47))%N.

Definition well_formed_base64 (s : string) : bool :=
  let (body, pad) := Url.span is_char64 s in
  (String.length s mod 4 =? 0)%nat &&
  (String.eqb pad "" || String.eqb pad "=" || String.eqb pad "==").

End RFC4648.

(** *** The protobuf wire format of a synthetic payload *)

Module Wire.

(** Base-128 varint, least significant group first: seven bits a byte,
    the high bit set on every byte but the last.  Ten bytes hold the 64
    bits the format allows. *)
Fixpoint varint_aux (groups : nat) (n : N) : list byte :=
  match groups with
  | O => []
  | S groups' =>
      if (n <? 128)%N then [Buffer.byte_of_N n]
      else Buffer.byte_of_N (n mod 128 + 128) :: varint_aux groups' (n / 128)
  end.

Definition varint (n : N) : list byte := varint_aux 10 n.

Definition tag (number wire_type : N) : list byte := varint (number * 8 + wire_type).

Definition length_delimited (number : N) (payload : list byte) : list byte :=
  (tag number 2 ++ varint (N.of_nat (length payload)) ++ payload)%list.

Definition varint_field (number n : N) : list byte := (tag number 0 ++ varint n)%list.

(** One field of an [OtpParameters] message. *)
Inductive otp_field : Type :=
| Secret (b : list byte)
| Name (s : string)
| Issuer (s : string)
| Algorithm (n : N)
| Digits (n : N)
| OtpType (n : N)
| Counter (n : N).

Definition encode_otp_field (f : otp_field) : list byte :=
  match f with
  | Secret b => length_delimited 1 b
  | Name s => length_delimited 2 (list_byte_of_string s)
  | Issuer s => length_delimited 3 (list_byte_of_string s)
  | Algorithm n => varint_field 4 n
  | Digits n => varint_field 5 n
  | OtpType n => varint_field 6 n
  | Counter n => varint_field 7 n
  end.

(** A record as an encoder is given it: the secret, and for every other
    field either nothing (the field is left off the wire) or its value.
    Fields are written in the order of their numbers. *)
Record record : Type := mkRecord {
  secret : list byte;
  name : option string;
  issuer : option string;
  algorithm : option N;
  digits : option N;
  type : option N;
  counter : option N
}.

Definition opt {A} (f : A -> otp_field) (x : option A) : list otp_field :=
  match x with
  | Some a => [f a]
  | None => []
  end.

Definition fields (r : record) : list otp_field :=
  (Secret (secret r) :: opt Name (name r) ++ opt Issuer (issuer r) ++
   opt Algorithm (algorithm r) ++ opt Digits (digits r) ++ opt OtpType (type r) ++
   opt Counter (counter r))%list.

Definition encode_fields (fs : list otp_field) : list byte :=
  flat_map encode_otp_field fs.

Definition encode_record (r : record) : list byte := encode_fields (fields r).

(** The batch fields that follow the records in an export. *)
Record trailer : Type := mkTrailer {
  version : option N;
  batch_size : option N;
  batch_index : option N;
  batch_id : option N
}.

Definition opt_varint (number : N) (x : option N) : list byte :=
  match x with
  | Some n => varint_field number n
  | None => []
  end.

Definition encode_trailer (t : trailer) : list byte :=
  (opt_varint 2 (version t) ++ opt_varint 3 (batch_size t) ++
   opt_varint 4 (batch_index t) ++ opt_varint 5 (batch_id t))%list.

(** A payload: the records, each as an entry of field 1, then the batch
    fields. *)
Definition encode_payload (records : list record) (t : trailer) : list byte :=
  (flat_map (fun r => length_delimited 1 (encode_record r)) records ++
   encode_trailer t)%list.

(** What the wire format can carry: lengths and enum numbers in 32 bits,
    the counter in 64. *)
Definition fits32 (n : N) : bool := (n <? 4294967296)%N.
Definition fits64 (n : N) : bool := (n <? 18446744073709551616)%N.

Definition opt_ok {A} (p : A -> bool) (x : option A) : bool :=
  match x with
  | Some a => p a
  | None => true
  end.

Definition string_fits (s : string) : bool := fits32 (N.of_nat (String.length s)).

Definition record_ok (r : record) : bool :=
  fits32 (N.of_nat (length (secret r))) &&
  opt_ok string_fits (name r) && opt_ok string_fits (issuer r) &&
  opt_ok fits32 (algorithm r) && opt_ok fits32 (digits r) && opt_ok fits32 (type r) &&
  opt_ok fits64 (counter r) &&
  fits32 (N.of_nat (length (encode_record r))).

Definition trailer_ok (t : trailer) : bool :=
  opt_ok fits32 (version t) && opt_ok fits32 (batch_size t) &&
  opt_ok fits32 (batch_index t) && opt_ok fits32 (batch_id t).

End Wire.

(** *** The query part of a reconstructed URI *)

(** What follows the first [?]. *)
Definition query_string (uri : string) : string :=
  Url.drop 1 (snd (Url.span (fun a => negb (Url.is_char "?" a)) uri)).

(** The parameters in order: the query is cut at every [&] and each piece
    at its first [=]. *)
Definition cut (piece : string) : string * string :=
  let (k, v) := Url.span (fun a => negb (Url.is_char "=" a)) piece in
  (k, Url.drop 1 v).

Definition query_pairs (uri : string) : list (string * string) :=
  map cut (Url.split "&" (query_string uri)).

(** The text [key=value] of a parameter. *)
Definition glue (parameter : string * string) : string :=
  fst parameter ++ String "=" (snd parameter).

(** The value of the first parameter named [key]. *)
Fixpoint assoc (key : string) (pairs : list (string * string)) : option string :=
  match pairs with
  | [] => None
  | (k, v) :: pairs' => if String.eqb k key then Some v else assoc key pairs'
  end.

(** *** Characters that separate nothing *)

(** A character that cannot end a path, a parameter or a key. *)
Definition quiet (a : ascii) : bool := negb (Url.any_char "?&=" a).

Definition all_quiet (s : string) : bool := Url.forall_chars quiet s.

(** No [&] in [s]. *)
Definition no_amp (s : string) : bool :=
  Url.forall_chars (fun a => negb (Ascii.eqb a "&")) s.

(** A quiet character or the base32 padding character. *)
Definition quiet_or_pad (a : ascii) : bool := quiet a || Ascii.eqb a "=".

(** The parameters [createOtpauthUrl] is to give for [params], in order,
    [b32] being the base32 text of the secret. *)
Definition expected_query (params : Params) (b32 : string) : list (string * string) :=
  let otpType := lookup otpTypes (type params) in
  ([("secret", b32)] ++
   (if truthy (issuer params)
    then [("issuer", Uri.encodeURIComponent (issuer params))] else []) ++
   [("algorithm", ToString (lookup algorithmNames (algorithm params)))] ++
   [("digits", ToString (lookup digitCounts (digits params)))] ++
   (if strict_eq_string otpType "hotp" && truthy (counter params)
    then [("counter", ToString (counter params))] else []) ++
   (if strict_eq_string otpType "totp" then [("period", "30")] else []))%list.

(** The text of a provisioning URI with this type, path and query. *)
Definition uri_text (otpType path query : string) : string :=
  ("otpauth://" ++ otpType ++ "/" ++ path ++ "?") ++ query.

(** *** Bytes and their bits *)

(** The 256 bytes, in order. *)
Definition all_bytes : list byte :=
  map (fun n => Buffer.byte_of_N (N.of_nat n)) (seq 0 256).

(** Bit [k] of a byte, bit 0 being the least significant. *)
Definition bit (b : byte) (k : N) : bool := N.testbit (Byte.to_N b) k.

(** *** Positions in a buffer *)

(** [rest] is what the buffer holds from position [pos] on. *)
Definition at_pos (buf : list byte) (pos : N) (rest : list byte) : Prop :=
  exists pre, buf = (pre ++ rest)%list /\ pos = N.of_nat (length pre).

(** *** What a decoder is to make of an encoded payload *)

Module Expected.

(** The text a string field holds once its bytes are read back. *)
Definition text (s : string) : string := Utf8.utf8Slice (list_byte_of_string s).

Definition field_ok (f : Wire.otp_field) : bool :=
  match f with
  | Wire.Secret b => Wire.fits32 (N.of_nat (length b))
  | Wire.Name s => Wire.string_fits s
  | Wire.Issuer s => Wire.string_fits s
  | Wire.Algorithm n => Wire.fits32 n
  | Wire.Digits n => Wire.fits32 n
  | Wire.OtpType n => Wire.fits32 n
  | Wire.Counter n => Wire.fits64 n
  end.

(** The message after one more field of it is read. *)
Definition set_field (m : Protobuf.OtpParameters) (f : Wire.otp_field)
  : Protobuf.OtpParameters :=
  match f with
  | Wire.Secret b =>
      Protobuf.mkOtpParameters (Some b) (Protobuf.name m) (Protobuf.issuer m)
        (Protobuf.algorithm m) (Protobuf.digits m) (Protobuf.type m) (Protobuf.counter m)
  | Wire.Name s =>
      Protobuf.mkOtpParameters (Protobuf.secret m) (Some (text s)) (Protobuf.issuer m)
        (Protobuf.algorithm m) (Protobuf.digits m) (Protobuf.type m) (Protobuf.counter m)
  | Wire.Issuer s =>
      Protobuf.mkOtpParameters (Protobuf.secret m) (Protobuf.name m) (Some (text s))
        (Protobuf.algorithm m) (Protobuf.digits m) (Protobuf.type m) (Protobuf.counter m)
  | Wire.Algorithm n =>
      Protobuf.mkOtpParameters (Protobuf.secret m) (Protobuf.name m) (Protobuf.issuer m)
        (Some (Protobuf.to_int32 n)) (Protobuf.digits m) (Protobuf.type m)
        (Protobuf.counter m)
  | Wire.Digits n =>
      Protobuf.mkOtpParameters (Protobuf.secret m) (Protobuf.name m) (Protobuf.issuer m)
        (Protobuf.algorithm m) (Some (Protobuf.to_int32 n)) (Protobuf.type m)
        (Protobuf.counter m)
  | Wire.OtpType n =>
      Protobuf.mkOtpParameters (Protobuf.secret m) (Protobuf.name m) (Protobuf.issuer m)
        (Protobuf.algorithm m) (Protobuf.digits m) (Some (Protobuf.to_int32 n))
        (Protobuf.counter m)
  | Wire.Counter n =>
      Protobuf.mkOtpParameters (Protobuf.secret m) (Protobuf.name m) (Protobuf.issuer m)
        (Protobuf.algorithm m) (Protobuf.digits m) (Protobuf.type m) (Some n)
  end.

(** The message of a record. *)
Definition message (r : Wire.record) : Protobuf.OtpParameters :=
  fold_left set_field (Wire.fields r) Protobuf.emptyOtpParameters.

(** One field of a payload: a record, or one of the batch fields 2 to 5
    with its number. *)
Inductive payload_field : Type :=
| Entry (r : Wire.record)
| Batch (number n : N).

Definition encode_payload_field (f : payload_field) : list byte :=
  match f with
  | Entry r => Wire.length_delimited 1 (Wire.encode_record r)
  | Batch number n => Wire.varint_field number n
  end.

Definition payload_field_ok (f : payload_field) : bool :=
  match f with
  | Entry r => Wire.record_ok r
  | Batch number n => (2 <=? number)%N && (number <=? 5)%N && Wire.fits32 n
  end.

Definition set_payload_field (m : Protobuf.Payload) (f : payload_field)
  : Protobuf.Payload :=
  match f with
  | Entry r =>
      Protobuf.mkPayload (Protobuf.otpParameters m ++ [message r])%list
        (Protobuf.version m) (Protobuf.batchSize m) (Protobuf.batchIndex m)
        (Protobuf.batchId m)
  | Batch 2 n =>
      Protobuf.mkPayload (Protobuf.otpParameters m) (Some (Protobuf.to_int32 n))
        (Protobuf.batchSize m) (Protobuf.batchIndex m) (Protobuf.batchId m)
  | Batch 3 n =>
      Protobuf.mkPayload (Protobuf.otpParameters m) (Protobuf.version m)
        (Some (Protobuf.to_int32 n)) (Protobuf.batchIndex m) (Protobuf.batchId m)
  | Batch 4 n =>
      Protobuf.mkPayload (Protobuf.otpParameters m) (Protobuf.version m)
        (Protobuf.batchSize m) (Some (Protobuf.to_int32 n)) (Protobuf.batchId m)
  | Batch 5 n =>
      Protobuf.mkPayload (Protobuf.otpParameters m) (Protobuf.version m)
        (Protobuf.batchSize m) (Protobuf.batchIndex m) (Some (Protobuf.to_int32 n))
  | Batch _ _ => m
  end.

Definition batch (number : N) (x : option N) : list payload_field :=
  match x with
  | Some n => [Batch number n]
  | None => []
  end.

(** The fields of a payload, in the order they are written. *)
Definition payload_fields (records : list Wire.record) (t : Wire.trailer)
  : list payload_field :=
  (map Entry records ++
   batch 2 (Wire.version t) ++ batch 3 (Wire.batch_size t) ++
   batch 4 (Wire.batch_index t) ++ batch 5 (Wire.batch_id t))%list.

(** A payload of two records and the batch fields. *)
Definition sample_records : list Wire.record :=
  [ Wire.mkRecord [x48; x65; x6c; x6c; x6f] (Some "alice") (Some "Example")
      (Some 1%N) (Some 1%N) (Some 2%N) None;
    Wire.mkRecord [x00; x01; x02] (Some "bob") None
      (Some 2%N) (Some 2%N) (Some 1%N) (Some 5000000000%N) ].

Definition sample_trailer : Wire.trailer :=
  Wire.mkTrailer (Some 1%N) (Some 1%N) (Some 0%N) (Some 12345%N).

End Expected.

(** *** Progress of the reader *)

(** The position a read ends at. *)
Definition position {A} (c : completion (A * N)) : completion N :=
  match c with
  | Return r => Return (snd r)
  | Throw e => Throw e
  end.

(** A read from [pos] that moves on: when it returns, the position is at
    least [least] further and at most [slack] past the end of the buffer;
    when it throws, the error is one of the library's, not the end of the
    fuel. *)
Definition moves (buf : list byte) (least slack pos : N) (c : completion N) : Prop :=
  match c with
  | Return p => (pos + least <= p)%N /\ (p <= Protobuf.len buf + slack)%N
  | Throw e => e <> Protobuf.out_of_fuel
  end.

(** The accounts [decodeUrl] makes of a decoded payload: the [try] block
    after [Payload.decode]. *)
Definition accounts_of (message : Protobuf.Payload) : completion (list Account) :=
  match otpParameters (Payload_toObject message) with
  | None => Throw (TypeError "Cannot read properties of undefined (reading 'map')")
  | Some ps => map_completion account_of ps
  end.

(** ** Reference definitions for the transport *)

(** The migration URL with this text as its [data] value. *)
Definition migration_url (data : string) : string :=
  "otpauth-migration://offline?data=" ++ data.

(** The characters a [data] value is written with: letters, digits, the
    other characters of the two base64 alphabets, the padding and the
    percent sign of an escape. *)
Definition data_char (a : ascii) : bool :=
  Url.is_alpha a || Url.is_digit a || Url.any_char "+/=-_%" a.

(** A visible ASCII character. *)
Definition plain (a : ascii) : bool :=
  ((33 <=? Url.code a) && (Url.code a <? 128))%N.

Fixpoint map_chars (f : ascii -> ascii) (s : string) : string :=
  match s with
  | EmptyString => EmptyString
  | String a s' => String (f a) (map_chars f s')
  end.

(** Base64 without the padding. *)
Definition base64_unpadded (bytes : list byte) : string :=
  RFC4648.string_of_chars
    (map (fun q => RFC4648.char64 (RFC4648.N_of_bits q))
         (RFC4648.sextets (RFC4648.bits_of_bytes bytes))).

(** The URL-safe alphabet of RFC 4648, section 5: [-] for [+] and [_] for
    [/]. *)
Definition url_safe (c : ascii) : ascii :=
  if Ascii.eqb c "+" then "-"%char
  else if Ascii.eqb c "/" then "_"%char else c.

Definition base64url (bytes : list byte) : string :=
  map_chars url_safe (base64_unpadded bytes).

(** The URL of the migration transport with this query. *)
Definition transport_url (query : string) : string :=
  "otpauth-migration://offline?" ++ query.

(** The characters of a query: those of a [data] value and the [&]
    between two parameters. *)
Definition query_char (a : ascii) : bool := data_char a || Ascii.eqb a "&".

(** ** Reference definitions for the accounts *)

(** The value of a lowercase hexadecimal digit. *)
Definition hex_value (c : ascii) : option N :=
  let n := N_of_ascii c in
  (if (48 <=? n) && (n <=? 57) then Some (n - 48)
   else if (97 <=? n) && (n <=? 102) then Some (n - 87)
   else None)%N.

(** The bytes a hexadecimal text stands for, two digits a byte. *)
Fixpoint hex_decode (s : string) : option (list byte) :=
  match s with
  | EmptyString => Some []
  | String h (String l s') =>
      match hex_value h, hex_value l, hex_decode s' with
      | Some a, Some b, Some rest => Some (Buffer.byte_of_N (16 * a + b) :: rest)
      | _, _, _ => None
      end
  | String _ EmptyString => None
  end.

(** A character of the base32 alphabet. *)
Definition is_char32 (c : ascii) : bool :=
  match RFC4648.value32 c with
  | Some _ => true
  | None => false
  end.

(** The member of an enum of the schema with this number, or the number
    itself when the schema has none ([names] lists the members from
    number 0 on). *)
Definition member (names : list string) (n : N) : value :=
  match nth_error names (N.to_nat n) with
  | Some s => VString s
  | None => VNumber (Protobuf.to_int32 n)
  end.

Definition Algorithm_members : list string :=
  ["ALGORITHM_UNSPECIFIED"; "ALGORITHM_SHA1"; "ALGORITHM_SHA256"; "ALGORITHM_SHA512";
   "ALGORITHM_MD5"].

Definition DigitCount_members : list string :=
  ["DIGIT_COUNT_UNSPECIFIED"; "DIGIT_COUNT_SIX"; "DIGIT_COUNT_EIGHT"].

Definition OtpType_members : list string :=
  ["OTP_TYPE_UNSPECIFIED"; "OTP_TYPE_HOTP"; "OTP_TYPE_TOTP"].

(** A field of a record as a JavaScript value: [undefined] when the
    record has none. *)
Definition optional {A} (f : A -> value) (x : option A) : value :=
  match x with
  | Some a => f a
  | None => VUndefined
  end.

(** The canonical name the URI is to carry for an enum number
    ([names] lists them from number 0 on); the text [undefined] for a
    field left off the wire and for a number outside the list. *)
Definition canonical (names : list string) (x : option N) : string :=
  match x with
  | Some n =>
      match nth_error names (N.to_nat n) with
      | Some s => s
      | None => "undefined"
      end
  | None => "undefined"
  end.

Definition algorithm_canonical : list string := ["SHA1"; "SHA1"; "SHA256"; "SHA512"; "MD5"].
Definition digits_canonical : list string := ["6"; "6"; "8"].
Definition type_canonical : list string := ["totp"; "hotp"; "totp"].

(** The label of the URI of a record: its name, and the text
    [undefined] when it has none. *)
Definition label (r : Wire.record) : string :=
  match Wire.name r with
  | Some s => Expected.text s
  | None => "undefined"
  end.

(** The provisioning URI of a record. *)
Definition expected_uri (r : Wire.record) : string :=
  let otpType := canonical type_canonical (Wire.type r) in
  uri_text otpType (Uri.escape (label r))
    (join "&"
       ([("secret=" ++ RFC4648.base32_unpadded (Wire.secret r))%string] ++
        match Wire.issuer r with
        | Some s =>
            if String.eqb (Expected.text s) "" then []
            else [("issuer=" ++ Uri.escape (Expected.text s))%string]
        | None => []
        end ++
        [("algorithm=" ++ canonical algorithm_canonical (Wire.algorithm r))%string;
         ("digits=" ++ canonical digits_canonical (Wire.digits r))%string] ++
        match Wire.counter r with
        | Some c => if String.eqb otpType "hotp" then [("counter=" ++ string_of_N c)%string] else []
        | None => []
        end ++
        (if String.eqb otpType "totp" then ["period=30"] else []))%list).

(** The characters of a provisioning URI: the ones [encodeURIComponent]
    leaves alone, the percent sign of its escapes, and the delimiters
    [:], [/], [?], [&] and [=]. *)
Definition uri_char (a : ascii) : bool := Uri.unreserved a || Url.any_char ":/?&=%" a.

(** ** Reference definitions for an export in batches *)



(** ** Reference definitions for the query of a URL *)

(** The visible ASCII characters a query holds as they are written: all
    but [#], which ends the query, and the characters [url.parse] writes
    as escapes (the quotes, [<], [>], [\], [^], the backquote, [{], [|]
    and [}]). *)
Definition kept_char (a : ascii) : bool :=
  plain a && negb (Url.any_char "#'<>\^`{|}" a) && negb (Ascii.eqb a Url.dquote).

(** The visible ASCII characters of one value of a query: all but [#],
    which ends the query, and [&], which ends the value. *)
Definition value_char (a : ascii) : bool := plain a && negb (Url.any_char "#&" a).

(** The characters of a value that reaches the script as it is written:
    no [&], which would end it, and no [%], which would start an
    escape. *)
Definition raw_char (a : ascii) : bool := kept_char a && negb (Url.any_char "&%" a).

(** ** Reference definitions for lenient base64 *)

(** The place of a character in a text. *)
Fixpoint index_of (c : ascii) (s : string) : option N :=
  match s with
  | EmptyString => None
  | String a s' => if Ascii.eqb c a then Some 0%N else option_map N.succ (index_of c s')
  end.

(** The six bits a character stands for: its place in the alphabet of
    RFC 4648, section 4; [-] and [_] are 62 and 63, as in section 5. *)
Definition value64 (c : ascii) : option N :=
  if Ascii.eqb c "-" then Some 62%N
  else if Ascii.eqb c "_" then Some 63%N
  else index_of c RFC4648.alphabet64.

(** What a lenient decoder reads of a text: the characters of the
    alphabets that stand before the first [=]. *)
Fixpoint values64 (s : string) : list N :=
  match s with
  | EmptyString => []
  | String c rest =>
      match value64 c with
      | Some v => v :: values64 rest
      | None => if Ascii.eqb c "=" then [] else values64 rest
      end
  end.

(** Lenient decoding: six bits for every character read, and the whole
    bytes of these bits. *)
Definition lenient_base64 (s : string) : list byte :=
  map RFC4648.byte_of_bits
      (RFC4648.octets (flat_map (RFC4648.bits_of_N 6) (values64 s))).

(** The bits of the last character read that belong to the next byte:
    none at the start of a group of four characters, then six, four and
    two. *)
Definition carried (phase : nat) (hi : N) : list bool :=
  match phase with
  | 0%nat => []
  | 1%nat => RFC4648.bits_of_N 6 hi
  | 2%nat => RFC4648.bits_of_N 4 hi
  | _ => RFC4648.bits_of_N 2 hi
  end.

(** ** Reference definitions for the transport check *)

(** A character of a scheme (RFC 3986, section 3.1): a letter, a digit,
    [+], [-] or [.]. *)
Definition scheme_char (a : ascii) : bool :=
  Url.is_alpha a || Url.is_digit a || Url.any_char "+-." a.

(** A character of a plain host name: a letter, a digit or a dot. *)
Definition host_char (a : ascii) : bool :=
  Url.is_alpha a || Url.is_digit a || Url.is_char "." a.

(** What may follow the host of a URI: nothing, or a path, a query or a
    fragment, that is visible ASCII characters that start with [/], [?]
    or [#]. *)
Definition tail_ok (tail : string) : bool :=
  Url.forall_chars plain tail &&
  match tail with
  | EmptyString => true
  | String c _ => Url.any_char "/?#" c
  end.

(** The URI with this scheme and this host, and what follows them. *)
Definition uri_of (scheme host tail : string) : string :=
  scheme ++ "://" ++ host ++ tail.

(** The scheme and the authority of a URI as RFC 3986, section 3, reads
    them: the scheme is what stands before the first [:], and there is an
    authority only when [//] follows that colon; it ends at the next [/],
    [?] or [#]. *)
Module RFC3986.

Definition scheme (uri : string) : string :=
  fst (Url.span (fun a => negb (Url.is_char ":" a)) uri).

Definition authority (uri : string) : option string :=
  match Url.drop 1 (snd (Url.span (fun a => negb (Url.is_char ":" a)) uri)) with
  | String a (String b rest) =>
      if Url.is_char "/" a && Url.is_char "/" b
      then Some (fst (Url.span (fun c => negb (Url.any_char "/?#" c)) rest))
      else None
  | _ => None
  end.

End RFC3986.

(** ** Reference definitions for the parameters of the URI *)

(** The parameters the URI of a record is to carry, in order: the
    secret in base32 without padding; the issuer when the record has one
    and its text is not empty; the canonical names of the algorithm and of
    the digit count; the counter when the type is [hotp] and the record
    has a counter; the period when the type is [totp]. *)
Definition expected_pairs (r : Wire.record) : list (string * string) :=
  let otpType := canonical type_canonical (Wire.type r) in
  ([("secret", RFC4648.base32_unpadded (Wire.secret r))] ++
   match Wire.issuer r with
   | Some s =>
       if String.eqb (Expected.text s) "" then []
       else [("issuer", Uri.escape (Expected.text s))]
   | None => []
   end ++
   [("algorithm", canonical algorithm_canonical (Wire.algorithm r));
    ("digits", canonical digits_canonical (Wire.digits r))] ++
   match Wire.counter r with
   | Some c => if String.eqb otpType "hotp" then [("counter", string_of_N c)] else []
   | None => []
   end ++
   (if String.eqb otpType "totp" then [("period", "30")] else []))%list.

(** ** The page: [generateQRCodes], [generateHtml], [processAllUrls]

    What the script does with the accounts once the URLs are decoded.
    The text of the page is the template of [generateHtml], character by
    character. *)

Module Page.

(** An account after [generateQRCodes]: the object has the property
    [qrCodeDataUrl] as well. *)
Record AccountQR : Type := mkAccountQR {
  account : Account;
  qrCodeDataUrl : string
}.

(** The double quote, as a text. *)
Definition quote : string := String Url.dquote EmptyString.

(** [${v || '-'}] in a template. *)
Definition or_dash (v : value) : string := if truthy v then ToString v else "-".

(** The template of one row; a template is the array of its pieces,
    joined. *)
Definition row (a : AccountQR) : string :=
  join EmptyString
   ["
    <tr>
      <td>";
    or_dash (account_name (account a));
    "</td>
      <td>";
    or_dash (account_issuer (account a));
    "</td>
      <td>";
    account_secret (account a);
    "</td>
      <td>";
    ToString (account_type (account a));
    "</td>
      <td>";
    ToString (account_algorithm (account a));
    "</td>
      <td>";
    ToString (account_digits (account a));
    "</td>
      <td><a href=";
    quote;
    otpauthUrl (account a);
    quote;
    " target=";
    quote;
    "_blank";
    quote;
    ">";
    otpauthUrl (account a);
    "</a></td>
      <td><img src=";
    quote;
    qrCodeDataUrl a;
    quote;
    " alt=";
    quote;
    "QR Code";
    quote;
    " width=";
    quote;
    "100";
    quote;
    " height=";
    quote;
    "100";
    quote;
    "></td>
    </tr>"].

(** [generateHtml]. *)
Definition generateHtml (accounts : list AccountQR) : string :=
  let rows := join EmptyString (map row accounts) in
  join EmptyString
   ["
  <!DOCTYPE html>
  <html lang=";
    quote;
    "en";
    quote;
    ">
  <head>
    <meta charset=";
    quote;
    "UTF-8";
    quote;
    ">
    <meta name=";
    quote;
    "viewport";
    quote;
    " content=";
    quote;
    "width=device-width, initial-scale=1.0";
    quote;
    ">
    <title>OTP Accounts</title>
    <style>
      body {
        font-family: Arial, sans-serif;
        margin: 20px;
        background-color: #f5f5f5;
      }
      h1 {
        color: #333;
        text-align: center;
      }
      table {
        width: 100%;
        table-layout: fixed;
        border-collapse: collapse;
        margin-top: 20px;
        background-color: white;
        box-shadow: 0 0 10px rgba(0, 0, 0, 0.1);
      }
      th, td {
        border: 1px solid #ddd;
        padding: 10px;
        text-align: left;
        overflow: hidden;
        text-overflow: ellipsis;
      }
      th {
        background-color: #4CAF50;
        color: white;
        position: sticky;
        top: 0;
      }
      tr:nth-child(even) {
        background-color: #f2f2f2;
      }
      tr:hover {
        background-color: #ddd;
      }
      .summary {
        margin-top: 20px;
        font-weight: bold;
        text-align: center;
      }
      a {
        color: #2196F3;
        text-decoration: none;
        word-break: break-all;
      }
      a:hover {
        text-decoration: underline;
      }
      /* Set specific widths for columns */
      th:nth-child(1), td:nth-child(1) { width: 12%; } /* Name */
      th:nth-child(2), td:nth-child(2) { width: 10%; } /* Issuer */
      th:nth-child(3), td:nth-child(3) { width: 34%; } /* Secret */
      th:nth-child(4), td:nth-child(4) { width: 8%; } /* Type */
      th:nth-child(5), td:nth-child(5) { width: 8%; } /* Algorithm */
      th:nth-child(6), td:nth-child(6) { width: 8%; } /* Digits */
      th:nth-child(7), td:nth-child(7) { width: 15%; } /* OTP Auth URL */
      th:nth-child(8), td:nth-child(8) { width: 5%; } /* QR Code */
    </style>
  </head>
  <body>
    <h1>OTP Accounts</h1>
    <table>
      <thead>
        <tr>
          <th>Name</th>
          <th>Issuer</th>
          <th>Secret</th>
          <th>Type</th>
          <th>Algorithm</th>
          <th>Digits</th>
          <th>OTP Auth URL</th>
          <th>QR Code</th>
        </tr>
      </thead>
      <tbody>
        ";
    rows;
    "
      </tbody>
    </table>
    <div class=";
    quote;
    "summary";
    quote;
    ">Total accounts: ";
    string_of_N (N.of_nat (length accounts));
    "</div>
  </body>
  </html>
  "].

(** What a run does that can be seen from outside: lines on
    [console.log], errors on [console.error] with the text before them,
    and the file written. *)
Inductive effect : Type :=
| ConsoleLog (line : string)
| ConsoleError (label : string) (error : exn)
| FileWritten (path content : string).

Section Run.

(** [qrcode.toDataURL(text, { errorCorrectionLevel: 'M', margin: 2,
    scale: 5 })], awaited: the data URL, or the error the promise is
    rejected with. *)
Variable toDataURL : string -> completion string.

(** [path.join(__dirname, 'otp_accounts.html')]. *)
Variable outputPath : string.

(** [fs.writeFileSync(path, content)]: done, or the error it throws. *)
Variable writeFileSync : string -> string -> completion unit.

(** [generateQRCodes]: one account after the other; the first rejected
    promise ends the loop. *)
Definition generateQRCodes (accounts : list Account) : completion (list AccountQR) :=
  map_completion
    (fun a => url <- toDataURL (otpauthUrl a) ;; Return (mkAccountQR a url))
    accounts.

(** [processAllUrls], the whole function: the effects in the order they
    happen.  [decodeUrl] has logged its errors before anything else is
    done. *)
Definition processAllUrls (migrationUrls : list string) : list effect :=
  let (allAccounts, errors) := processAllUrls migrationUrls in
  (map (ConsoleError "Error decoding migration data:") errors ++
   if (length allAccounts =? 0)%nat then [ConsoleLog "No valid accounts found."]
   else
     match generateQRCodes allAccounts with
     | Throw error => [ConsoleError "Error processing URLs:" error]
     | Return accountsWithQR =>
         let htmlContent := generateHtml accountsWithQR in
         match writeFileSync outputPath htmlContent with
         | Throw error => [ConsoleError "Error processing URLs:" error]
         | Return _ =>
             [ FileWritten outputPath htmlContent;
               ConsoleLog ("HTML file generated: " ++ outputPath);
               ConsoleLog ("Total accounts: " ++
                           string_of_N (N.of_nat (length allAccounts))) ]
         end
     end)%list.

(** The top of the script: [process.argv] without its first two
    elements; with no URL the usage is printed and the process exits
    with code 1. *)
Definition main (argv : list string) : list effect * option N :=
  let migrationUrls := skipn 2 argv in
  if (length migrationUrls =? 0)%nat then
    ([ConsoleLog
        (join EmptyString
           [ "Usage: node generate-html.js "; quote;
             "otpauth-migration://offline?data=..."; quote; " ["; quote;
             "otpauth-migration://offline?data=..."; quote; " ...]" ])],
     Some 1%N)
  else (processAllUrls migrationUrls, None).

End Run.

End Page.

(** A text inside another. *)
Definition contains (needle text : string) : Prop :=
  exists before after, text = before ++ needle ++ after.

(* ================================================================== *)
(** * Part II.  Lemmas and theorems *)
(* ================================================================== *)

(** [lia] is to know that [x / c] and [x mod c] are quotient and
    remainder. *)
Ltac Zify.zify_post_hook ::= Z.to_euclidean_division_equations.

(** ** Strings *)

Lemma append_assoc : forall a b c : string, (a ++ b) ++ c = a ++ (b ++ c).
Proof.
  intros a b c; induction a as [|x a IH]; simpl; [reflexivity|now rewrite IH].
Qed.

Lemma append_nil_r : forall a : string, a ++ EmptyString = a.
Proof.
  induction a as [|x a IH]; simpl; [reflexivity|now rewrite IH].
Qed.

(** The base64 decoder reads ASCII text as it is. *)
Lemma low_bytes_ascii : forall s,
  Url.forall_chars (fun a => (Url.code a <? 128)%N) s = true ->
  Buffer.low_bytes s = s.
Proof.
  unfold Buffer.low_bytes.
  induction s as [|a s IH]; intros H; [reflexivity|].
  cbn [Url.forall_chars] in H. apply andb_true_iff in H as [Ha Hs].
  apply N.ltb_lt in Ha. unfold Url.code in Ha.
  cbn [Utf16.units].
  replace (N_of_ascii a <? 192)%N with true by (symmetry; apply N.ltb_lt; lia).
  cbn [map string_of_list_ascii]. rewrite (IH Hs).
  rewrite N.mod_small by lia. now rewrite ascii_N_embedding.
Qed.

(** ** The transport unwrapper *)

Section Transport.

Lemma replace_all_app : forall c r a b,
  replace_all c r (a ++ b) = replace_all c r a ++ replace_all c r b.
Proof.
  intros c r a b; induction a as [|x a IH]; simpl; [reflexivity|].
  rewrite IH. destruct (Ascii.eqb x c); simpl.
  - symmetry. apply append_assoc.
  - reflexivity.
Qed.

Lemma protocol_check : forall p : option string,
  match p with Some s => String.eqb s "otpauth-migration:" | None => false end = true
  <-> p = Some "otpauth-migration:".
Proof.
  intros [s|]; split; intros H; try discriminate.
  - apply String.eqb_eq in H. now subst.
  - injection H as ->. reflexivity.
Qed.

Lemma host_check : forall h : option string,
  match h with Some s => String.eqb s "offline" | None => false end = true
  <-> h = Some "offline".
Proof.
  intros [s|]; split; intros H; try discriminate.
  - apply String.eqb_eq in H. now subst.
  - injection H as ->. reflexivity.
Qed.

(** What [extractDataFromUrl] does once the URL is parsed. *)
Lemma extractDataFromUrl_parsed : forall migrationUrl parsedUrl,
  Url.parse migrationUrl = Return parsedUrl ->
  Url.protocol parsedUrl = Some "otpauth-migration:" ->
  Url.host parsedUrl = Some "offline" ->
  extractDataFromUrl migrationUrl =
    match Url.query_get (Url.query parsedUrl) "data" with
    | Some (Url.QArray _) => Throw (TypeError "data.replace is not a function")
    | Some (Url.QString data) => Return (Buffer.from_base64 (replace_all " " "+" data))
    | None => Return []
    end.
Proof.
  intros u p Hp Hproto Hhost. unfold extractDataFromUrl.
  rewrite Hp. simpl. rewrite Hproto, Hhost. simpl.
  destruct (Url.query_get (Url.query p) "data") as [[d|ds]|]; reflexivity.
Qed.

(** An input [url.parse] itself rejects: its error is the error of
    [extractDataFromUrl]. *)
Lemma extractDataFromUrl_parser_error : forall migrationUrl error,
  Url.parse migrationUrl = Throw error ->
  extractDataFromUrl migrationUrl = Throw error.
Proof.
  intros u e Hp. unfold extractDataFromUrl. rewrite Hp. reflexivity.
Qed.

(** Whatever the input, [extractDataFromUrl] gives bytes only for the
    scheme [otpauth-migration] and the host [offline]. *)
Lemma extractDataFromUrl_bytes_transport : forall migrationUrl data,
  extractDataFromUrl migrationUrl = Return data ->
  exists parsedUrl,
    Url.parse migrationUrl = Return parsedUrl /\
    Url.protocol parsedUrl = Some "otpauth-migration:" /\
    Url.host parsedUrl = Some "offline".
Proof.
  intros u data H. unfold extractDataFromUrl in H.
  destruct (Url.parse u) as [p|e]; [|discriminate].
  exists p. split; [reflexivity|]. cbn [bind] in H.
  destruct (match Url.protocol p with
            | Some s => String.eqb s "otpauth-migration:" | None => false end) eqn:E1;
    [|discriminate].
  destruct (match Url.host p with
            | Some s => String.eqb s "offline" | None => false end) eqn:E2;
    [|discriminate].
  split; [now apply protocol_check|now apply host_check].
Qed.

End Transport.

(** C10.  A URL with the right scheme and host and no [data] parameter is
    not rejected by the transport unwrapper: the missing value counts as
    the empty string and the result is the empty buffer.  Decoding goes
    on, and the URL contributes no record ([payload.otpParameters] is
    [undefined] for an empty payload, which the [catch] block turns into
    the empty array). *)
Theorem extractDataFromUrl_without_data :
  forall (migrationUrl : string) (parsedUrl : Url.t),
    Url.parse migrationUrl = Return parsedUrl ->
    Url.protocol parsedUrl = Some "otpauth-migration:" ->
    Url.host parsedUrl = Some "offline" ->
    Url.query_get (Url.query parsedUrl) "data" = None ->
    extractDataFromUrl migrationUrl = Return [] /\
    decodeUrl migrationUrl =
      ([], [TypeError "Cannot read properties of undefined (reading 'map')"]).
Proof.
  intros u p Hp Hproto Hhost Hdata.
  assert (E : extractDataFromUrl u = Return []).
  { rewrite (extractDataFromUrl_parsed u p Hp Hproto Hhost), Hdata. reflexivity. }
  split; [exact E|].
  unfold decodeUrl, decodeUrl_try. rewrite E. reflexivity.
Qed.

Lemma extractDataFromUrl_without_data_witness :
  Url.parse "otpauth-migration://offline?version=1" =
    Return (Url.mk (Some "otpauth-migration:") (Some "offline")
                   [("version", Url.QString "1")]) /\
  extractDataFromUrl "otpauth-migration://offline?version=1" = Return [] /\
  decodeUrl "otpauth-migration://offline?version=1" =
    ([], [TypeError "Cannot read properties of undefined (reading 'map')"]).
Proof.
  split; [reflexivity|].
  apply (extractDataFromUrl_without_data
           "otpauth-migration://offline?version=1"
           (Url.mk (Some "otpauth-migration:") (Some "offline")
                   [("version", Url.QString "1")]));
    reflexivity.
Defined.

(** C9.  Every space of the [data] value is replaced by [+] before the
    base64 decoding, so two URLs that differ only in that one has a space
    in the value where the other has [+] give the same bytes. *)
Theorem extractDataFromUrl_space_as_plus :
  forall (url1 url2 : string) (parsed1 parsed2 : Url.t) (before after : string),
    Url.parse url1 = Return parsed1 ->
    Url.parse url2 = Return parsed2 ->
    Url.protocol parsed1 = Some "otpauth-migration:" ->
    Url.protocol parsed2 = Some "otpauth-migration:" ->
    Url.host parsed1 = Some "offline" ->
    Url.host parsed2 = Some "offline" ->
    Url.query_get (Url.query parsed1) "data" = Some (Url.QString (before ++ " " ++ after)) ->
    Url.query_get (Url.query parsed2) "data" = Some (Url.QString (before ++ "+" ++ after)) ->
    extractDataFromUrl url1 =
      Return (Buffer.from_base64 (replace_all " " "+" (before ++ " " ++ after))) /\
    extractDataFromUrl url1 = extractDataFromUrl url2.
Proof.
  intros u1 u2 p1 p2 a b Hp1 Hp2 Hs1 Hs2 Hh1 Hh2 Hd1 Hd2.
  rewrite (extractDataFromUrl_parsed u1 p1 Hp1 Hs1 Hh1), Hd1.
  rewrite (extractDataFromUrl_parsed u2 p2 Hp2 Hs2 Hh2), Hd2.
  split; [reflexivity|].
  do 2 f_equal.
  rewrite !replace_all_app. reflexivity.
Qed.

Lemma extractDataFromUrl_space_as_plus_witness :
  Url.parse "otpauth-migration://offline?data=Cg /KBUhl" =
    Return (Url.mk (Some "otpauth-migration:") (Some "offline")
                   [("data", Url.QString ("Cg" ++ " " ++ "/KBUhl"))]) /\
  Url.parse "otpauth-migration://offline?data=Cg%2B/KBUhl" =
    Return (Url.mk (Some "otpauth-migration:") (Some "offline")
                   [("data", Url.QString ("Cg" ++ "+" ++ "/KBUhl"))]) /\
  extractDataFromUrl "otpauth-migration://offline?data=Cg /KBUhl" =
    Return (Buffer.from_base64 (replace_all " " "+" ("Cg" ++ " " ++ "/KBUhl"))) /\
  extractDataFromUrl "otpauth-migration://offline?data=Cg /KBUhl" =
    extractDataFromUrl "otpauth-migration://offline?data=Cg%2B/KBUhl".
Proof.
  split; [reflexivity|]. split; [reflexivity|].
  apply (extractDataFromUrl_space_as_plus
           "otpauth-migration://offline?data=Cg /KBUhl"
           "otpauth-migration://offline?data=Cg%2B/KBUhl"
           (Url.mk (Some "otpauth-migration:") (Some "offline")
                   [("data", Url.QString ("Cg" ++ " " ++ "/KBUhl"))])
           (Url.mk (Some "otpauth-migration:") (Some "offline")
                   [("data", Url.QString ("Cg" ++ "+" ++ "/KBUhl"))])
           "Cg" "/KBUhl");
    reflexivity.
Defined.

(** ** Lenient base64 *)

(** C4, as stated, fails: this URL has the right scheme and host, its
    [data] value is not well-formed base64 (two characters outside the
    alphabet, 22 characters in all), and the unwrapper returns sixteen
    bytes, the payload of a record with secret [Hello] and name
    [alice]. *)
Lemma extractDataFromUrl_malformed_base64_accepted :
  Url.parse "otpauth-migration://offline?data=Cg4K*BUhlbGxv$EgVhbGljZQ" =
    Return (Url.mk (Some "otpauth-migration:") (Some "offline")
                   [("data", Url.QString "Cg4K*BUhlbGxv$EgVhbGljZQ")]) /\
  RFC4648.well_formed_base64 (replace_all " " "+" "Cg4K*BUhlbGxv$EgVhbGljZQ") = false /\
  extractDataFromUrl "otpauth-migration://offline?data=Cg4K*BUhlbGxv$EgVhbGljZQ" =
    Return (Wire.encode_payload
              [Wire.mkRecord (list_byte_of_string "Hello") (Some "alice")
                             None None None None None]
              (Wire.mkTrailer None None None None)) /\
  is_throw (extractDataFromUrl "otpauth-migration://offline?data=Cg4K*BUhlbGxv$EgVhbGljZQ")
    = false.
Proof. repeat split; vm_compute; reflexivity. Qed.

(** ** Batches *)

Lemma processAllUrls_app : forall us vs,
  processAllUrls (us ++ vs) =
    ((fst (processAllUrls us) ++ fst (processAllUrls vs))%list,
     (snd (processAllUrls us) ++ snd (processAllUrls vs))%list).
Proof.
  intros us vs. unfold processAllUrls. simpl.
  now rewrite !map_app, !concat_app.
Qed.

Lemma processAllUrls_cons : forall u us,
  processAllUrls (u :: us) =
    ((fst (decodeUrl u) ++ fst (processAllUrls us))%list,
     (snd (decodeUrl u) ++ snd (processAllUrls us))%list).
Proof. reflexivity. Qed.

(** C8.  An error raised while one URL is unwrapped or decoded is caught
    in [decodeUrl]: that URL gives no record and one logged error, and the
    records of the URLs before and after it are all there.  In
    particular a wrong-scheme URL followed by a valid URL with two
    accounts gives two records and one logged failure. *)
Theorem processAllUrls_isolates_failures :
  (forall (before after : list string) (url : string) (error : exn),
     decodeUrl_try url = Throw error ->
     processAllUrls (before ++ url :: after) =
       ((fst (processAllUrls before) ++ fst (processAllUrls after))%list,
        (snd (processAllUrls before) ++ error :: snd (processAllUrls after))%list)) /\
  (let result :=
     processAllUrls
       [ "https://offline?data=Ch0KBUhlbGxvEgVhbGljZRoHRXhhbXBsZSACKAIwAgoSCgMAAQISA2JvYiABKAEwATgFEAEYASAAKLlg";
         "otpauth-migration://offline?data=Ch0KBUhlbGxvEgVhbGljZRoHRXhhbXBsZSACKAIwAgoSCgMAAQISA2JvYiABKAEwATgFEAEYASAAKLlg" ] in
   map otpauthUrl (fst result) =
     [ "otpauth://totp/alice?secret=JBSWY3DP&issuer=Example&algorithm=SHA256&digits=8&period=30";
       "otpauth://hotp/bob?secret=AAAQE&algorithm=SHA1&digits=6&counter=5" ] /\
   snd result = [Error "Invalid Google Authenticator migration URL"]).
Proof.
  split.
  - intros before after url error H.
    rewrite processAllUrls_app, processAllUrls_cons.
    unfold decodeUrl. rewrite H. reflexivity.
  - vm_compute. split; reflexivity.
Qed.

Lemma processAllUrls_isolates_failures_witness :
  decodeUrl_try "otpauth-migration://offline?data=CgcKBUhl" =
    Throw (RangeError "index out of range: 4 + 5 > 6") /\
  processAllUrls
    (["otpauth-migration://offline?data=Cg4KBUhlbGxvEgVhbGljZQ"] ++
     "otpauth-migration://offline?data=CgcKBUhl" ::
     ["otpauth-migration://offline?data=ChYKBUhlbGxvEgVhbGljZSABKAEwATgA"]) =
    ((fst (processAllUrls ["otpauth-migration://offline?data=Cg4KBUhlbGxvEgVhbGljZQ"]) ++
      fst (processAllUrls
             ["otpauth-migration://offline?data=ChYKBUhlbGxvEgVhbGljZSABKAEwATgA"]))%list,
     (snd (processAllUrls ["otpauth-migration://offline?data=Cg4KBUhlbGxvEgVhbGljZQ"]) ++
      RangeError "index out of range: 4 + 5 > 6" ::
      snd (processAllUrls
             ["otpauth-migration://offline?data=ChYKBUhlbGxvEgVhbGljZSABKAEwATgA"]))%list).
Proof.
  split; [vm_compute; reflexivity|].
  apply (proj1 processAllUrls_isolates_failures
           ["otpauth-migration://offline?data=Cg4KBUhlbGxvEgVhbGljZQ"]
           ["otpauth-migration://offline?data=ChYKBUhlbGxvEgVhbGljZSABKAEwATgA"]
           "otpauth-migration://offline?data=CgcKBUhl"
           (RangeError "index out of range: 4 + 5 > 6")).
  vm_compute; reflexivity.
Defined.

(** ** The concrete scenario *)

(** C6.  The payload with the one record secret [48 65 6c 6c 6f], name
    [alice], issuer [Example], SHA256, EIGHT, TOTP, in base64 in a
    migration URL, decodes to exactly one record, with the canonical URI
    and the hexadecimal secret of the specification. *)
Theorem decodeUrl_concrete_scenario :
  "otpauth-migration://offline?data=Ch0KBUhlbGxvEgVhbGljZRoHRXhhbXBsZSACKAIwAg==" =
    "otpauth-migration://offline?data=" ++
    RFC4648.base64
      (Wire.encode_payload
         [Wire.mkRecord [x48; x65; x6c; x6c; x6f] (Some "alice") (Some "Example")
                        (Some 2%N) (Some 2%N) (Some 2%N) None]
         (Wire.mkTrailer None None None None)) /\
  decodeUrl "otpauth-migration://offline?data=Ch0KBUhlbGxvEgVhbGljZRoHRXhhbXBsZSACKAIwAg==" =
    ([ mkAccount (VString "alice") (VString "Example") "48656c6c6f"
         (VString "OTP_TYPE_TOTP") (VString "ALGORITHM_SHA256")
         (VString "DIGIT_COUNT_EIGHT")
         "otpauth://totp/alice?secret=JBSWY3DP&issuer=Example&algorithm=SHA256&digits=8&period=30" ],
     []).
Proof. split; vm_compute; reflexivity. Qed.

(** ** Defaults *)

(** C5, on the wire.  A record whose algorithm, digits and type fields are
    left off the wire comes out of [toObject] without these properties
    (the call passes no [defaults] option), the three lookups give
    [undefined], and the URI has neither SHA1, 6, totp nor a period.  When
    the three zero values are written on the wire the tables do resolve
    them: SHA1, 6, totp, [period=30] and no counter. *)
Theorem decodeUrl_fields_off_the_wire :
  "otpauth-migration://offline?data=Cg4KBUhlbGxvEgVhbGljZQ==" =
    "otpauth-migration://offline?data=" ++
    RFC4648.base64
      (Wire.encode_payload
         [Wire.mkRecord [x48; x65; x6c; x6c; x6f] (Some "alice") None None None None None]
         (Wire.mkTrailer None None None None)) /\
  map otpauthUrl
    (fst (decodeUrl "otpauth-migration://offline?data=Cg4KBUhlbGxvEgVhbGljZQ==")) =
    ["otpauth://undefined/alice?secret=JBSWY3DP&algorithm=undefined&digits=undefined"] /\
  "otpauth-migration://offline?data=ChQKBUhlbGxvEgVhbGljZSAAKAAwAA==" =
    "otpauth-migration://offline?data=" ++
    RFC4648.base64
      (Wire.encode_payload
         [Wire.mkRecord [x48; x65; x6c; x6c; x6f] (Some "alice") None
                        (Some 0%N) (Some 0%N) (Some 0%N) None]
         (Wire.mkTrailer None None None None)) /\
  map otpauthUrl
    (fst (decodeUrl "otpauth-migration://offline?data=ChQKBUhlbGxvEgVhbGljZSAAKAAwAA==")) =
    ["otpauth://totp/alice?secret=JBSWY3DP&algorithm=SHA1&digits=6&period=30"].
Proof. repeat split; vm_compute; reflexivity. Qed.

(** ** The lookup tables *)

Lemma lookup_key_values : forall (t : table) (k s : string),
  lookup_key t k = VString s -> In s (map snd t).
Proof.
  induction t as [|[k' v] t IH]; intros k s H; simpl in *; [discriminate|].
  destruct (String.eqb k k').
  - injection H as ->. now left.
  - right. eapply IH; eauto.
Qed.

(** ** The shape of a reconstructed URI *)

Lemma forall_chars_app : forall p a b,
  Url.forall_chars p (a ++ b) = Url.forall_chars p a && Url.forall_chars p b.
Proof.
  intros p a b; induction a as [|x a IH]; simpl; [reflexivity|].
  rewrite IH. now rewrite andb_assoc.
Qed.

Lemma forall_chars_impl : forall (p q : ascii -> bool) s,
  (forall a, p a = true -> q a = true) ->
  Url.forall_chars p s = true -> Url.forall_chars q s = true.
Proof.
  intros p q s Hpq; induction s as [|x s IH]; simpl; [reflexivity|].
  intros H. apply andb_true_iff in H as [H1 H2].
  now rewrite (Hpq _ H1), (IH H2).
Qed.

Lemma span_app_sep : forall p pre c rest,
  Url.forall_chars p pre = true -> p c = false ->
  Url.span p (pre ++ String c rest) = (pre, String c rest).
Proof.
  intros p pre c rest; induction pre as [|x pre IH]; simpl; intros Hpre Hc.
  - now rewrite Hc.
  - apply andb_true_iff in Hpre as [Hx Hpre]. rewrite Hx, (IH Hpre Hc). reflexivity.
Qed.

Lemma span_all : forall p s,
  Url.forall_chars p s = true -> Url.span p s = (s, EmptyString).
Proof.
  intros p s; induction s as [|x s IH]; simpl; [reflexivity|].
  intros H. apply andb_true_iff in H as [Hx Hs]. now rewrite Hx, (IH Hs).
Qed.

Lemma split_no_sep : forall c s,
  Url.forall_chars (fun a => negb (Ascii.eqb a c)) s = true -> Url.split c s = [s].
Proof.
  intros c s; induction s as [|x s IH]; simpl; [reflexivity|].
  intros H. apply andb_true_iff in H as [Hx Hs].
  apply negb_true_iff in Hx. rewrite Hx, (IH Hs). reflexivity.
Qed.

Lemma split_app_sep : forall c s rest,
  Url.forall_chars (fun a => negb (Ascii.eqb a c)) s = true ->
  Url.split c (s ++ String c rest) = s :: Url.split c rest.
Proof.
  intros c s rest; induction s as [|x s IH]; simpl; intros H.
  - now rewrite Ascii.eqb_refl.
  - apply andb_true_iff in H as [Hx Hs]. apply negb_true_iff in Hx.
    rewrite Hx, (IH Hs). reflexivity.
Qed.

(** Cutting a joined array at the separator gives the array back when no
    element holds the separator. *)
Lemma split_join : forall (parts : list string),
  parts <> [] ->
  Forall (fun s => no_amp s = true) parts ->
  Url.split "&" (join "&" parts) = parts.
Proof.
  induction parts as [|p ps IH]; intros Hne Hall; [congruence|].
  inversion Hall as [|? ? Hp Hps]; subst.
  destruct ps as [|p' ps].
  - simpl. apply split_no_sep, Hp.
  - change (join "&" (p :: p' :: ps)) with (p ++ String "&" (join "&" (p' :: ps))).
    rewrite split_app_sep by apply Hp.
    rewrite IH; [reflexivity|discriminate|exact Hps].
Qed.

Lemma quiet_no_amp : forall s, all_quiet s = true -> no_amp s = true.
Proof.
  intros s. apply forall_chars_impl. intros a. unfold quiet. simpl.
  destruct (Ascii.eqb a "?"), (Ascii.eqb a "&"); simpl; congruence.
Qed.

Lemma no_amp_key_value : forall key value,
  no_amp key = true -> all_quiet value = true -> no_amp (key ++ value) = true.
Proof.
  intros key value Hk Hv. unfold no_amp in *.
  rewrite forall_chars_app, Hk. apply quiet_no_amp, Hv.
Qed.

(** One [key=value] piece is cut at its first [=]. *)
Lemma span_key_value : forall key value,
  all_quiet key = true ->
  (let (k, v) := Url.span (fun a => negb (Url.is_char "=" a)) (key ++ "=" ++ value) in
   (k, Url.drop 1 v)) = (key, value).
Proof.
  intros key value Hk.
  change (key ++ "=" ++ value) with (key ++ String "=" value).
  rewrite span_app_sep; [reflexivity| |reflexivity].
  revert Hk. apply forall_chars_impl. intros a. unfold quiet, Url.is_char. simpl.
  destruct (Ascii.eqb a "?"), (Ascii.eqb a "&"), (Ascii.eqb a "="); simpl; congruence.
Qed.

(** *** Every piece of the URI is quiet *)

Lemma unreserved_quiet : forall a, Uri.unreserved a = true -> quiet a = true.
Proof.
  intros [b0 b1 b2 b3 b4 b5 b6 b7];
    destruct b0, b1, b2, b3, b4, b5, b6, b7; vm_compute; congruence.
Qed.

Lemma percent_quiet : forall a, all_quiet (Uri.percent a) = true.
Proof.
  intros [b0 b1 b2 b3 b4 b5 b6 b7];
    destruct b0, b1, b2, b3, b4, b5, b6, b7; vm_compute; reflexivity.
Qed.

Lemma escape_quiet : forall s, all_quiet (Uri.escape s) = true.
Proof.
  unfold all_quiet. induction s as [|a s IH]; [reflexivity|].
  change (Uri.escape (String a s))
    with (if Uri.unreserved a then String a (Uri.escape s)
          else Uri.percent a ++ Uri.escape s).
  destruct (Uri.unreserved a) eqn:E.
  - simpl. now rewrite (unreserved_quiet _ E), IH.
  - rewrite forall_chars_app, IH, andb_true_r. apply percent_quiet.
Qed.

Lemma get_any_char : forall s n c, String.get n s = Some c -> Url.any_char s c = true.
Proof.
  induction s as [|x s IH]; intros n c; simpl; [discriminate|].
  destruct n as [|n].
  - intros H; injection H as ->. now rewrite Ascii.eqb_refl.
  - intros H. rewrite (IH _ _ H). apply orb_true_r.
Qed.

Lemma alphabet_quiet : forall c,
  Url.any_char Base32.BASE32_ENCODE_CHAR c = true -> quiet c = true.
Proof.
  intros [b0 b1 b2 b3 b4 b5 b6 b7];
    destruct b0, b1, b2, b3, b4, b5, b6, b7; vm_compute; congruence.
Qed.

Lemma chr_quiet_or_pad : forall n, quiet_or_pad (Base32.chr n) = true.
Proof.
  intros n. unfold Base32.chr, quiet_or_pad.
  destruct (String.get (N.to_nat n) Base32.BASE32_ENCODE_CHAR) as [c|] eqn:E.
  - apply get_any_char in E. now rewrite (alphabet_quiet _ E).
  - reflexivity.
Qed.

Lemma list_ind5 : forall (A : Type) (P : list A -> Prop),
  P [] ->
  (forall a, P [a]) ->
  (forall a b, P [a; b]) ->
  (forall a b c, P [a; b; c]) ->
  (forall a b c d, P [a; b; c; d]) ->
  (forall a b c d e rest, P rest -> P (a :: b :: c :: d :: e :: rest)) ->
  forall l, P l.
Proof.
  intros A P H0 H1 H2 H3 H4 H5.
  fix IH 1. intros l.
  destruct l as [|a [|b [|c [|d [|e rest]]]]].
  - exact H0.
  - apply H1.
  - apply H2.
  - apply H3.
  - apply H4.
  - apply H5, IH.
Qed.

Lemma encodeBytes_chars : forall bytes,
  Url.forall_chars quiet_or_pad (Base32.encodeBytes bytes) = true.
Proof.
  induction bytes using list_ind5;
    cbn [Base32.encodeBytes Base32.str fold_right Url.forall_chars];
    rewrite ?chr_quiet_or_pad; try reflexivity.
  exact IHbytes.
Qed.

Lemma replace_pad_quiet : forall s,
  Url.forall_chars quiet_or_pad s = true ->
  all_quiet (replace_all "=" "" s) = true.
Proof.
  unfold all_quiet. induction s as [|a s IH]; simpl; [reflexivity|].
  intros H. apply andb_true_iff in H as [Ha Hs].
  destruct (Ascii.eqb a "=") eqn:E; simpl.
  - apply IH, Hs.
  - unfold quiet_or_pad in Ha. rewrite E, orb_false_r in Ha.
    now rewrite Ha, (IH Hs).
Qed.

Lemma secretToBase32_buffer : forall b,
  secretToBase32 (VBuffer b) = Return (replace_all "=" "" (Base32.encodeBytes b)).
Proof. reflexivity. Qed.

Lemma string_of_uint_quiet : forall d, all_quiet (NilEmpty.string_of_uint d) = true.
Proof. induction d; simpl; try reflexivity; exact IHd. Qed.

Lemma string_of_N_quiet : forall n, all_quiet (string_of_N n) = true.
Proof.
  intros n. unfold string_of_N, NilZero.string_of_uint.
  destruct (N.to_uint n); try reflexivity; apply string_of_uint_quiet.
Qed.

Lemma lookup_key_cases : forall (t : table) (k : string),
  lookup_key t k = VUndefined \/
  exists s, In s (map snd t) /\ lookup_key t k = VString s.
Proof.
  intros t k. destruct (lookup_key t k) as [|n|s|b] eqn:E.
  - now left.
  - exfalso. induction t as [|[k' v] t IH]; simpl in E; [discriminate|].
    destruct (String.eqb k k'); [discriminate|auto].
  - right. exists s. split; [eapply lookup_key_values; eauto|reflexivity].
  - exfalso. induction t as [|[k' v] t IH]; simpl in E; [discriminate|].
    destruct (String.eqb k k'); [discriminate|auto].
Qed.

Lemma lookup_quiet : forall (t : table) (v : value),
  Forall (fun s => all_quiet s = true) (map snd t) ->
  all_quiet (ToString (lookup t v)) = true.
Proof.
  intros t v Ht. unfold lookup.
  destruct (lookup_key_cases t (ToString v)) as [E|[s [Hin E]]]; rewrite E.
  - reflexivity.
  - simpl. rewrite Forall_forall in Ht. apply Ht, Hin.
Qed.

Lemma tables_quiet :
  Forall (fun s => all_quiet s = true) (map snd otpTypes) /\
  Forall (fun s => all_quiet s = true) (map snd algorithmNames) /\
  Forall (fun s => all_quiet s = true) (map snd digitCounts).
Proof. repeat split; repeat constructor. Qed.

(** *** From [createOtpauthUrl] back to its parameters *)

Lemma secretToBase32_quiet : forall v b32,
  secretToBase32 v = Return b32 -> all_quiet b32 = true.
Proof.
  intros v b32 H. unfold secretToBase32 in H.
  destruct v as [|n|s|b]; simpl in H; try discriminate;
    injection H as <-; try reflexivity;
    apply replace_pad_quiet, encodeBytes_chars.
Qed.

Lemma ToString_lookup_otpTypes_quiet : forall v,
  all_quiet (ToString (lookup otpTypes v)) = true.
Proof. intros v. apply lookup_quiet, tables_quiet. Qed.

Lemma ToString_lookup_algorithmNames_quiet : forall v,
  all_quiet (ToString (lookup algorithmNames v)) = true.
Proof. intros v. apply lookup_quiet, tables_quiet. Qed.

Lemma ToString_lookup_digitCounts_quiet : forall v,
  all_quiet (ToString (lookup digitCounts v)) = true.
Proof. intros v. apply lookup_quiet, tables_quiet. Qed.

Lemma all_quiet_app : forall a b,
  all_quiet a = true -> all_quiet b = true -> all_quiet (a ++ b) = true.
Proof.
  intros a b Ha Hb. unfold all_quiet in *. now rewrite forall_chars_app, Ha, Hb.
Qed.

(** A pushed element [key=value] is cut back into key and value. *)
Lemma pair_of_piece : forall key value,
  all_quiet key = true ->
  (let (k, v) := Url.span (fun a => negb (Url.is_char "=" a))
                          (key ++ String "=" value) in
   (k, Url.drop 1 v)) = (key, value).
Proof. intros key value Hk. exact (span_key_value key value Hk). Qed.

(** The query of the URI is the joined array. *)
Lemma query_string_of_uri : forall otpType path q,
  all_quiet otpType = true -> all_quiet path = true ->
  query_string (uri_text otpType path q) = q.
Proof.
  intros t path q Ht Hp. unfold query_string, uri_text.
  assert (E : ("otpauth://" ++ t ++ "/" ++ path ++ "?") ++ q
              = ("otpauth://" ++ t ++ "/" ++ path) ++ String "?" q).
  { change ("otpauth://" ++ t ++ "/" ++ path ++ "?")
      with ("otpauth://" ++ (t ++ ("/" ++ (path ++ "?")))).
    change ("otpauth://" ++ t ++ "/" ++ path)
      with ("otpauth://" ++ (t ++ ("/" ++ path))).
    rewrite !append_assoc. reflexivity. }
  rewrite E.
  rewrite span_app_sep; [reflexivity| |reflexivity].
  assert (H : all_quiet ("otpauth://" ++ t ++ "/" ++ path) = true).
  { apply (all_quiet_app "otpauth://"); [reflexivity|].
    apply all_quiet_app; [exact Ht|].
    apply (all_quiet_app "/"); [reflexivity|exact Hp]. }
  revert H. apply forall_chars_impl. intros a. unfold quiet, Url.is_char. simpl.
  destruct (Ascii.eqb a "?"); simpl; congruence.
Qed.

(** The array [queryParams] holds the texts of the expected
    parameters. *)
Lemma queryParams_expected : forall params,
  queryParams params =
    match secretToBase32 (secret params) with
    | Return b32 => Return (map glue (expected_query params b32))
    | Throw e => Throw e
    end.
Proof.
  intros params. unfold queryParams, expected_query, bind.
  destruct (secretToBase32 (secret params)) as [b32|e]; [|reflexivity].
  destruct (truthy (issuer params));
    destruct (strict_eq_string (lookup otpTypes (type params)) "hotp" &&
              truthy (counter params));
    destruct (strict_eq_string (lookup otpTypes (type params)) "totp");
    reflexivity.
Qed.

Lemma cut_glue : forall parameters,
  Forall (fun kv => all_quiet (fst kv) = true) parameters ->
  map cut (map glue parameters) = parameters.
Proof.
  induction parameters as [|[k v] ps IH]; intros H; [reflexivity|].
  inversion H as [|? ? Hk Hps]; subst. simpl in Hk.
  cbn [map]. rewrite (IH Hps). f_equal.
  unfold cut, glue. cbn [fst snd]. apply pair_of_piece, Hk.
Qed.

Lemma glue_no_amp : forall parameters,
  Forall (fun kv => all_quiet (fst kv) = true /\ all_quiet (snd kv) = true) parameters ->
  Forall (fun s => no_amp s = true) (map glue parameters).
Proof.
  induction parameters as [|[k v] ps IH]; intros H; [constructor|].
  inversion H as [|? ? [Hk Hv] Hps]; subst. cbn [fst snd] in *.
  cbn [map]. constructor; [|apply IH, Hps].
  unfold glue. cbn [fst snd]. apply quiet_no_amp in Hk, Hv.
  unfold no_amp in *. rewrite forall_chars_app, Hk. simpl. exact Hv.
Qed.

Lemma expected_query_quiet : forall params b32,
  all_quiet b32 = true ->
  all_quiet (ToString (counter params)) = true ->
  Forall (fun kv => all_quiet (fst kv) = true /\ all_quiet (snd kv) = true)
         (expected_query params b32).
Proof.
  intros params b32 Hb Hc.
  pose proof (ToString_lookup_algorithmNames_quiet (algorithm params)) as Ha.
  pose proof (ToString_lookup_digitCounts_quiet (digits params)) as Hd.
  pose proof (escape_quiet (ToString (issuer params))) as Hi.
  unfold expected_query, Uri.encodeURIComponent.
  destruct (truthy (issuer params));
    destruct (strict_eq_string (lookup otpTypes (type params)) "hotp" &&
              truthy (counter params));
    destruct (strict_eq_string (lookup otpTypes (type params)) "totp");
    cbn [app]; repeat constructor; assumption.
Qed.

Lemma expected_query_nonempty : forall params b32, expected_query params b32 <> [].
Proof. intros params b32. unfold expected_query. simpl. discriminate. Qed.

Lemma Return_inj : forall (A : Type) (a b : A), Return a = Return b -> a = b.
Proof. intros A a b H. congruence. Qed.

Lemma createOtpauthUrl_expected : forall params,
  createOtpauthUrl params =
    match secretToBase32 (secret params) with
    | Return b32 =>
        Return (uri_text (ToString (lookup otpTypes (type params)))
                         (Uri.encodeURIComponent (name params))
                         (join "&" (map glue (expected_query params b32))))
    | Throw e => Throw e
    end.
Proof.
  intros params. unfold createOtpauthUrl. rewrite queryParams_expected.
  destruct (secretToBase32 (secret params)); reflexivity.
Qed.

(** The parameters of the URI [createOtpauthUrl] returns, read back from
    the URI, are those of [expected_query]: in that order, under those
    conditions, with those values. *)
Lemma createOtpauthUrl_query_pairs : forall (params : Params) (uri : string),
  all_quiet (ToString (counter params)) = true ->
  createOtpauthUrl params = Return uri ->
  exists b32,
    secretToBase32 (secret params) = Return b32 /\
    query_pairs uri = expected_query params b32.
Proof.
  intros params uri Hc H.
  rewrite createOtpauthUrl_expected in H.
  destruct (secretToBase32 (secret params)) as [b32|e] eqn:E; [|discriminate].
  apply Return_inj in H. subst uri. exists b32. split; [reflexivity|].
  pose proof (secretToBase32_quiet _ _ E) as Hb.
  pose proof (expected_query_quiet params b32 Hb Hc) as Hq.
  unfold query_pairs.
  rewrite query_string_of_uri.
  - rewrite split_join.
    + apply cut_glue. revert Hq. apply Forall_impl. intros kv [Hk _]. exact Hk.
    + intros Hnil. apply map_eq_nil in Hnil.
      exact (expected_query_nonempty params b32 Hnil).
    + apply glue_no_amp, Hq.
  - apply ToString_lookup_otpTypes_quiet.
  - apply escape_quiet.
Qed.

(** ** Base32: hi-base32 against RFC 4648 *)

(** *** Checking a property on every byte *)

Lemma all_bytes_complete : forall b : byte, In b all_bytes.
Proof.
  intros b.
  assert (H : existsb (Byte.eqb b) all_bytes = true) by (destruct b; reflexivity).
  apply existsb_exists in H as [x [Hin Hx]].
  apply Byte.byte_dec_bl in Hx. now subst.
Qed.

Lemma forall_byte : forall P : byte -> bool,
  forallb P all_bytes = true -> forall a, P a = true.
Proof.
  intros P H a. rewrite forallb_forall in H. apply H, all_bytes_complete.
Qed.

Lemma forall_bytes2 : forall P : byte -> byte -> bool,
  forallb (fun a => forallb (P a) all_bytes) all_bytes = true ->
  forall a b, P a b = true.
Proof.
  intros P H a b.
  apply (forall_byte (P a)). exact (forall_byte _ H a).
Qed.

(** *** The eight characters of a group, bit by bit *)

Lemma quintet_1 : forall b1,
  N.shiftr (Byte.to_N b1) 3 = RFC4648.N_of_bits [bit b1 7; bit b1 6; bit b1 5; bit b1 4; bit b1 3].
Proof.
  intros b1. apply N.eqb_eq. revert b1.
  apply forall_byte. vm_compute. reflexivity.
Qed.

Lemma quintet_2 : forall b1 b2,
  N.land (N.lor (N.shiftl (Byte.to_N b1) 2) (N.shiftr (Byte.to_N b2) 6)) 31 =
  RFC4648.N_of_bits [bit b1 2; bit b1 1; bit b1 0; bit b2 7; bit b2 6].
Proof.
  intros b1 b2. apply N.eqb_eq. revert b1 b2.
  apply forall_bytes2. vm_compute. reflexivity.
Qed.

Lemma quintet_3 : forall b2,
  N.land (N.shiftr (Byte.to_N b2) 1) 31 =
  RFC4648.N_of_bits [bit b2 5; bit b2 4; bit b2 3; bit b2 2; bit b2 1].
Proof.
  intros b. apply N.eqb_eq. revert b.
  apply forall_byte. vm_compute. reflexivity.
Qed.

Lemma quintet_4 : forall b2 b3,
  N.land (N.lor (N.shiftl (Byte.to_N b2) 4) (N.shiftr (Byte.to_N b3) 4)) 31 =
  RFC4648.N_of_bits [bit b2 0; bit b3 7; bit b3 6; bit b3 5; bit b3 4].
Proof.
  intros b2 b3. apply N.eqb_eq. revert b2 b3.
  apply forall_bytes2. vm_compute. reflexivity.
Qed.

Lemma quintet_5 : forall b3 b4,
  N.land (N.lor (N.shiftl (Byte.to_N b3) 1) (N.shiftr (Byte.to_N b4) 7)) 31 =
  RFC4648.N_of_bits [bit b3 3; bit b3 2; bit b3 1; bit b3 0; bit b4 7].
Proof.
  intros b3 b4. apply N.eqb_eq. revert b3 b4.
  apply forall_bytes2. vm_compute. reflexivity.
Qed.

Lemma quintet_6 : forall b4,
  N.land (N.shiftr (Byte.to_N b4) 2) 31 =
  RFC4648.N_of_bits [bit b4 6; bit b4 5; bit b4 4; bit b4 3; bit b4 2].
Proof.
  intros b. apply N.eqb_eq. revert b.
  apply forall_byte. vm_compute. reflexivity.
Qed.

Lemma quintet_7 : forall b4 b5,
  N.land (N.lor (N.shiftl (Byte.to_N b4) 3) (N.shiftr (Byte.to_N b5) 5)) 31 =
  RFC4648.N_of_bits [bit b4 1; bit b4 0; bit b5 7; bit b5 6; bit b5 5].
Proof.
  intros b4 b5. apply N.eqb_eq. revert b4 b5.
  apply forall_bytes2. vm_compute. reflexivity.
Qed.

Lemma quintet_8 : forall b5,
  N.land (Byte.to_N b5) 31 =
  RFC4648.N_of_bits [bit b5 4; bit b5 3; bit b5 2; bit b5 1; bit b5 0].
Proof.
  intros b. apply N.eqb_eq. revert b.
  apply forall_byte. vm_compute. reflexivity.
Qed.

(** The last character of an incomplete group: zero bits on the right. *)
Lemma quintet_2_last : forall b1,
  N.land (N.shiftl (Byte.to_N b1) 2) 31 =
  RFC4648.N_of_bits [bit b1 2; bit b1 1; bit b1 0; false; false].
Proof.
  intros b. apply N.eqb_eq. revert b.
  apply forall_byte. vm_compute. reflexivity.
Qed.

Lemma quintet_4_last : forall b2,
  N.land (N.shiftl (Byte.to_N b2) 4) 31 =
  RFC4648.N_of_bits [bit b2 0; false; false; false; false].
Proof.
  intros b. apply N.eqb_eq. revert b.
  apply forall_byte. vm_compute. reflexivity.
Qed.

Lemma quintet_5_last : forall b3,
  N.land (N.shiftl (Byte.to_N b3) 1) 31 =
  RFC4648.N_of_bits [bit b3 3; bit b3 2; bit b3 1; bit b3 0; false].
Proof.
  intros b. apply N.eqb_eq. revert b.
  apply forall_byte. vm_compute. reflexivity.
Qed.

Lemma quintet_7_last : forall b4,
  N.land (N.shiftl (Byte.to_N b4) 3) 31 =
  RFC4648.N_of_bits [bit b4 1; bit b4 0; false; false; false].
Proof.
  intros b. apply N.eqb_eq. revert b.
  apply forall_byte. vm_compute. reflexivity.
Qed.

Lemma bits_of_byte : forall b,
  RFC4648.bits_of_N 8 (Byte.to_N b) =
    [bit b 7; bit b 6; bit b 5; bit b 4; bit b 3; bit b 2; bit b 1; bit b 0].
Proof. reflexivity. Qed.

(** *** [encodeBytes] is RFC 4648 base32 *)

Lemma chr_char32 : forall n, Base32.chr n = RFC4648.char32 n.
Proof. reflexivity. Qed.

Lemma unpadded_group : forall b1 b2 b3 b4 b5 rest,
  RFC4648.base32_unpadded (b1 :: b2 :: b3 :: b4 :: b5 :: rest) =
  Base32.str
    [ RFC4648.char32 (RFC4648.N_of_bits [bit b1 7; bit b1 6; bit b1 5; bit b1 4; bit b1 3]);
      RFC4648.char32 (RFC4648.N_of_bits [bit b1 2; bit b1 1; bit b1 0; bit b2 7; bit b2 6]);
      RFC4648.char32 (RFC4648.N_of_bits [bit b2 5; bit b2 4; bit b2 3; bit b2 2; bit b2 1]);
      RFC4648.char32 (RFC4648.N_of_bits [bit b2 0; bit b3 7; bit b3 6; bit b3 5; bit b3 4]);
      RFC4648.char32 (RFC4648.N_of_bits [bit b3 3; bit b3 2; bit b3 1; bit b3 0; bit b4 7]);
      RFC4648.char32 (RFC4648.N_of_bits [bit b4 6; bit b4 5; bit b4 4; bit b4 3; bit b4 2]);
      RFC4648.char32 (RFC4648.N_of_bits [bit b4 1; bit b4 0; bit b5 7; bit b5 6; bit b5 5]);
      RFC4648.char32 (RFC4648.N_of_bits [bit b5 4; bit b5 3; bit b5 2; bit b5 1; bit b5 0]) ]
    (RFC4648.base32_unpadded rest).
Proof.
  intros. unfold RFC4648.base32_unpadded, RFC4648.bits_of_bytes.
  cbn [flat_map]. rewrite !bits_of_byte.
  cbn [app RFC4648.quintets map RFC4648.string_of_chars Base32.str fold_right].
  reflexivity.
Qed.

Lemma encodeBytes_group : forall b1 b2 b3 b4 b5 rest,
  Base32.encodeBytes (b1 :: b2 :: b3 :: b4 :: b5 :: rest) =
  Base32.str
    [ RFC4648.char32 (RFC4648.N_of_bits [bit b1 7; bit b1 6; bit b1 5; bit b1 4; bit b1 3]);
      RFC4648.char32 (RFC4648.N_of_bits [bit b1 2; bit b1 1; bit b1 0; bit b2 7; bit b2 6]);
      RFC4648.char32 (RFC4648.N_of_bits [bit b2 5; bit b2 4; bit b2 3; bit b2 2; bit b2 1]);
      RFC4648.char32 (RFC4648.N_of_bits [bit b2 0; bit b3 7; bit b3 6; bit b3 5; bit b3 4]);
      RFC4648.char32 (RFC4648.N_of_bits [bit b3 3; bit b3 2; bit b3 1; bit b3 0; bit b4 7]);
      RFC4648.char32 (RFC4648.N_of_bits [bit b4 6; bit b4 5; bit b4 4; bit b4 3; bit b4 2]);
      RFC4648.char32 (RFC4648.N_of_bits [bit b4 1; bit b4 0; bit b5 7; bit b5 6; bit b5 5]);
      RFC4648.char32 (RFC4648.N_of_bits [bit b5 4; bit b5 3; bit b5 2; bit b5 1; bit b5 0]) ]
    (Base32.encodeBytes rest).
Proof.
  intros. cbn [Base32.encodeBytes].
  rewrite quintet_1, quintet_2, quintet_3, quintet_4, quintet_5, quintet_6,
    quintet_7, quintet_8.
  reflexivity.
Qed.

Lemma str_length : forall cs tail,
  String.length (Base32.str cs tail) = (length cs + String.length tail)%nat.
Proof.
  induction cs as [|c cs IH]; intros tail; simpl; [reflexivity|now rewrite IH].
Qed.

Lemma str_app : forall cs tail more,
  Base32.str cs tail ++ more = Base32.str cs (tail ++ more).
Proof.
  induction cs as [|c cs IH]; intros tail more; simpl; [reflexivity|now rewrite IH].
Qed.

(** hi-base32 computes RFC 4648 base32, padding included. *)
Lemma encodeBytes_rfc4648 : forall bytes,
  Base32.encodeBytes bytes = RFC4648.base32 bytes.
Proof.
  induction bytes as [| b1 | b1 b2 | b1 b2 b3 | b1 b2 b3 b4 | b1 b2 b3 b4 b5 rest IH]
    using list_ind5.
  - reflexivity.
  - cbn [Base32.encodeBytes]. rewrite quintet_1, quintet_2_last. reflexivity.
  - cbn [Base32.encodeBytes].
    rewrite quintet_1, quintet_2, quintet_3, quintet_4_last. reflexivity.
  - cbn [Base32.encodeBytes].
    rewrite quintet_1, quintet_2, quintet_3, quintet_4, quintet_5_last. reflexivity.
  - cbn [Base32.encodeBytes].
    rewrite quintet_1, quintet_2, quintet_3, quintet_4, quintet_5, quintet_6,
      quintet_7_last. reflexivity.
  - rewrite encodeBytes_group, IH. unfold RFC4648.base32.
    rewrite unpadded_group, str_length, str_app.
    cbn [length].
    replace ((8 + String.length (RFC4648.base32_unpadded rest)) mod 8)%nat
      with (String.length (RFC4648.base32_unpadded rest) mod 8)%nat; [reflexivity|].
    symmetry.
    replace (8 + String.length (RFC4648.base32_unpadded rest))%nat
      with (String.length (RFC4648.base32_unpadded rest) + 1 * 8)%nat by lia.
    apply Nat.Div0.mod_add.
Qed.

(** *** Removing the padding *)

Lemma replace_all_repeat : forall n, replace_all "=" "" (RFC4648.repeat_char "=" n) = "".
Proof. induction n as [|n IH]; simpl; [reflexivity|exact IH]. Qed.

Lemma replace_all_absent : forall c s,
  Url.forall_chars (fun a => negb (Ascii.eqb a c)) s = true ->
  replace_all c "" s = s.
Proof.
  intros c s; induction s as [|a s IH]; simpl; [reflexivity|].
  intros H. apply andb_true_iff in H as [Ha Hs]. apply negb_true_iff in Ha.
  now rewrite Ha, (IH Hs).
Qed.

Lemma N_of_bits5_lt : forall a b c d e, (RFC4648.N_of_bits [a; b; c; d; e] < 32)%N.
Proof. intros [] [] [] [] []; vm_compute; reflexivity. Qed.

Lemma quintets_length5 : forall bits, Forall (fun q => length q = 5%nat) (RFC4648.quintets bits).
Proof.
  induction bits using list_ind5; cbn [RFC4648.quintets]; repeat constructor.
  exact IHbits.
Qed.

Lemma value32_char32 : forall q,
  length q = 5%nat ->
  RFC4648.value32 (RFC4648.char32 (RFC4648.N_of_bits q)) = Some (RFC4648.N_of_bits q).
Proof.
  intros [|a [|b [|c [|d [|e [|f q]]]]]] H; try discriminate.
  destruct a, b, c, d, e; reflexivity.
Qed.

Lemma char32_not_pad : forall q,
  length q = 5%nat ->
  negb (Ascii.eqb (RFC4648.char32 (RFC4648.N_of_bits q)) "=") = true.
Proof.
  intros [|a [|b [|c [|d [|e [|f q]]]]]] H; try discriminate.
  destruct a, b, c, d, e; reflexivity.
Qed.

Lemma unpadded_no_pad : forall bytes,
  Url.forall_chars (fun a => negb (Ascii.eqb a "=")) (RFC4648.base32_unpadded bytes) = true.
Proof.
  intros bytes. unfold RFC4648.base32_unpadded.
  pose proof (quintets_length5 (RFC4648.bits_of_bytes bytes)) as H.
  induction H as [|q qs Hq Hqs IH]; [reflexivity|].
  cbn [map RFC4648.string_of_chars Url.forall_chars].
  now rewrite (char32_not_pad q Hq), IH.
Qed.

(** Base32 with the padding removed is the unpadded text. *)
Lemma base32_strip : forall bytes,
  replace_all "=" "" (RFC4648.base32 bytes) = RFC4648.base32_unpadded bytes.
Proof.
  intros bytes. unfold RFC4648.base32.
  rewrite replace_all_app, replace_all_repeat, append_nil_r.
  apply replace_all_absent, unpadded_no_pad.
Qed.

(** *** Decoding gives the bytes back *)

Lemma values32_unpadded : forall qs,
  Forall (fun q => length q = 5%nat) qs ->
  RFC4648.values32 (RFC4648.string_of_chars (map (fun q => RFC4648.char32 (RFC4648.N_of_bits q)) qs))
  = Some (map RFC4648.N_of_bits qs).
Proof.
  induction 1 as [|q qs Hq Hqs IH]; [reflexivity|].
  cbn [map RFC4648.string_of_chars RFC4648.values32].
  now rewrite (value32_char32 q Hq), IH.
Qed.

Lemma bits_of_N_of_bits5 : forall q,
  length q = 5%nat -> RFC4648.bits_of_N 5 (RFC4648.N_of_bits q) = q.
Proof.
  intros [|a [|b [|c [|d [|e [|f q]]]]]] H; try discriminate.
  destruct a, b, c, d, e; reflexivity.
Qed.

Lemma flat_map_bits : forall qs,
  Forall (fun q => length q = 5%nat) qs ->
  flat_map (RFC4648.bits_of_N 5) (map RFC4648.N_of_bits qs) = concat qs.
Proof.
  induction 1 as [|q qs Hq Hqs IH]; [reflexivity|].
  cbn [map flat_map concat]. now rewrite (bits_of_N_of_bits5 q Hq), IH.
Qed.

(** The groups of five, put end to end, are the bits followed by fewer
    than five zero bits. *)
Lemma concat_quintets : forall bits,
  exists pad, concat (RFC4648.quintets bits) = (bits ++ pad)%list /\ (length pad < 5)%nat.
Proof.
  induction bits as [| a | a b | a b c | a b c d | a b c d e rest IH] using list_ind5.
  - exists []. split; [reflexivity|simpl; lia].
  - exists [false; false; false; false]. split; [reflexivity|simpl; lia].
  - exists [false; false; false]. split; [reflexivity|simpl; lia].
  - exists [false; false]. split; [reflexivity|simpl; lia].
  - exists [false]. split; [reflexivity|simpl; lia].
  - destruct IH as [pad [E L]]. exists pad. split; [|exact L].
    cbn [RFC4648.quintets concat app]. now rewrite E.
Qed.

Lemma octets_short : forall pad, (length pad < 8)%nat -> RFC4648.octets pad = [].
Proof.
  intros [|a [|b [|c [|d [|e [|f [|g [|h pad]]]]]]]] H; try reflexivity.
  simpl in H. lia.
Qed.

Lemma octets_bytes : forall bytes pad,
  (length pad < 8)%nat ->
  RFC4648.octets (RFC4648.bits_of_bytes bytes ++ pad) =
  map (fun b => RFC4648.bits_of_N 8 (Byte.to_N b)) bytes.
Proof.
  induction bytes as [|b bytes IH]; intros pad H.
  - simpl. apply octets_short, H.
  - unfold RFC4648.bits_of_bytes. cbn [flat_map map].
    rewrite !bits_of_byte. cbn [app RFC4648.octets].
    f_equal. apply IH, H.
Qed.

Lemma byte_of_bits_of_byte : forall b,
  RFC4648.byte_of_bits (RFC4648.bits_of_N 8 (Byte.to_N b)) = b.
Proof. intros b. destruct b; reflexivity. Qed.

(** Decoding unpadded base32 gives the bytes back. *)
Lemma base32_decode_unpadded : forall bytes,
  RFC4648.base32_decode (RFC4648.base32_unpadded bytes) = Some bytes.
Proof.
  intros bytes. unfold RFC4648.base32_decode, RFC4648.base32_unpadded.
  pose proof (quintets_length5 (RFC4648.bits_of_bytes bytes)) as H.
  rewrite (values32_unpadded _ H), (flat_map_bits _ H).
  destruct (concat_quintets (RFC4648.bits_of_bytes bytes)) as [pad [E L]].
  rewrite E, octets_bytes by lia.
  rewrite map_map. f_equal.
  rewrite <- (map_id bytes) at 2. apply map_ext, byte_of_bits_of_byte.
Qed.

(** The secret as [secretToBase32] writes it: RFC 4648 base32 of the
    bytes without the padding, which decodes to the bytes. *)
Lemma secretToBase32_rfc4648 : forall bytes,
  secretToBase32 (VBuffer bytes) = Return (replace_all "=" "" (RFC4648.base32 bytes)) /\
  RFC4648.base32_decode (replace_all "=" "" (RFC4648.base32 bytes)) = Some bytes.
Proof.
  intros bytes. split.
  - rewrite secretToBase32_buffer, encodeBytes_rfc4648. reflexivity.
  - rewrite base32_strip. apply base32_decode_unpadded.
Qed.

(** ** Reading a synthetic payload *)

(** *** Bits *)

Lemma land_shiftl_low : forall a b k,
  (a < 2 ^ k)%N -> N.land a (N.shiftl b k) = 0%N.
Proof.
  intros a b k Ha. apply N.bits_inj. intros i.
  rewrite N.land_spec, N.bits_0.
  destruct (N.lt_ge_cases i k) as [Hi|Hi].
  - rewrite N.shiftl_spec_low by exact Hi. apply andb_false_r.
  - replace (N.testbit a i) with false; [reflexivity|].
    symmetry. destruct (N.eq_dec a 0) as [->|Hz]; [apply N.bits_0|].
    apply N.bits_above_log2. apply N.log2_lt_pow2; [lia|].
    eapply N.lt_le_trans; [exact Ha|]. apply N.pow_le_mono_r; lia.
Qed.

Lemma lor_shiftl_add : forall a b k,
  (a < 2 ^ k)%N -> N.lor a (N.shiftl b k) = (a + b * 2 ^ k)%N.
Proof.
  intros a b k Ha.
  pose proof (land_shiftl_low a b k Ha) as H.
  rewrite <- N.lxor_lor by exact H.
  rewrite <- N.add_nocarry_lxor by exact H.
  now rewrite N.shiftl_mul_pow2.
Qed.

(** One step of a varint reader: seven more bits of [x], above the [k]
    bits already there. *)
Lemma varint_step : forall x k,
  N.lor (x mod 2 ^ k) (N.shiftl ((x / 2 ^ k) mod 128) k) = (x mod 2 ^ (k + 7))%N.
Proof.
  intros x k.
  rewrite lor_shiftl_add by (apply N.mod_lt, N.pow_nonzero; lia).
  rewrite N.pow_add_r, N.Div0.mod_mul_r. change (2 ^ 7)%N with 128%N. lia.
Qed.

Lemma to_N_byte_of_N : forall x, (x < 256)%N -> Byte.to_N (Buffer.byte_of_N x) = x.
Proof.
  intros x Hx. unfold Buffer.byte_of_N. rewrite N.mod_small by exact Hx.
  destruct (Byte.of_N x) as [b|] eqn:E.
  - now apply Byte.to_of_N.
  - apply Byte.of_N_None_iff in E. lia.
Qed.

Lemma land_127_continued : forall d,
  (d < 128)%N -> N.land (d + 128) 127 = d.
Proof.
  intros d Hd. change 127%N with (N.ones 7). rewrite N.land_ones.
  change (2 ^ 7)%N with 128%N.
  replace (d + 128)%N with (d + 1 * 128)%N by lia.
  rewrite N.Div0.mod_add. now apply N.mod_small.
Qed.

Lemma land_127_last : forall d, (d < 128)%N -> N.land d 127 = d.
Proof.
  intros d Hd. change 127%N with (N.ones 7). rewrite N.land_ones.
  now apply N.mod_small.
Qed.

Lemma land_15_last : forall d, (d < 16)%N -> N.land d 15 = d.
Proof.
  intros d Hd. change 15%N with (N.ones 4). rewrite N.land_ones.
  now apply N.mod_small.
Qed.

(** *** Positions *)

Lemma at_pos_start : forall buf, at_pos buf 0 buf.
Proof. intros buf. exists []. split; reflexivity. Qed.

Lemma at_pos_byte : forall buf pos b rest,
  at_pos buf pos (b :: rest) ->
  Protobuf.at_ buf pos = Some (Byte.to_N b) /\ at_pos buf (pos + 1) rest.
Proof.
  intros buf pos b rest [pre [-> ->]]. split.
  - unfold Protobuf.at_. rewrite Nat2N.id.
    rewrite nth_error_app2 by lia. now rewrite Nat.sub_diag.
  - exists (pre ++ [b])%list. split.
    + now rewrite <- app_assoc.
    + rewrite length_app. simpl. lia.
Qed.

Lemma at_pos_app : forall buf pos xs rest,
  at_pos buf pos (xs ++ rest)%list ->
  at_pos buf (pos + N.of_nat (length xs)) rest.
Proof.
  intros buf pos xs rest [pre [-> ->]].
  exists (pre ++ xs)%list. split.
  - now rewrite <- app_assoc.
  - rewrite length_app. lia.
Qed.

Lemma at_pos_len : forall buf pos rest,
  at_pos buf pos rest -> Protobuf.len buf = (pos + N.of_nat (length rest))%N.
Proof.
  intros buf pos rest [pre [-> ->]]. unfold Protobuf.len.
  rewrite length_app. lia.
Qed.

Lemma at_pos_slice : forall buf pos xs rest,
  at_pos buf pos (xs ++ rest)%list ->
  Protobuf.slice buf pos (pos + N.of_nat (length xs)) = xs.
Proof.
  intros buf pos xs rest [pre [-> ->]]. unfold Protobuf.slice.
  replace (N.to_nat (N.of_nat (length pre) + N.of_nat (length xs) - N.of_nat (length pre)))
    with (length xs) by lia.
  rewrite Nat2N.id, skipn_app, Nat.sub_diag, skipn_all. simpl.
  rewrite firstn_app, Nat.sub_diag, firstn_all. simpl. apply app_nil_r.
Qed.

Lemma at_pos_none : forall buf pos,
  (Protobuf.len buf <= pos)%N -> Protobuf.at_ buf pos = None.
Proof.
  intros buf pos H. unfold Protobuf.at_, Protobuf.len in *.
  replace (nth_error buf (N.to_nat pos)) with (@None byte); [reflexivity|].
  symmetry. apply nth_error_None. lia.
Qed.

(** *** [uint32] on a varint *)

(** The bytes of a varint, group by group. *)
Lemma varint_aux_small : forall groups n,
  (n < 128)%N -> Wire.varint_aux (S groups) n = [Buffer.byte_of_N n].
Proof.
  intros groups n H. cbn [Wire.varint_aux].
  apply N.ltb_lt in H. now rewrite H.
Qed.

Lemma varint_aux_large : forall groups n,
  (128 <= n)%N ->
  Wire.varint_aux (S groups) n =
    Buffer.byte_of_N (n mod 128 + 128) :: Wire.varint_aux groups (n / 128).
Proof.
  intros groups n H. cbn [Wire.varint_aux].
  apply N.ltb_ge in H. now rewrite H.
Qed.

(** A byte with the continuation bit: the reader takes its seven low bits
    and goes on. *)
Lemma continued_byte : forall buf pos x rest,
  at_pos buf pos (Buffer.byte_of_N (x mod 128 + 128) :: rest) ->
  Protobuf.band (Protobuf.at_ buf pos) 127 = (x mod 128)%N /\
  Protobuf.lt128 (Protobuf.at_ buf pos) = false /\
  at_pos buf (pos + 1) rest.
Proof.
  intros buf pos x rest H.
  destruct (at_pos_byte _ _ _ _ H) as [E H'].
  assert (Hm : (x mod 128 < 128)%N) by lia.
  rewrite E, to_N_byte_of_N by lia. cbn [Protobuf.band Protobuf.lt128].
  repeat split.
  - apply land_127_continued, Hm.
  - apply N.ltb_ge. lia.
  - exact H'.
Qed.

(** The last byte of a varint. *)
Lemma last_byte : forall buf pos x rest,
  (x < 128)%N ->
  at_pos buf pos (Buffer.byte_of_N x :: rest) ->
  Protobuf.band (Protobuf.at_ buf pos) 127 = x /\
  Protobuf.lt128 (Protobuf.at_ buf pos) = true /\
  at_pos buf (pos + 1) rest.
Proof.
  intros buf pos x rest Hx H.
  destruct (at_pos_byte _ _ _ _ H) as [E H'].
  rewrite E, to_N_byte_of_N by lia. cbn [Protobuf.band Protobuf.lt128].
  repeat split; [now apply land_127_last|now apply N.ltb_lt|exact H'].
Qed.

Lemma last_byte_15 : forall buf pos x rest,
  (x < 16)%N ->
  at_pos buf pos (Buffer.byte_of_N x :: rest) ->
  Protobuf.band (Protobuf.at_ buf pos) 15 = x /\
  Protobuf.lt128 (Protobuf.at_ buf pos) = true /\
  at_pos buf (pos + 1) rest.
Proof.
  intros buf pos x rest Hx H.
  destruct (at_pos_byte _ _ _ _ H) as [E H'].
  rewrite E, to_N_byte_of_N by lia. cbn [Protobuf.band Protobuf.lt128].
  repeat split; [now apply land_15_last|apply N.ltb_lt; lia|exact H'].
Qed.

Lemma u32_small : forall x, (x < 4294967296)%N -> Protobuf.u32 x = x.
Proof. intros x H. unfold Protobuf.u32. now apply N.mod_small. Qed.

Lemma step_7 : forall x,
  N.lor (x mod 128) (N.shiftl ((x / 128) mod 128) 7) = (x mod 16384)%N.
Proof. intros x. exact (varint_step x 7). Qed.

Lemma step_14 : forall x,
  N.lor (x mod 16384) (N.shiftl ((x / 16384) mod 128) 14) = (x mod 2097152)%N.
Proof. intros x. exact (varint_step x 14). Qed.

Lemma step_21 : forall x,
  N.lor (x mod 2097152) (N.shiftl ((x / 2097152) mod 128) 21) = (x mod 268435456)%N.
Proof. intros x. exact (varint_step x 21). Qed.

Lemma step_28 : forall x,
  N.lor (x mod 268435456) (N.shiftl ((x / 268435456) mod 128) 28) = (x mod 34359738368)%N.
Proof. intros x. exact (varint_step x 28). Qed.

(** What the reader has after one to five groups of a number below
    2^32. *)
Lemma value_1 : forall n, (n < 128)%N -> Protobuf.u32 n = n.
Proof. intros n H. apply u32_small. lia. Qed.

Lemma value_2 : forall n,
  (n / 128 < 128)%N ->
  Protobuf.u32 (N.lor (Protobuf.u32 (n mod 128)) (N.shiftl (n / 128) 7)) = n.
Proof.
  intros n H. rewrite (u32_small (n mod 128)) by lia.
  replace (n / 128)%N with ((n / 128) mod 128)%N by lia.
  rewrite step_7, u32_small by lia. lia.
Qed.

Lemma value_3 : forall n,
  (n / 128 / 128 < 128)%N ->
  Protobuf.u32
    (N.lor (Protobuf.u32 (N.lor (Protobuf.u32 (n mod 128))
                                (N.shiftl ((n / 128) mod 128) 7)))
           (N.shiftl (n / 128 / 128) 14)) = n.
Proof.
  intros n H. rewrite (u32_small (n mod 128)) by lia.
  rewrite step_7, (u32_small (n mod 16384)) by lia.
  replace (n / 128 / 128)%N with ((n / 16384) mod 128)%N by lia.
  rewrite step_14, u32_small by lia. lia.
Qed.

Lemma value_4 : forall n,
  (n / 128 / 128 / 128 < 128)%N ->
  Protobuf.u32
    (N.lor
       (Protobuf.u32
          (N.lor (Protobuf.u32 (N.lor (Protobuf.u32 (n mod 128))
                                      (N.shiftl ((n / 128) mod 128) 7)))
                 (N.shiftl ((n / 128 / 128) mod 128) 14)))
       (N.shiftl (n / 128 / 128 / 128) 21)) = n.
Proof.
  intros n H. rewrite (u32_small (n mod 128)) by lia.
  rewrite step_7, (u32_small (n mod 16384)) by lia.
  replace (n / 128 / 128)%N with (n / 16384)%N by lia.
  rewrite step_14, (u32_small (n mod 2097152)) by lia.
  replace (n / 16384 / 128)%N with ((n / 2097152) mod 128)%N by lia.
  rewrite step_21, u32_small by lia. lia.
Qed.

Lemma value_5 : forall n,
  (n < 4294967296)%N ->
  Protobuf.u32
    (N.lor
       (Protobuf.u32
          (N.lor
             (Protobuf.u32
                (N.lor (Protobuf.u32 (N.lor (Protobuf.u32 (n mod 128))
                                            (N.shiftl ((n / 128) mod 128) 7)))
                       (N.shiftl ((n / 128 / 128) mod 128) 14)))
             (N.shiftl ((n / 128 / 128 / 128) mod 128) 21)))
       (N.shiftl (n / 128 / 128 / 128 / 128) 28)) = n.
Proof.
  intros n H. rewrite (u32_small (n mod 128)) by lia.
  rewrite step_7, (u32_small (n mod 16384)) by lia.
  replace (n / 128 / 128)%N with (n / 16384)%N by lia.
  rewrite step_14, (u32_small (n mod 2097152)) by lia.
  replace (n / 16384 / 128)%N with (n / 2097152)%N by lia.
  rewrite step_21, (u32_small (n mod 268435456)) by lia.
  replace (n / 2097152 / 128)%N with ((n / 268435456) mod 128)%N by lia.
  rewrite step_28, u32_small by lia. lia.
Qed.

(** [uint32] reads the varint of a number below 2^32 and stops after
    it. *)
Lemma uint32_varint : forall buf pos n rest,
  (n < 4294967296)%N ->
  at_pos buf pos (Wire.varint n ++ rest)%list ->
  Protobuf.uint32 buf pos = Return (n, (pos + N.of_nat (length (Wire.varint n)))%N) /\
  at_pos buf (pos + N.of_nat (length (Wire.varint n))) rest.
Proof.
  intros buf pos n rest Hn H.
  split; [|apply at_pos_app, H].
  unfold Wire.varint in *. unfold Protobuf.uint32.
  destruct (N.lt_ge_cases n 128) as [H0|H0].
  { rewrite varint_aux_small in * by exact H0. cbn [app length N.of_nat] in *.
    destruct (last_byte _ _ _ _ H0 H) as [E [L _]]. rewrite L, E.
    rewrite value_1 by lia. reflexivity. }
  rewrite varint_aux_large in * by exact H0. cbn [app] in H.
  destruct (continued_byte _ _ _ _ H) as [E0 [L0 H1]]. rewrite L0, E0. clear H.
  destruct (N.lt_ge_cases (n / 128) 128) as [H1'|H1'].
  { rewrite varint_aux_small in * by exact H1'. cbn [app length] in *.
    destruct (last_byte _ _ _ _ H1' H1) as [E [L _]]. rewrite L, E.
    rewrite value_2 by lia. reflexivity. }
  rewrite varint_aux_large in * by exact H1'. cbn [app] in H1.
  destruct (continued_byte _ _ _ _ H1) as [E1 [L1 H2]]. rewrite L1, E1. clear H1.
  replace (pos + 1 + 1)%N with (pos + 2)%N in H2 by lia.
  destruct (N.lt_ge_cases (n / 128 / 128) 128) as [H2'|H2'].
  { rewrite varint_aux_small in * by exact H2'. cbn [app length] in *.
    destruct (last_byte _ _ _ _ H2' H2) as [E [L _]]. rewrite L, E.
    rewrite value_3 by lia. reflexivity. }
  rewrite varint_aux_large in * by exact H2'. cbn [app] in H2.
  destruct (continued_byte _ _ _ _ H2) as [E2 [L2 H3]]. rewrite L2, E2. clear H2.
  replace (pos + 2 + 1)%N with (pos + 3)%N in H3 by lia.
  destruct (N.lt_ge_cases (n / 128 / 128 / 128) 128) as [H3'|H3'].
  { rewrite varint_aux_small in * by exact H3'. cbn [app length] in *.
    destruct (last_byte _ _ _ _ H3' H3) as [E [L _]]. rewrite L, E.
    rewrite value_4 by lia. reflexivity. }
  rewrite varint_aux_large in * by exact H3'. cbn [app] in H3.
  destruct (continued_byte _ _ _ _ H3) as [E3 [L3 H4]]. rewrite L3, E3. clear H3.
  replace (pos + 3 + 1)%N with (pos + 4)%N in H4 by lia.
  assert (H4' : (n / 128 / 128 / 128 / 128 < 16)%N) by lia.
  rewrite varint_aux_small in * by lia. cbn [app length] in *.
  destruct (last_byte_15 _ _ _ _ H4' H4) as [E [L _]]. rewrite L, E.
  rewrite value_5 by lia. reflexivity.
Qed.

(** *** [uint64] on a varint *)

Lemma div_pow_small : forall x k, (x / 2 ^ k < 128)%N -> (x < 2 ^ (k + 7))%N.
Proof.
  intros x k H. rewrite N.pow_add_r. change (2 ^ 7)%N with 128%N.
  assert (Hm : (2 ^ k <> 0)%N) by (apply N.pow_nonzero; lia).
  pose proof (N.mul_succ_div_gt x (2 ^ k) Hm) as G.
  assert (L : (2 ^ k * N.succ (x / 2 ^ k) <= 2 ^ k * 128)%N)
    by (apply N.mul_le_mono_l; lia).
  lia.
Qed.

Lemma div_pow_large : forall x k, (128 <= x / 2 ^ k)%N -> (2 ^ (k + 7) <= x)%N.
Proof.
  intros x k H. rewrite N.pow_add_r. change (2 ^ 7)%N with 128%N.
  pose proof (N.Div0.mul_div_le x (2 ^ k)) as G.
  assert (L : (2 ^ k * 128 <= 2 ^ k * (x / 2 ^ k))%N)
    by (apply N.mul_le_mono_l; lia).
  lia.
Qed.

Lemma div_pow_next : forall x k, (x / 2 ^ k / 128 = x / 2 ^ (k + 7))%N.
Proof.
  intros x k. rewrite N.pow_add_r. change (2 ^ 7)%N with 128%N.
  apply N.Div0.div_div.
Qed.

Lemma mod_pow_bound : forall x j k,
  (x < 4294967296 \/ j <= 32)%N -> (k <= j)%N -> (x mod 2 ^ k < 4294967296)%N.
Proof.
  intros x j k [H|H] Hk.
  - eapply N.le_lt_trans; [|exact H]. apply N.Div0.mod_le.
  - eapply N.lt_le_trans.
    + apply N.mod_lt, N.pow_nonzero. lia.
    + change 4294967296%N with (2 ^ 32)%N. apply N.pow_le_mono_r; lia.
Qed.

(** A run of [readLongVarint] on the bytes of a varint: [k] bits of [x]
    are read already, the bytes from [pos] on give the rest of [x].  The
    run ends on the last byte with all of [x], or it stops after [count]
    bytes with that many more groups of [x]. *)
Lemma read_run_varint : forall count groups x k pos checked buf rest,
  (count <= groups)%nat ->
  (x < 4294967296 \/ k + 7 * N.of_nat count <= 32)%N ->
  at_pos buf pos (Wire.varint_aux groups (x / 2 ^ k) ++ rest)%list ->
  ((0 < count)%nat -> (x < 2 ^ (k + 7 * N.of_nat count))%N ->
   Protobuf.read_run buf checked count k (x mod 2 ^ k) pos =
     Return (Protobuf.Done x
               (pos + N.of_nat (length (Wire.varint_aux groups (x / 2 ^ k)))))) /\
  ((2 ^ (k + 7 * N.of_nat count) <= x)%N ->
   Protobuf.read_run buf checked count k (x mod 2 ^ k) pos =
     Return (Protobuf.More (x mod 2 ^ (k + 7 * N.of_nat count)) (pos + N.of_nat count)) /\
   at_pos buf (pos + N.of_nat count)
     (Wire.varint_aux (groups - count) (x / 2 ^ (k + 7 * N.of_nat count)) ++ rest)%list).
Proof.
  induction count as [|count IH]; intros groups x k pos checked buf rest Hg Hw H.
  { split; [lia|]. intros _. cbn [Protobuf.read_run N.of_nat].
    rewrite N.mul_0_r, !N.add_0_r, Nat.sub_0_r. split; [reflexivity|exact H]. }
  destruct groups as [|groups]; [lia|].
  assert (Hlen : (N.leb (Protobuf.len buf) pos) = false).
  { apply N.leb_gt. rewrite (at_pos_len _ _ _ H).
    destruct (Wire.varint_aux (S groups) (x / 2 ^ k)) eqn:E.
    - cbn [Wire.varint_aux] in E. destruct (x / 2 ^ k <? 128)%N; discriminate.
    - cbn [app length]. lia. }
  cbn [Protobuf.read_run]. rewrite Hlen, andb_false_r.
  assert (Hexp : (k + 7 * N.of_nat (S count) = k + 7 + 7 * N.of_nat count)%N) by lia.
  destruct (N.lt_ge_cases (x / 2 ^ k) 128) as [Hq|Hq].
  - (* the last byte *)
    rewrite varint_aux_small in * by exact Hq. cbn [app length] in *.
    destruct (last_byte _ _ _ _ Hq H) as [E [L _]]. rewrite L, E.
    pose proof (div_pow_small x k Hq) as Hx.
    split.
    + intros _ _. do 2 f_equal.
      replace (x / 2 ^ k)%N with ((x / 2 ^ k) mod 128)%N by (apply N.mod_small, Hq).
      rewrite varint_step, (N.mod_small x) by exact Hx.
      apply u32_small.
      rewrite <- (N.mod_small x (2 ^ (k + 7))) by exact Hx.
      apply (mod_pow_bound x (k + 7 * N.of_nat (S count))); [exact Hw|lia].
    + intros Hbig. exfalso.
      assert (2 ^ (k + 7) <= 2 ^ (k + 7 * N.of_nat (S count)))%N
        by (apply N.pow_le_mono_r; lia).
      lia.
  - (* a byte with the continuation bit *)
    rewrite varint_aux_large in * by exact Hq. cbn [app length] in *.
    destruct (continued_byte _ _ _ _ H) as [E [L H']]. rewrite L, E.
    pose proof (div_pow_large x k Hq) as Hx.
    rewrite varint_step.
    rewrite u32_small
      by (apply (mod_pow_bound x (k + 7 * N.of_nat (S count))); [exact Hw|lia]).
    rewrite div_pow_next in *.
    assert (Hw' : (x < 4294967296 \/ k + 7 + 7 * N.of_nat count <= 32)%N) by lia.
    assert (Hg' : (count <= groups)%nat) by lia.
    destruct (IH groups x (k + 7)%N (pos + 1)%N checked buf rest Hg' Hw' H') as [D M].
    rewrite Hexp. split.
    + intros _ Hsmall. destruct count as [|count].
      * exfalso. cbn [N.of_nat] in Hsmall. rewrite N.mul_0_r, N.add_0_r in Hsmall. lia.
      * rewrite D by (try lia; exact Hsmall). do 2 f_equal. lia.
    + intros Hbig. destruct (M Hbig) as [M1 M2]. rewrite M1. split.
      * do 2 f_equal. lia.
      * replace (pos + N.of_nat (S count))%N with (pos + 1 + N.of_nat count)%N by lia.
        exact M2.
Qed.

Lemma varint_aux_length : forall count groups x k,
  (count <= groups)%nat ->
  (2 ^ (k + 7 * N.of_nat count) <= x)%N ->
  length (Wire.varint_aux groups (x / 2 ^ k)) =
    (count + length (Wire.varint_aux (groups - count)
                       (x / 2 ^ (k + 7 * N.of_nat count))))%nat.
Proof.
  induction count as [|count IH]; intros groups x k Hg Hx.
  { cbn [N.of_nat]. now rewrite N.mul_0_r, N.add_0_r, Nat.sub_0_r. }
  destruct groups as [|groups]; [lia|].
  assert (Hexp : (k + 7 * N.of_nat (S count) = k + 7 + 7 * N.of_nat count)%N) by lia.
  destruct (N.lt_ge_cases (x / 2 ^ k) 128) as [Hq|Hq].
  - exfalso. pose proof (div_pow_small x k Hq).
    assert (2 ^ (k + 7) <= 2 ^ (k + 7 * N.of_nat (S count)))%N
      by (apply N.pow_le_mono_r; lia).
    lia.
  - rewrite varint_aux_large by exact Hq. cbn [length].
    rewrite div_pow_next, Hexp in *.
    rewrite (IH groups x (k + 7)%N) by (try lia; exact Hx).
    reflexivity.
Qed.

Lemma varint_aux_nonempty : forall groups q,
  (1 <= length (Wire.varint_aux (S groups) q))%nat.
Proof.
  intros groups q. cbn [Wire.varint_aux].
  destruct (q <? 128)%N; cbn [length]; lia.
Qed.

Lemma varint_aux_two : forall groups q,
  (128 <= q)%N -> (2 <= length (Wire.varint_aux (S (S groups)) q))%nat.
Proof.
  intros groups q H. rewrite varint_aux_large by exact H. cbn [length].
  pose proof (varint_aux_nonempty groups (q / 128)). lia.
Qed.

(** [uint64] reads the varint of a number below 2^64, gives the number
    and stops after it. *)
Lemma uint64_varint : forall buf pos n rest,
  (n < 18446744073709551616)%N ->
  at_pos buf pos (Wire.varint n ++ rest)%list ->
  Protobuf.uint64 buf pos = Return (n, (pos + N.of_nat (length (Wire.varint n)))%N) /\
  at_pos buf (pos + N.of_nat (length (Wire.varint n))) rest.
Proof.
  intros buf pos n rest Hn H.
  split; [|apply at_pos_app, H].
  unfold Wire.varint in *.
  assert (H0 : at_pos buf pos (Wire.varint_aux 10 (n / 2 ^ 0) ++ rest)%list)
    by (change (2 ^ 0)%N with 1%N; now rewrite N.div_1_r).
  assert (Z0 : (n mod 2 ^ 0 = 0)%N) by (change (2 ^ 0)%N with 1%N; apply N.mod_1_r).
  assert (D0 : (n / 2 ^ 0 = n)%N) by (change (2 ^ 0)%N with 1%N; apply N.div_1_r).
  unfold Protobuf.uint64, Protobuf.readLongVarint.
  destruct (pos + 4 <? Protobuf.len buf)%N eqn:Route.
  - (* the fast route *)
    destruct (read_run_varint 4 10 n 0 pos false buf rest) as [D M];
      [lia|right; cbn; lia|exact H0|].
    rewrite ?Z0, ?D0 in D, M.
    change (2 ^ (0 + 7 * N.of_nat 4))%N with 268435456%N in *.
    destruct (N.lt_ge_cases n 268435456) as [Hs|Hs].
    + rewrite D by (lia || exact Hs). cbn [bind]. rewrite ?D0. apply f_equal, f_equal2; [lia|reflexivity].
    + destruct (M Hs) as [M1 M2]. rewrite M1. cbn [bind].
      pose proof (varint_aux_length 4 10 n 0 ltac:(lia) Hs) as Len.
      rewrite D0 in Len.
      change (2 ^ (0 + 7 * N.of_nat 4))%N with 268435456%N in *.
      change (10 - 4)%nat with 6%nat in *. change (N.of_nat 4) with 4%N in *.
      destruct (N.lt_ge_cases (n / 268435456) 128) as [Hq|Hq].
      * (* the fifth byte is the last *)
        rewrite (varint_aux_small 5 _ Hq) in M2, Len. cbn [app length] in M2, Len.
        destruct (last_byte _ _ _ _ Hq M2) as [E [L _]]. rewrite L, E.
        cbn [bind]. rewrite ?D0, Len. apply f_equal, f_equal2; [|lia].
        replace (n / 268435456)%N with ((n / 268435456) mod 128)%N at 1
          by (apply N.mod_small, Hq).
        rewrite step_28.
        rewrite (u32_small (N.shiftr _ _))
          by (rewrite N.shiftr_div_pow2; change (2 ^ 4)%N with 16%N; lia).
        rewrite N.shiftr_div_pow2. change (2 ^ 4)%N with 16%N.
        unfold Protobuf.u32. lia.
      * (* five bytes and more *)
        rewrite (varint_aux_large 5 _ Hq) in M2, Len. cbn [app length] in M2, Len.
        destruct (continued_byte _ _ _ _ M2) as [E [L M3]]. rewrite L, E.
        cbn [bind].
        replace (pos + 4 + 1)%N with (pos + 5)%N in * by lia.
        set (y := (n / 4294967296)%N).
        assert (Hy : (y < 4294967296)%N) by (unfold y; lia).
        assert (Ehi : Protobuf.u32 (N.shiftr ((n / 268435456) mod 128) 4) = (y mod 2 ^ 3)%N).
        { rewrite N.shiftr_div_pow2. change (2 ^ 4)%N with 16%N.
          change (2 ^ 3)%N with 8%N. rewrite u32_small by lia. unfold y. lia. }
        assert (Erest : (n / 268435456 / 128 = y / 2 ^ 3)%N)
          by (change (2 ^ 3)%N with 8%N; unfold y; lia).
        rewrite Ehi. rewrite Erest in M3, Len.
        destruct (read_run_varint 5 5 y 3 (pos + 5)%N
                    (negb (pos + 5 + 4 <? Protobuf.len buf)%N) buf rest)
          as [D' _]; [lia|left; exact Hy|exact M3|].
        rewrite D' by (try lia; change (2 ^ (3 + 7 * N.of_nat 5))%N with 274877906944%N; lia).
        cbn [bind]. rewrite ?D0, Len. apply f_equal, f_equal2; [|lia].
        rewrite step_28. unfold Protobuf.u32, y. lia.
  - (* the slow route: at most four bytes are left *)
    apply N.ltb_ge in Route.
    destruct (read_run_varint 3 10 n 0 pos true buf rest) as [D M];
      [lia|right; cbn; lia|exact H0|].
    rewrite ?Z0, ?D0 in D, M.
    change (2 ^ (0 + 7 * N.of_nat 3))%N with 2097152%N in *.
    destruct (N.lt_ge_cases n 2097152) as [Hs|Hs].
    + rewrite D by (lia || exact Hs). cbn [bind]. rewrite ?D0. apply f_equal, f_equal2; [lia|reflexivity].
    + destruct (M Hs) as [M1 M2]. rewrite M1. cbn [bind].
      pose proof (varint_aux_length 3 10 n 0 ltac:(lia) Hs) as Len.
      rewrite D0 in Len.
      change (2 ^ (0 + 7 * N.of_nat 3))%N with 2097152%N in *.
      change (10 - 3)%nat with 7%nat in *. change (N.of_nat 3) with 3%N in *.
      pose proof (at_pos_len _ _ _ M2) as Hl. rewrite length_app in Hl.
      destruct (N.lt_ge_cases (n / 2097152) 128) as [Hq|Hq].
      * rewrite (varint_aux_small 6 _ Hq) in M2, Len. cbn [app length] in M2, Len.
        destruct (last_byte _ _ _ _ Hq M2) as [E [L _]]. rewrite E.
        rewrite ?D0, Len. apply f_equal, f_equal2; [|lia].
        replace (n / 2097152)%N with ((n / 2097152) mod 128)%N at 1
          by (apply N.mod_small, Hq).
        rewrite step_21. unfold Protobuf.u32. lia.
      * exfalso. pose proof (varint_aux_two 5 (n / 2097152) Hq). lia.
Qed.

(** ** The generated decoders on encoded fields *)

Lemma fits32_lt : forall n, Wire.fits32 n = true -> (n < 4294967296)%N.
Proof. intros n H. now apply N.ltb_lt. Qed.

Lemma fits64_lt : forall n, Wire.fits64 n = true -> (n < 18446744073709551616)%N.
Proof. intros n H. now apply N.ltb_lt. Qed.

Lemma length_list_byte_of_string : forall s,
  length (list_byte_of_string s) = String.length s.
Proof.
  intros s. unfold list_byte_of_string. rewrite length_map.
  induction s as [|a s IH]; [reflexivity|].
  cbn [list_ascii_of_string String.length length]. now rewrite IH.
Qed.

(** [int32] on a varint. *)
Lemma int32_varint : forall buf pos n rest,
  (n < 4294967296)%N ->
  at_pos buf pos (Wire.varint n ++ rest)%list ->
  Protobuf.int32 buf pos =
    Return (Protobuf.to_int32 n, (pos + N.of_nat (length (Wire.varint n)))%N) /\
  at_pos buf (pos + N.of_nat (length (Wire.varint n))) rest.
Proof.
  intros buf pos n rest Hn H.
  destruct (uint32_varint buf pos n rest Hn H) as [E H'].
  split; [|exact H'].
  unfold Protobuf.int32. rewrite E. reflexivity.
Qed.

(** [bytes] on a length and that many bytes. *)
Lemma bytes_delimited : forall buf pos payload rest,
  (N.of_nat (length payload) < 4294967296)%N ->
  at_pos buf pos (Wire.varint (N.of_nat (length payload)) ++ payload ++ rest)%list ->
  Protobuf.bytes buf pos =
    Return (payload,
            (pos + N.of_nat (length (Wire.varint (N.of_nat (length payload)) ++ payload)))%N) /\
  at_pos buf
    (pos + N.of_nat (length (Wire.varint (N.of_nat (length payload)) ++ payload))) rest.
Proof.
  intros buf pos payload rest Hn H.
  split; [|apply at_pos_app; now rewrite <- app_assoc].
  destruct (uint32_varint buf pos _ _ Hn H) as [E H'].
  unfold Protobuf.bytes. rewrite E. cbn [bind].
  pose proof (at_pos_len _ _ _ H') as Hl. rewrite length_app in Hl.
  replace (Protobuf.len buf <? _)%N with false by (symmetry; apply N.ltb_ge; lia).
  rewrite (at_pos_slice _ _ _ _ H'). rewrite length_app.
  apply f_equal, f_equal2; [reflexivity|lia].
Qed.

(** [string] on a length and that many bytes. *)
Lemma string_delimited : forall buf pos payload rest,
  (N.of_nat (length payload) < 4294967296)%N ->
  at_pos buf pos (Wire.varint (N.of_nat (length payload)) ++ payload ++ rest)%list ->
  Protobuf.string_ buf pos =
    Return (Utf8.utf8Slice payload,
            (pos + N.of_nat (length (Wire.varint (N.of_nat (length payload)) ++ payload)))%N) /\
  at_pos buf
    (pos + N.of_nat (length (Wire.varint (N.of_nat (length payload)) ++ payload))) rest.
Proof.
  intros buf pos payload rest Hn H.
  split; [|apply at_pos_app; now rewrite <- app_assoc].
  destruct (uint32_varint buf pos _ _ Hn H) as [E H'].
  unfold Protobuf.string_. rewrite E. cbn [bind].
  pose proof (at_pos_len _ _ _ H') as Hl. rewrite length_app in Hl.
  rewrite N.min_l by lia.
  rewrite (at_pos_slice _ _ _ _ H'). rewrite length_app.
  apply f_equal, f_equal2; [reflexivity|lia].
Qed.

(** A tag of one byte. *)
Lemma uint32_tag : forall buf pos number wire_type rest,
  (number * 8 + wire_type < 128)%N ->
  at_pos buf pos (Wire.tag number wire_type ++ rest)%list ->
  Protobuf.uint32 buf pos = Return ((number * 8 + wire_type)%N, (pos + 1)%N) /\
  at_pos buf (pos + 1) rest /\
  length (Wire.tag number wire_type) = 1%nat.
Proof.
  intros buf pos number wire_type rest Hn H. unfold Wire.tag in *.
  assert (L : length (Wire.varint (number * 8 + wire_type)) = 1%nat)
    by (unfold Wire.varint; now rewrite varint_aux_small).
  assert (Hn' : (number * 8 + wire_type < 4294967296)%N) by lia.
  destruct (uint32_varint buf pos _ rest Hn' H) as [E H'].
  rewrite L in E, H'. now repeat split.
Qed.

(** One field of an [OtpParameters] message: the tag is read, the
    [switch] reads the value and sets the field. *)
Lemma OtpParameters_field_encoded : forall f buf pos rest m,
  Expected.field_ok f = true ->
  at_pos buf pos (Wire.encode_otp_field f ++ rest)%list ->
  (exists t p,
     Protobuf.uint32 buf pos = Return (t, p) /\
     Protobuf.OtpParameters_field buf t m p =
       Return (Expected.set_field m f,
               (pos + N.of_nat (length (Wire.encode_otp_field f)))%N)) /\
  at_pos buf (pos + N.of_nat (length (Wire.encode_otp_field f))) rest.
Proof.
  intros f buf pos rest m Hok H.
  split; [|apply at_pos_app, H].
  destruct f as [b|s|s|n|n|n|n];
    cbn [Wire.encode_otp_field Expected.field_ok Expected.set_field] in *;
    unfold Wire.length_delimited, Wire.varint_field, Wire.string_fits in *;
    rewrite <- ?app_assoc in H;
    try rewrite <- length_list_byte_of_string in Hok;
    try apply fits32_lt in Hok; try apply fits64_lt in Hok.
  - destruct (uint32_tag buf pos 1 2 _ ltac:(lia) H) as [E [H1 L]].
    destruct (bytes_delimited buf _ b rest Hok H1) as [E2 _].
    exists (1 * 8 + 2)%N, (pos + 1)%N. split; [exact E|].
    unfold Protobuf.OtpParameters_field. rewrite E2. cbn [bind fst snd].
    apply f_equal, f_equal2; [reflexivity|].
    rewrite (length_app (Wire.tag 1 2)), L. lia.
  - destruct (uint32_tag buf pos 2 2 _ ltac:(lia) H) as [E [H1 L]].
    destruct (string_delimited buf _ _ rest Hok H1) as [E2 _].
    exists (2 * 8 + 2)%N, (pos + 1)%N. split; [exact E|].
    unfold Protobuf.OtpParameters_field. rewrite E2. cbn [bind fst snd].
    apply f_equal, f_equal2; [reflexivity|].
    rewrite (length_app (Wire.tag 2 2)), L. lia.
  - destruct (uint32_tag buf pos 3 2 _ ltac:(lia) H) as [E [H1 L]].
    destruct (string_delimited buf _ _ rest Hok H1) as [E2 _].
    exists (3 * 8 + 2)%N, (pos + 1)%N. split; [exact E|].
    unfold Protobuf.OtpParameters_field. rewrite E2. cbn [bind fst snd].
    apply f_equal, f_equal2; [reflexivity|].
    rewrite (length_app (Wire.tag 3 2)), L. lia.
  - destruct (uint32_tag buf pos 4 0 _ ltac:(lia) H) as [E [H1 L]].
    destruct (int32_varint buf _ n rest Hok H1) as [E2 _].
    exists (4 * 8 + 0)%N, (pos + 1)%N. split; [exact E|].
    unfold Protobuf.OtpParameters_field. rewrite E2. cbn [bind fst snd].
    apply f_equal, f_equal2; [reflexivity|].
    rewrite (length_app (Wire.tag 4 0)), L. lia.
  - destruct (uint32_tag buf pos 5 0 _ ltac:(lia) H) as [E [H1 L]].
    destruct (int32_varint buf _ n rest Hok H1) as [E2 _].
    exists (5 * 8 + 0)%N, (pos + 1)%N. split; [exact E|].
    unfold Protobuf.OtpParameters_field. rewrite E2. cbn [bind fst snd].
    apply f_equal, f_equal2; [reflexivity|].
    rewrite (length_app (Wire.tag 5 0)), L. lia.
  - destruct (uint32_tag buf pos 6 0 _ ltac:(lia) H) as [E [H1 L]].
    destruct (int32_varint buf _ n rest Hok H1) as [E2 _].
    exists (6 * 8 + 0)%N, (pos + 1)%N. split; [exact E|].
    unfold Protobuf.OtpParameters_field. rewrite E2. cbn [bind fst snd].
    apply f_equal, f_equal2; [reflexivity|].
    rewrite (length_app (Wire.tag 6 0)), L. lia.
  - destruct (uint32_tag buf pos 7 0 _ ltac:(lia) H) as [E [H1 L]].
    destruct (uint64_varint buf _ n rest Hok H1) as [E2 _].
    exists (7 * 8 + 0)%N, (pos + 1)%N. split; [exact E|].
    unfold Protobuf.OtpParameters_field. rewrite E2. cbn [bind fst snd].
    apply f_equal, f_equal2; [reflexivity|].
    rewrite (length_app (Wire.tag 7 0)), L. lia.
Qed.

Lemma tag_nonempty : forall number wire_type,
  (1 <= length (Wire.tag number wire_type))%nat.
Proof. intros. apply varint_aux_nonempty. Qed.

Lemma encode_otp_field_nonempty : forall f,
  (1 <= length (Wire.encode_otp_field f))%nat.
Proof.
  intros f.
  destruct f; cbn [Wire.encode_otp_field];
    unfold Wire.length_delimited, Wire.varint_field; rewrite length_app;
    match goal with |- context [Wire.tag ?k ?w] => pose proof (tag_nonempty k w) end;
    lia.
Qed.

Lemma length_encode_fields : forall fs,
  (length fs <= length (Wire.encode_fields fs))%nat.
Proof.
  induction fs as [|f fs IH]; [apply Nat.le_refl|].
  unfold Wire.encode_fields in *. cbn [flat_map length]. rewrite length_app.
  pose proof (encode_otp_field_nonempty f). lia.
Qed.

(** The loop of [OtpParameters.decode] over encoded fields: every field
    is set, and the loop ends where the fields end. *)
Lemma OtpParameters_loop_fields : forall fs fuel buf pos m rest,
  forallb Expected.field_ok fs = true ->
  (length fs <= fuel)%nat ->
  at_pos buf pos (Wire.encode_fields fs ++ rest)%list ->
  Protobuf.OtpParameters_loop buf fuel
    (pos + N.of_nat (length (Wire.encode_fields fs))) m pos =
  Return (fold_left Expected.set_field fs m,
          (pos + N.of_nat (length (Wire.encode_fields fs)))%N).
Proof.
  induction fs as [|f fs IH]; intros fuel buf pos m rest Hok Hfuel H.
  { cbn [Wire.encode_fields flat_map length N.of_nat fold_left].
    rewrite N.add_0_r.
    destruct fuel; cbn [Protobuf.OtpParameters_loop]; now rewrite N.ltb_irrefl. }
  destruct fuel as [|fuel]; [cbn [length] in Hfuel; lia|].
  cbn [forallb] in Hok. apply andb_true_iff in Hok. destruct Hok as [Hf Hfs].
  unfold Wire.encode_fields in *. cbn [flat_map fold_left] in *.
  rewrite <- app_assoc in H.
  destruct (OtpParameters_field_encoded f buf pos _ m Hf H) as [[t [p [E1 E2]]] H'].
  cbn [Protobuf.OtpParameters_loop].
  pose proof (encode_otp_field_nonempty f) as Hne.
  rewrite length_app.
  replace (pos <? _)%N with true by (symmetry; apply N.ltb_lt; lia).
  rewrite E1. cbn [bind fst snd]. rewrite E2. cbn [bind fst snd].
  cbn [length] in Hfuel.
  specialize (IH fuel buf _ (Expected.set_field m f) rest Hfs ltac:(lia) H').
  replace (pos + N.of_nat (length (Wire.encode_otp_field f) +
                           length (flat_map Wire.encode_otp_field fs)))%N
    with (pos + N.of_nat (length (Wire.encode_otp_field f)) +
          N.of_nat (length (flat_map Wire.encode_otp_field fs)))%N by lia.
  exact IH.
Qed.

Lemma opt_ok_forallb : forall (A : Type) (p : A -> bool) (g : A -> Wire.otp_field)
    (x : option A),
  (forall a, Expected.field_ok (g a) = p a) ->
  Wire.opt_ok p x = true ->
  forallb Expected.field_ok (Wire.opt g x) = true.
Proof.
  intros A p g [a|] Hg H; cbn [Wire.opt forallb Wire.opt_ok] in *; [|reflexivity].
  now rewrite Hg, H.
Qed.

(** The fields of a record that fits the wire format do. *)
Lemma record_ok_fields : forall r,
  Wire.record_ok r = true ->
  forallb Expected.field_ok (Wire.fields r) = true /\
  (N.of_nat (length (Wire.encode_record r)) < 4294967296)%N.
Proof.
  intros r H. unfold Wire.record_ok in H.
  repeat (apply andb_true_iff in H; destruct H as [H ?]).
  split; [|now apply fits32_lt].
  unfold Wire.fields. cbn [forallb]. rewrite !forallb_app.
  cbn [Expected.field_ok]. rewrite H.
  repeat (rewrite opt_ok_forallb with (p := Wire.string_fits) by (reflexivity || assumption)).
  repeat (rewrite opt_ok_forallb with (p := Wire.fits32) by (reflexivity || assumption)).
  repeat (rewrite opt_ok_forallb with (p := Wire.fits64) by (reflexivity || assumption)).
  reflexivity.
Qed.

(** One field of a payload. *)
Lemma Payload_field_encoded : forall f buf pos rest m,
  Expected.payload_field_ok f = true ->
  at_pos buf pos (Expected.encode_payload_field f ++ rest)%list ->
  (exists t p,
     Protobuf.uint32 buf pos = Return (t, p) /\
     Protobuf.Payload_field buf t m p =
       Return (Expected.set_payload_field m f,
               (pos + N.of_nat (length (Expected.encode_payload_field f)))%N)) /\
  at_pos buf (pos + N.of_nat (length (Expected.encode_payload_field f))) rest.
Proof.
  intros f buf pos rest m Hok H.
  split; [|apply at_pos_app, H].
  destruct f as [r|number n];
    cbn [Expected.encode_payload_field Expected.payload_field_ok] in *.
  - (* a record *)
    destruct (record_ok_fields r Hok) as [Hfs Hlen].
    unfold Wire.length_delimited in *. rewrite <- ?app_assoc in H.
    destruct (uint32_tag buf pos 1 2 _ ltac:(lia) H) as [E [H1 L]].
    destruct (uint32_varint buf _ _ _ Hlen H1) as [E2 H2].
    exists (1 * 8 + 2)%N, (pos + 1)%N. split; [exact E|].
    unfold Protobuf.Payload_field. rewrite E2. cbn [bind fst snd].
    unfold Protobuf.OtpParameters_decode, Wire.encode_record in *.
    assert (Hfuel : (length (Wire.fields r) <= S (length buf))%nat).
    { pose proof (length_encode_fields (Wire.fields r)).
      pose proof (at_pos_len _ _ _ H2) as Hl. rewrite length_app in Hl.
      unfold Protobuf.len in Hl. lia. }
    rewrite (OtpParameters_loop_fields _ _ _ _ _ rest Hfs Hfuel H2).
    cbn [bind fst snd Expected.set_payload_field]. unfold Expected.message.
    apply f_equal, f_equal2; [reflexivity|].
    rewrite (length_app (Wire.tag 1 2)), L, length_app. lia.
  - (* a batch field *)
    apply andb_true_iff in Hok. destruct Hok as [Hk Hn].
    apply andb_true_iff in Hk. destruct Hk as [Hk2 Hk5].
    apply N.leb_le in Hk2, Hk5. apply fits32_lt in Hn.
    unfold Wire.varint_field in *. rewrite <- ?app_assoc in H.
    destruct (uint32_tag buf pos number 0 _ ltac:(lia) H) as [E [H1 L]].
    destruct (int32_varint buf _ n rest Hn H1) as [E2 _].
    exists (number * 8 + 0)%N, (pos + 1)%N. split; [exact E|].
    assert (Hk : number = 2%N \/ number = 3%N \/ number = 4%N \/ number = 5%N) by lia.
    destruct Hk as [ -> | [ -> | [ -> | -> ] ] ];
      unfold Protobuf.Payload_field; rewrite E2; cbn [bind fst snd];
      (apply f_equal, f_equal2; [reflexivity|]);
      rewrite length_app, L; lia.
Qed.

Lemma encode_payload_field_nonempty : forall f,
  (1 <= length (Expected.encode_payload_field f))%nat.
Proof.
  intros f.
  destruct f; cbn [Expected.encode_payload_field];
    unfold Wire.length_delimited, Wire.varint_field; rewrite length_app;
    match goal with |- context [Wire.tag ?k ?w] => pose proof (tag_nonempty k w) end;
    lia.
Qed.

Lemma length_encode_payload_fields : forall fs,
  (length fs <= length (flat_map Expected.encode_payload_field fs))%nat.
Proof.
  induction fs as [|f fs IH]; [apply Nat.le_refl|].
  cbn [flat_map length]. rewrite length_app.
  pose proof (encode_payload_field_nonempty f). lia.
Qed.

(** The loop of [Payload.decode] over encoded fields. *)
Lemma Payload_loop_fields : forall fs fuel buf pos m rest,
  forallb Expected.payload_field_ok fs = true ->
  (length fs <= fuel)%nat ->
  at_pos buf pos (flat_map Expected.encode_payload_field fs ++ rest)%list ->
  Protobuf.Payload_loop buf fuel
    (pos + N.of_nat (length (flat_map Expected.encode_payload_field fs))) m pos =
  Return (fold_left Expected.set_payload_field fs m,
          (pos + N.of_nat (length (flat_map Expected.encode_payload_field fs)))%N).
Proof.
  induction fs as [|f fs IH]; intros fuel buf pos m rest Hok Hfuel H.
  { cbn [flat_map length N.of_nat fold_left].
    rewrite N.add_0_r.
    destruct fuel; cbn [Protobuf.Payload_loop]; now rewrite N.ltb_irrefl. }
  destruct fuel as [|fuel]; [cbn [length] in Hfuel; lia|].
  cbn [forallb] in Hok. apply andb_true_iff in Hok. destruct Hok as [Hf Hfs].
  cbn [flat_map fold_left] in *.
  rewrite <- app_assoc in H.
  destruct (Payload_field_encoded f buf pos _ m Hf H) as [[t [p [E1 E2]]] H'].
  cbn [Protobuf.Payload_loop].
  pose proof (encode_payload_field_nonempty f) as Hne.
  rewrite length_app.
  replace (pos <? _)%N with true by (symmetry; apply N.ltb_lt; lia).
  rewrite E1. cbn [bind fst snd]. rewrite E2. cbn [bind fst snd].
  cbn [length] in Hfuel.
  specialize (IH fuel buf _ (Expected.set_payload_field m f) rest Hfs ltac:(lia) H').
  replace (pos + N.of_nat (length (Expected.encode_payload_field f) +
                           length (flat_map Expected.encode_payload_field fs)))%N
    with (pos + N.of_nat (length (Expected.encode_payload_field f)) +
          N.of_nat (length (flat_map Expected.encode_payload_field fs)))%N by lia.
  exact IH.
Qed.

(** A payload is its fields, one after the other. *)
Lemma encode_payload_fields : forall records t,
  Wire.encode_payload records t =
    flat_map Expected.encode_payload_field (Expected.payload_fields records t).
Proof.
  intros records t. unfold Wire.encode_payload, Expected.payload_fields.
  rewrite flat_map_app. f_equal.
  - induction records as [|r records IH]; [reflexivity|].
    cbn [flat_map map Expected.encode_payload_field]. now rewrite IH.
  - unfold Wire.encode_trailer.
    destruct (Wire.version t), (Wire.batch_size t), (Wire.batch_index t), (Wire.batch_id t);
      cbn [Wire.opt_varint Expected.batch flat_map app Expected.encode_payload_field];
      rewrite ?app_nil_r; reflexivity.
Qed.

Lemma payload_fields_ok : forall records t,
  forallb Wire.record_ok records = true ->
  Wire.trailer_ok t = true ->
  forallb Expected.payload_field_ok (Expected.payload_fields records t) = true.
Proof.
  intros records t Hr Ht. unfold Expected.payload_fields.
  rewrite forallb_app. apply andb_true_iff. split.
  - rewrite forallb_forall in *. intros f Hf. apply in_map_iff in Hf.
    destruct Hf as [r [<- Hin]]. cbn [Expected.payload_field_ok]. now apply Hr.
  - unfold Wire.trailer_ok in Ht.
    repeat (apply andb_true_iff in Ht; destruct Ht as [Ht ?]).
    destruct (Wire.version t), (Wire.batch_size t), (Wire.batch_index t), (Wire.batch_id t);
      cbn [Wire.opt_ok Expected.batch forallb app Expected.payload_field_ok] in *;
      rewrite ?Ht; repeat match goal with H : _ = true |- _ => rewrite H end;
      reflexivity.
Qed.

Lemma otpParameters_entries : forall records m,
  Protobuf.otpParameters (fold_left Expected.set_payload_field (map Expected.Entry records) m) =
    (Protobuf.otpParameters m ++ map Expected.message records)%list /\
  fold_left Expected.set_payload_field (map Expected.Entry records) m =
    Protobuf.mkPayload (Protobuf.otpParameters m ++ map Expected.message records)%list
      (Protobuf.version m) (Protobuf.batchSize m) (Protobuf.batchIndex m)
      (Protobuf.batchId m).
Proof.
  induction records as [|r records IH]; intros m.
  { cbn [map fold_left]. rewrite app_nil_r. split; [reflexivity|now destruct m]. }
  cbn [map fold_left]. destruct (IH (Expected.set_payload_field m (Expected.Entry r))) as [E1 E2].
  rewrite E2. cbn [Expected.set_payload_field Protobuf.otpParameters Protobuf.version
                   Protobuf.batchSize Protobuf.batchIndex Protobuf.batchId].
  rewrite <- app_assoc. split; reflexivity.
Qed.

Lemma otpParameters_payload_fields : forall records t,
  Protobuf.otpParameters
    (fold_left Expected.set_payload_field (Expected.payload_fields records t)
       Protobuf.emptyPayload) = map Expected.message records.
Proof.
  intros records t. unfold Expected.payload_fields. rewrite fold_left_app.
  destruct (otpParameters_entries records Protobuf.emptyPayload) as [_ E]. rewrite E.
  destruct (Wire.version t), (Wire.batch_size t), (Wire.batch_index t), (Wire.batch_id t);
    reflexivity.
Qed.

(** [Payload.decode] on an encoded payload: the message of every
    record, in order. *)
Lemma decode_encode_payload : forall records t,
  forallb Wire.record_ok records = true ->
  Wire.trailer_ok t = true ->
  exists message,
    Protobuf.decode (Wire.encode_payload records t) = Return message /\
    Protobuf.otpParameters message = map Expected.message records.
Proof.
  intros records t Hr Ht.
  exists (fold_left Expected.set_payload_field (Expected.payload_fields records t)
            Protobuf.emptyPayload).
  split; [|apply otpParameters_payload_fields].
  unfold Protobuf.decode. rewrite encode_payload_fields.
  set (fs := Expected.payload_fields records t).
  set (data := flat_map Expected.encode_payload_field fs).
  assert (H : at_pos data 0 (data ++ [])%list)
    by (rewrite app_nil_r; apply at_pos_start).
  assert (Hfuel : (length fs <= S (length data))%nat)
    by (pose proof (length_encode_payload_fields fs); fold data in H0; lia).
  pose proof (Payload_loop_fields fs (S (length data)) data 0 Protobuf.emptyPayload []
                (payload_fields_ok records t Hr Ht) Hfuel H) as E.
  fold data in E. rewrite N.add_0_l in E. unfold Protobuf.len.
  rewrite E. reflexivity.
Qed.

(** ** The secret, from the payload to the URI *)

(** The message of a record has its secret and its counter. *)
Lemma message_secret : forall r,
  Protobuf.secret (Expected.message r) = Some (Wire.secret r) /\
  Protobuf.counter (Expected.message r) = Wire.counter r.
Proof.
  intros [s n i a d t c]. unfold Expected.message, Wire.fields.
  cbn [Wire.secret Wire.name Wire.issuer Wire.algorithm Wire.digits Wire.type Wire.counter].
  destruct n, i, a, d, t, c; split; reflexivity.
Qed.

Lemma toObject_counter_quiet : forall m,
  all_quiet (ToString (counter (OtpParameters_toObject m))) = true.
Proof.
  intros m. unfold OtpParameters_toObject. cbn [counter].
  destruct (Protobuf.counter m) as [n|]; cbn [Protobuf.field ToString];
    [apply string_of_N_quiet|reflexivity].
Qed.

(** The [try] block of [decodeUrl], cut after [Payload.decode]. *)
Lemma decodeUrl_try_accounts : forall migrationUrl,
  decodeUrl_try migrationUrl =
    (data <- extractDataFromUrl migrationUrl ;;
     message <- Protobuf.decode data ;;
     accounts_of message).
Proof. reflexivity. Qed.

(** [createOtpauthUrl] on a decoded message with a secret: a URI comes
    back, and its parameters are those of [expected_query] with the
    base32 text of the secret, without padding. *)
Lemma createOtpauthUrl_of_message : forall m bytes,
  Protobuf.secret m = Some bytes ->
  exists uri,
    createOtpauthUrl (OtpParameters_toObject m) = Return uri /\
    query_pairs uri =
      expected_query (OtpParameters_toObject m)
        (replace_all "=" "" (RFC4648.base32 bytes)).
Proof.
  intros m bytes Hs.
  set (params := OtpParameters_toObject m).
  assert (Hsecret : secret params = VBuffer bytes)
    by (unfold params, OtpParameters_toObject; cbn [secret]; now rewrite Hs).
  destruct (secretToBase32_rfc4648 bytes) as [Hb32 _].
  pose proof (createOtpauthUrl_expected params) as Hc.
  rewrite Hsecret, Hb32 in Hc.
  destruct (createOtpauthUrl_query_pairs params _ (toObject_counter_quiet m) Hc)
    as [b32 [Hb Hq]].
  rewrite Hsecret, Hb32 in Hb. apply Return_inj in Hb. subst b32.
  eexists. split; [exact Hc|exact Hq].
Qed.

(** Without a secret the base32 encoder is given [undefined] and
    throws. *)
Lemma createOtpauthUrl_without_secret : forall m,
  Protobuf.secret m = None ->
  is_throw (createOtpauthUrl (OtpParameters_toObject m)) = true.
Proof.
  intros m Hs. rewrite createOtpauthUrl_expected.
  unfold OtpParameters_toObject. cbn [secret]. rewrite Hs. reflexivity.
Qed.

(** The account of a message with a secret: the URI has the base32 text
    of the secret, without padding, as its [secret] parameter. *)
Lemma account_of_secret : forall m bytes,
  Protobuf.secret m = Some bytes ->
  exists a,
    account_of (OtpParameters_toObject m) = Return a /\
    assoc "secret" (query_pairs (otpauthUrl a)) =
      Some (replace_all "=" "" (RFC4648.base32 bytes)).
Proof.
  intros m bytes Hs.
  destruct (createOtpauthUrl_of_message m bytes Hs) as [uri [Hc Hq]].
  eexists. split.
  - unfold account_of. rewrite Hc. unfold OtpParameters_toObject at 1.
    cbn [secret]. rewrite Hs. cbn [Protobuf.field bind Buffer.from]. reflexivity.
  - cbn [otpauthUrl]. rewrite Hq. reflexivity.
Qed.

Lemma accounts_of_messages : forall records,
  exists accounts,
    map_completion account_of
      (map OtpParameters_toObject (map Expected.message records)) = Return accounts /\
    Forall2 (fun r a =>
               assoc "secret" (query_pairs (otpauthUrl a)) =
                 Some (replace_all "=" "" (RFC4648.base32 (Wire.secret r))))
            records accounts.
Proof.
  induction records as [|r records [accounts [E F]]].
  - exists []. split; [reflexivity|constructor].
  - destruct (account_of_secret (Expected.message r) (Wire.secret r)
                (proj1 (message_secret r))) as [a [Ea Ha]].
    exists (a :: accounts). split.
    + cbn [map map_completion]. rewrite Ea. cbn [bind]. rewrite E. reflexivity.
    + constructor; assumption.
Qed.

(** C1.  A payload that encodes one record or more, each with its
    secret, decodes; the decoded message gives one account a record, in
    order; the [secret] parameter of the account's URI is the RFC 4648
    base32 text of the record's secret bytes without the [=] padding, and
    decoding that text as base32 gives the secret bytes back.  The
    accounts are what [decodeUrl] returns for a URL whose data is the
    payload. *)
Theorem secret_round_trip :
  forall (records : list Wire.record) (t : Wire.trailer),
    records <> [] ->
    forallb Wire.record_ok records = true ->
    Wire.trailer_ok t = true ->
    exists (message : Protobuf.Payload) (accounts : list Account),
      Protobuf.decode (Wire.encode_payload records t) = Return message /\
      accounts_of message = Return accounts /\
      Forall2 (fun r a =>
                 assoc "secret" (query_pairs (otpauthUrl a)) =
                   Some (replace_all "=" "" (RFC4648.base32 (Wire.secret r))) /\
                 RFC4648.base32_decode
                   (replace_all "=" "" (RFC4648.base32 (Wire.secret r))) =
                   Some (Wire.secret r))
              records accounts /\
      (forall migrationUrl : string,
         extractDataFromUrl migrationUrl = Return (Wire.encode_payload records t) ->
         decodeUrl migrationUrl = (accounts, [])).
Proof.
  intros records t Hne Hr Ht.
  destruct (decode_encode_payload records t Hr Ht) as [message [Hd Hm]].
  destruct (accounts_of_messages records) as [accounts [Ha Hf]].
  assert (Hacc : accounts_of message = Return accounts).
  { unfold accounts_of, Payload_toObject. cbn [otpParameters]. rewrite Hm.
    destruct records as [|r records]; [contradiction|exact Ha]. }
  exists message, accounts. repeat split.
  - exact Hd.
  - exact Hacc.
  - clear - Hf. induction Hf as [|r a records accounts H _ IH]; constructor.
    + split; [exact H|apply secretToBase32_rfc4648].
    + exact IH.
  - intros u Hu. unfold decodeUrl. rewrite decodeUrl_try_accounts, Hu.
    cbn [bind]. rewrite Hd. cbn [bind]. rewrite Hacc. reflexivity.
Qed.

Lemma secret_round_trip_witness :
  exists (message : Protobuf.Payload) (accounts : list Account),
    Protobuf.decode
      (Wire.encode_payload Expected.sample_records Expected.sample_trailer) =
      Return message /\
    accounts_of message = Return accounts /\
    Forall2 (fun r a =>
               assoc "secret" (query_pairs (otpauthUrl a)) =
                 Some (replace_all "=" "" (RFC4648.base32 (Wire.secret r))) /\
               RFC4648.base32_decode
                 (replace_all "=" "" (RFC4648.base32 (Wire.secret r))) =
                 Some (Wire.secret r))
            Expected.sample_records accounts /\
    (forall migrationUrl : string,
       extractDataFromUrl migrationUrl =
         Return (Wire.encode_payload Expected.sample_records Expected.sample_trailer) ->
       decodeUrl migrationUrl = (accounts, [])).
Proof.
  apply (secret_round_trip Expected.sample_records Expected.sample_trailer);
    [discriminate|reflexivity|reflexivity].
Defined.

(** ** The fuel of the decoder is enough *)

Lemma lt128_in_range : forall buf pos,
  Protobuf.lt128 (Protobuf.at_ buf pos) = true -> (pos < Protobuf.len buf)%N.
Proof.
  intros buf pos H.
  destruct (N.lt_ge_cases pos (Protobuf.len buf)) as [Hl|Hl]; [exact Hl|].
  rewrite at_pos_none in H by exact Hl. discriminate.
Qed.

Lemma range_error_fuel : forall s, RangeError s <> Protobuf.out_of_fuel.
Proof. intros s. discriminate. Qed.

Lemma moves_weaken : forall buf least least' slack slack' pos pos' c,
  (pos' + least' <= pos + least)%N -> (slack <= slack')%N ->
  moves buf least slack pos c -> moves buf least' slack' pos' c.
Proof.
  intros buf least least' slack slack' pos pos' [p|e] H1 H2 H; cbn [moves] in *;
    [lia|exact H].
Qed.

Lemma uint32_moves : forall buf pos,
  moves buf 1 0 pos (position (Protobuf.uint32 buf pos)).
Proof.
  intros buf pos. unfold Protobuf.uint32.
  repeat match goal with
  | |- context [if Protobuf.lt128 (Protobuf.at_ buf ?p) then _ else _] =>
      let E := fresh "E" in
      destruct (Protobuf.lt128 (Protobuf.at_ buf p)) eqn:E;
        [apply lt128_in_range in E; cbn [position moves snd]; lia|clear E]
  end.
  destruct (Protobuf.len buf <? pos + 10)%N eqn:E; cbn [position moves snd].
  - apply range_error_fuel.
  - apply N.ltb_ge in E. lia.
Qed.

(** What [uint32] gives when it returns. *)
Lemma uint32_returns : forall buf pos v pos',
  Protobuf.uint32 buf pos = Return (v, pos') ->
  (pos + 1 <= pos')%N /\ (pos' <= Protobuf.len buf)%N.
Proof.
  intros buf pos v pos' H. pose proof (uint32_moves buf pos) as M.
  rewrite H in M. cbn [position moves snd] in M. lia.
Qed.

Lemma uint32_throws : forall buf pos e,
  Protobuf.uint32 buf pos = Throw e -> e <> Protobuf.out_of_fuel.
Proof.
  intros buf pos e H. pose proof (uint32_moves buf pos) as M.
  rewrite H in M. exact M.
Qed.

Lemma int32_moves : forall buf pos,
  moves buf 1 0 pos (position (Protobuf.int32 buf pos)).
Proof.
  intros buf pos. unfold Protobuf.int32.
  destruct (Protobuf.uint32 buf pos) as [[v p]|e] eqn:E; cbn [bind position moves snd].
  - pose proof (uint32_returns _ _ _ _ E). lia.
  - apply (uint32_throws _ _ _ E).
Qed.

Lemma bytes_moves : forall buf pos,
  moves buf 1 0 pos (position (Protobuf.bytes buf pos)).
Proof.
  intros buf pos. unfold Protobuf.bytes.
  destruct (Protobuf.uint32 buf pos) as [[v p]|e] eqn:E; cbn [bind position moves snd].
  - pose proof (uint32_returns _ _ _ _ E).
    destruct (Protobuf.len buf <? p + v)%N eqn:El; cbn [position moves snd].
    + apply range_error_fuel.
    + apply N.ltb_ge in El. lia.
  - apply (uint32_throws _ _ _ E).
Qed.

Lemma string_moves : forall buf pos,
  moves buf 1 0 pos (position (Protobuf.string_ buf pos)).
Proof.
  intros buf pos. unfold Protobuf.string_.
  destruct (Protobuf.uint32 buf pos) as [[v p]|e] eqn:E; cbn [bind position moves snd].
  - pose proof (uint32_returns _ _ _ _ E). lia.
  - apply (uint32_throws _ _ _ E).
Qed.

Lemma skip_moves : forall buf length pos,
  moves buf length 0 pos (Protobuf.skip buf length pos).
Proof.
  intros buf length pos. unfold Protobuf.skip.
  destruct (Protobuf.len buf <? pos + length)%N eqn:E; cbn [moves].
  - apply range_error_fuel.
  - apply N.ltb_ge in E. lia.
Qed.

Lemma skip_varint_moves : forall buf fuel pos,
  (0 < fuel)%nat ->
  (Protobuf.len buf < pos + N.of_nat fuel)%N ->
  moves buf 1 0 pos (Protobuf.skip_varint buf fuel pos).
Proof.
  intros buf. induction fuel as [|fuel IH]; intros pos Hf H; [lia|].
  cbn [Protobuf.skip_varint].
  destruct (Protobuf.len buf <=? pos)%N eqn:E; [apply range_error_fuel|].
  apply N.leb_gt in E.
  destruct (negb _).
  - apply (moves_weaken buf 1 1 0 0 (pos + 1) pos); [lia|lia|].
    apply IH; lia.
  - cbn [moves]. lia.
Qed.

Lemma read_run_moves : forall buf count checked shift bits pos,
  match Protobuf.read_run buf checked count shift bits pos with
  | Return (Protobuf.Done _ p) => (pos + 1 <= p)%N /\ (p <= Protobuf.len buf)%N
  | Return (Protobuf.More _ p) =>
      p = (pos + N.of_nat count)%N /\
      (checked = true -> (0 < count)%nat -> (p <= Protobuf.len buf)%N)
  | Throw e => e <> Protobuf.out_of_fuel
  end.
Proof.
  intros buf. induction count as [|count IH]; intros checked shift bits pos.
  { cbn [Protobuf.read_run N.of_nat]. split; [lia|intros _ H; lia]. }
  cbn [Protobuf.read_run].
  destruct (checked && (Protobuf.len buf <=? pos)%N) eqn:Ec;
    [apply range_error_fuel|].
  destruct (Protobuf.lt128 (Protobuf.at_ buf pos)) eqn:El.
  - apply lt128_in_range in El. lia.
  - specialize (IH checked (shift + 7)%N
                  (Protobuf.u32
                     (N.lor bits (N.shiftl (Protobuf.band (Protobuf.at_ buf pos) 127) shift)))
                  (pos + 1)%N).
    destruct (Protobuf.read_run buf checked count _ _ _) as [[lo p|lo p]|e].
    + lia.
    + destruct IH as [-> IH]. split; [lia|]. intros Hc _.
      rewrite Hc in Ec. cbn [andb] in Ec. apply N.leb_gt in Ec.
      destruct count as [|count]; [cbn [N.of_nat]; lia|apply IH; [exact Hc|lia]].
    + exact IH.
Qed.

Lemma invalid_varint_fuel : Error "invalid varint encoding" <> Protobuf.out_of_fuel.
Proof. discriminate. Qed.

Lemma uint64_moves : forall buf pos,
  moves buf 1 1 pos (position (Protobuf.uint64 buf pos)).
Proof.
  intros buf pos. unfold Protobuf.uint64, Protobuf.readLongVarint.
  destruct (pos + 4 <? Protobuf.len buf)%N eqn:Route.
  - apply N.ltb_lt in Route.
    pose proof (read_run_moves buf 4 false 0 0 pos) as M.
    destruct (Protobuf.read_run buf false 4 0 0 pos) as [[lo p|lo p]|e];
      cbn [bind position moves snd]; [lia| |exact M].
    destruct M as [-> _]. change (N.of_nat 4) with 4%N.
    destruct (Protobuf.lt128 (Protobuf.at_ buf (pos + 4))); cbn [bind position moves snd];
      [lia|].
    match goal with
    | |- context [Protobuf.read_run buf ?c 5 3 ?hi ?q] =>
        pose proof (read_run_moves buf 5 c 3 hi q) as M;
        destruct (Protobuf.read_run buf c 5 3 hi q) as [[hi' p|hi' p]|e]
    end; cbn [bind position moves snd]; [lia|apply invalid_varint_fuel|exact M].
  - apply N.ltb_ge in Route.
    pose proof (read_run_moves buf 3 true 0 0 pos) as M.
    destruct (Protobuf.read_run buf true 3 0 0 pos) as [[lo p|lo p]|e];
      cbn [bind position moves snd]; [lia| |exact M].
    destruct M as [-> M]. specialize (M eq_refl ltac:(lia)). lia.
Qed.

Lemma invalid_wire_type_fuel : forall s,
  Error ("invalid wire type " ++ s) <> Protobuf.out_of_fuel.
Proof. intros s. discriminate. Qed.

Lemma skipType_moves : forall buf fuel wireType pos,
  (0 < fuel)%nat ->
  (Protobuf.len buf < pos + N.of_nat fuel)%N ->
  moves buf 1 0 pos (Protobuf.skipType buf fuel wireType pos).
Proof.
  intros buf. induction fuel as [|fuel IH]; intros w pos Hf H; [lia|].
  assert (Hall : (Protobuf.len buf < pos + N.of_nat (S (length buf)))%N)
    by (unfold Protobuf.len; lia).
  destruct w as [|[[p|p|]|[p|p|]|]]; cbn [Protobuf.skipType];
    try apply invalid_wire_type_fuel.
  - (* 0: a varint *)
    apply skip_varint_moves; [lia|exact Hall].
  - (* 5: four bytes *)
    destruct p; try apply invalid_wire_type_fuel.
    apply (moves_weaken buf 4 1 0 0 pos pos); [lia|lia|apply skip_moves].
  - (* 3: a group *)
    destruct (Protobuf.uint32 buf pos) as [[t0 p1]|e0] eqn:E0; cbn [bind fst snd];
      [|apply (uint32_throws _ _ _ E0)].
    pose proof (uint32_returns _ _ _ _ E0) as [H01 H02].
    destruct (N.land t0 7 =? 4)%N; [cbn [moves]; lia|].
    assert (M0 : moves buf 1 0 p1 (Protobuf.skipType buf fuel (N.land t0 7) p1))
      by (apply IH; lia).
    destruct (Protobuf.skipType buf fuel (N.land t0 7) p1) as [p2|e0];
      cbn [bind moves] in *; [|exact M0].
    match goal with
    | |- moves _ _ _ _ (?g _ _) =>
        assert (G : forall n q, (pos <= q)%N -> (0 < n)%nat ->
                      (Protobuf.len buf < q + N.of_nat n)%N ->
                      moves buf 1 0 q (g n q))
    end.
    { induction n as [|n IHn]; intros q Hq Hn Hlen; [lia|].
      cbn -[Protobuf.uint32 Protobuf.skipType].
      destruct (Protobuf.uint32 buf q) as [[t q1]|e] eqn:E; cbn [bind fst snd].
      - pose proof (uint32_returns _ _ _ _ E) as [H1 H2].
        destruct (N.land t 7 =? 4)%N; [cbn [moves]; lia|].
        assert (M : moves buf 1 0 q1 (Protobuf.skipType buf fuel (N.land t 7) q1))
          by (apply IH; lia).
        destruct (Protobuf.skipType buf fuel (N.land t 7) q1) as [q2|e];
          cbn [bind moves] in *; [|exact M].
        apply (moves_weaken buf 1 1 0 0 q2 q); [lia|lia|].
        apply IHn; lia.
      - apply (uint32_throws _ _ _ E). }
    apply (moves_weaken buf 1 1 0 0 p2 pos); [lia|lia|].
    apply G; [lia| |]; unfold Protobuf.len in *; lia.
  - (* 2: a length and that many bytes *)
    destruct (Protobuf.uint32 buf pos) as [[v q]|e] eqn:E; cbn [bind fst snd].
    + pose proof (uint32_returns _ _ _ _ E) as [H1 H2].
      apply (moves_weaken buf v 1 0 0 q pos); [lia|lia|apply skip_moves].
    + apply (uint32_throws _ _ _ E).
  - (* 1: eight bytes *)
    apply (moves_weaken buf 8 1 0 0 pos pos); [lia|lia|apply skip_moves].
Qed.

(** A field read with [reader] and stored in the message. *)
Lemma stored_moves : forall (A M : Type) buf pos (reader : completion (A * N))
    (store : A * N -> M),
  moves buf 1 1 pos (position reader) ->
  moves buf 1 1 pos (position (r <- reader ;; Return (store r, snd r))).
Proof.
  intros A M buf pos [r|e] store H; exact H.
Qed.

Lemma skipped_moves : forall (M : Type) buf pos (skipped : completion N) (m : M),
  moves buf 1 1 pos skipped ->
  moves buf 1 1 pos (position (pos' <- skipped ;; Return (m, pos'))).
Proof.
  intros M buf pos [p|e] m H; exact H.
Qed.

Lemma slack_one : forall buf least pos c,
  moves buf least 0 pos c -> moves buf least 1 pos c.
Proof.
  intros buf least pos c H.
  apply (moves_weaken buf least least 0 1 pos pos); [lia|lia|exact H].
Qed.

Lemma skipType_field_moves : forall buf wireType pos,
  moves buf 1 1 pos (Protobuf.skipType buf (S (length buf)) wireType pos).
Proof.
  intros buf w pos. apply slack_one, skipType_moves; [lia|].
  unfold Protobuf.len. lia.
Qed.

Lemma OtpParameters_field_moves : forall buf t m pos,
  moves buf 1 1 pos (position (Protobuf.OtpParameters_field buf t m pos)).
Proof.
  intros buf t m pos. unfold Protobuf.OtpParameters_field.
  destruct (N.shiftr t 3) as [|[[[p|p|]|[p|p|]|]|[[p|p|]|[p|p|]|]|]];
    first [ apply skipped_moves, skipType_field_moves
          | apply stored_moves, slack_one, bytes_moves
          | apply stored_moves, slack_one, string_moves
          | apply stored_moves, slack_one, int32_moves
          | apply stored_moves, uint64_moves ].
Qed.

(** The loop of [OtpParameters.decode] does not run out of fuel: every
    turn takes two bytes at least. *)
Lemma OtpParameters_loop_moves : forall buf fuel c m pos,
  (pos <= Protobuf.len buf + 1)%N ->
  (Protobuf.len buf + 2 <= pos + 2 * N.of_nat fuel)%N ->
  moves buf 0 1 pos (position (Protobuf.OtpParameters_loop buf fuel c m pos)).
Proof.
  intros buf. induction fuel as [|fuel IH]; intros c m pos Hp Hf; [lia|].
  cbn [Protobuf.OtpParameters_loop].
  destruct (pos <? c)%N; [|cbn [position moves snd]; lia].
  destruct (Protobuf.uint32 buf pos) as [[t p1]|e] eqn:E; cbn [bind fst snd position];
    [|apply (uint32_throws _ _ _ E)].
  pose proof (uint32_returns _ _ _ _ E) as [H1 H2].
  pose proof (OtpParameters_field_moves buf t m p1) as M.
  destruct (Protobuf.OtpParameters_field buf t m p1) as [[m' p2]|e];
    cbn [bind fst snd position moves] in *; [|exact M].
  apply (moves_weaken buf 0 0 1 1 p2 pos); [lia|lia|].
  apply IH; lia.
Qed.

Lemma OtpParameters_decode_moves : forall buf l pos,
  (pos <= Protobuf.len buf)%N ->
  moves buf 0 1 pos (position (Protobuf.OtpParameters_decode buf l pos)).
Proof.
  intros buf l pos H. unfold Protobuf.OtpParameters_decode.
  apply OtpParameters_loop_moves; unfold Protobuf.len in *; lia.
Qed.

Lemma Payload_field_moves : forall buf t m pos,
  moves buf 1 1 pos (position (Protobuf.Payload_field buf t m pos)).
Proof.
  intros buf t m pos. unfold Protobuf.Payload_field.
  destruct (N.shiftr t 3) as [|[[[p|p|]|[p|p|]|]|[[p|p|]|[p|p|]|]|]];
    try first [ apply skipped_moves, skipType_field_moves
              | apply stored_moves, slack_one, int32_moves ].
  (* a record *)
  destruct (Protobuf.uint32 buf pos) as [[l p1]|e] eqn:E; cbn [bind fst snd position];
    [|apply (uint32_throws _ _ _ E)].
  pose proof (uint32_returns _ _ _ _ E) as [H1 H2].
  pose proof (OtpParameters_decode_moves buf l p1 H2) as M.
  destruct (Protobuf.OtpParameters_decode buf l p1) as [[m' p2]|e];
    cbn [bind fst snd position moves] in *; [lia|exact M].
Qed.

Lemma Payload_loop_moves : forall buf fuel c m pos,
  (pos <= Protobuf.len buf + 1)%N ->
  (Protobuf.len buf + 2 <= pos + 2 * N.of_nat fuel)%N ->
  moves buf 0 1 pos (position (Protobuf.Payload_loop buf fuel c m pos)).
Proof.
  intros buf. induction fuel as [|fuel IH]; intros c m pos Hp Hf; [lia|].
  cbn [Protobuf.Payload_loop].
  destruct (pos <? c)%N; [|cbn [position moves snd]; lia].
  destruct (Protobuf.uint32 buf pos) as [[t p1]|e] eqn:E; cbn [bind fst snd position];
    [|apply (uint32_throws _ _ _ E)].
  pose proof (uint32_returns _ _ _ _ E) as [H1 H2].
  pose proof (Payload_field_moves buf t m p1) as M.
  destruct (Protobuf.Payload_field buf t m p1) as [[m' p2]|e];
    cbn [bind fst snd position moves] in *; [|exact M].
  apply (moves_weaken buf 0 0 1 1 p2 pos); [lia|lia|].
  apply IH; lia.
Qed.

(** [Payload.decode] returns or throws an error of the library: the fuel
    of the loops is never what ends it. *)
Lemma decode_fuel : forall data,
  Protobuf.decode data <> Throw Protobuf.out_of_fuel.
Proof.
  intros data. unfold Protobuf.decode.
  pose proof (Payload_loop_moves data (S (length data)) (Protobuf.len data)
                Protobuf.emptyPayload 0) as M.
  destruct (Protobuf.Payload_loop data _ _ _ _) as [[m p]|e];
    cbn [bind position moves] in *; [discriminate|].
  intros H. injection H as ->. apply M; [lia|unfold Protobuf.len; lia|reflexivity].
Qed.

(** ** The parser on a migration URL *)

(** *** Trimming *)

Lemma rev_append_app : forall s acc,
  Url.rev_append s acc = Url.rev_append s EmptyString ++ acc.
Proof.
  induction s as [|a s IH]; intros acc; cbn [Url.rev_append]; [reflexivity|].
  rewrite (IH (String a acc)), (IH (String a EmptyString)).
  rewrite append_assoc. reflexivity.
Qed.

Lemma rev_append_rev : forall s acc,
  Url.rev_append (Url.rev_append s EmptyString) acc = s ++ acc.
Proof.
  induction s as [|a s IH]; intros acc; cbn [Url.rev_append]; [reflexivity|].
  rewrite (rev_append_app s (String a EmptyString)).
  assert (G : forall x y z, Url.rev_append (x ++ y) z = Url.rev_append y (Url.rev_append x z)).
  { induction x as [|c x IHx]; intros y z; cbn [append Url.rev_append];
      [reflexivity|apply IHx]. }
  rewrite G. cbn [Url.rev_append]. rewrite IH. reflexivity.
Qed.

Lemma rev_rev : forall s, Url.rev (Url.rev s) = s.
Proof.
  intros s. unfold Url.rev. rewrite rev_append_rev. apply append_nil_r.
Qed.

Lemma forall_chars_rev_append : forall p s acc,
  Url.forall_chars p (Url.rev_append s acc) =
    Url.forall_chars p s && Url.forall_chars p acc.
Proof.
  intros p. induction s as [|a s IH]; intros acc;
    cbn [Url.rev_append Url.forall_chars]; [reflexivity|].
  rewrite IH. cbn [Url.forall_chars].
  destruct (p a), (Url.forall_chars p s), (Url.forall_chars p acc); reflexivity.
Qed.

Lemma plain_codes : forall a,
  plain a = true ->
  (Url.code a <? 33)%N = false /\
  (Url.code a =? 194)%N = false /\ (Url.code a =? 239)%N = false /\
  (Url.code a =? 160)%N = false /\ (Url.code a =? 191)%N = false.
Proof.
  intros a H. unfold plain in H. apply andb_true_iff in H as [H1 H2].
  apply N.leb_le in H1. apply N.ltb_lt in H2.
  repeat split; first [apply N.ltb_ge | apply N.eqb_neq]; lia.
Qed.

Lemma trim_start_plain : forall a s,
  plain a = true -> Url.trim_start (String a s) = String a s.
Proof.
  intros a s H. destruct (plain_codes a H) as [H1 [H2 [H3 _]]].
  cbn [Url.trim_start]. rewrite H1, H2, H3. cbn [andb].
  destruct s as [|b [|c s]]; reflexivity.
Qed.

Lemma trim_start_rev_plain : forall a s,
  plain a = true -> Url.trim_start_rev (String a s) = String a s.
Proof.
  intros a s H. destruct (plain_codes a H) as [H1 [_ [_ [H4 H5]]]].
  cbn [Url.trim_start_rev]. rewrite H1, H4, H5. cbn [andb].
  destruct s as [|b [|c s]]; reflexivity.
Qed.

(** A text of visible ASCII characters has nothing to trim. *)
Lemma trim_plain : forall s,
  Url.forall_chars plain s = true -> Url.trim s = s.
Proof.
  intros s H. unfold Url.trim.
  destruct s as [|a s]; [reflexivity|].
  pose proof H as H'. cbn [Url.forall_chars] in H'.
  apply andb_true_iff in H' as [Ha _].
  rewrite (trim_start_plain a s Ha).
  assert (Hr : Url.forall_chars plain (Url.rev (String a s)) = true).
  { unfold Url.rev. rewrite forall_chars_rev_append, H. reflexivity. }
  destruct (Url.rev (String a s)) as [|b r] eqn:E.
  - rewrite <- (rev_rev (String a s)), E. reflexivity.
  - cbn [Url.forall_chars] in Hr. apply andb_true_iff in Hr as [Hb _].
    rewrite (trim_start_rev_plain b r Hb), <- E. apply rev_rev.
Qed.

(** *** The stages of [url.parse] *)

Lemma kept_char_plain : forall a, kept_char a = true -> plain a = true.
Proof.
  intros [b0 b1 b2 b3 b4 b5 b6 b7];
    destruct b0, b1, b2, b3, b4, b5, b6, b7; vm_compute; congruence.
Qed.

Lemma kept_char_kept : forall a, kept_char a = true -> Url.autoEscape a = false.
Proof.
  intros [b0 b1 b2 b3 b4 b5 b6 b7];
    destruct b0, b1, b2, b3, b4, b5, b6, b7; vm_compute; congruence.
Qed.

Lemma kept_char_no_hash : forall a,
  kept_char a = true -> negb (Url.is_char "#" a) = true.
Proof.
  intros [b0 b1 b2 b3 b4 b5 b6 b7];
    destruct b0, b1, b2, b3, b4, b5, b6, b7; vm_compute; congruence.
Qed.

Lemma query_char_kept_char : forall a, query_char a = true -> kept_char a = true.
Proof.
  intros [b0 b1 b2 b3 b4 b5 b6 b7];
    destruct b0, b1, b2, b3, b4, b5, b6, b7; vm_compute; congruence.
Qed.

Lemma data_char_query : forall a, data_char a = true -> query_char a = true.
Proof. intros a H. unfold query_char. now rewrite H. Qed.

Lemma data_char_no_amp : forall a,
  data_char a = true -> negb (Ascii.eqb a "&") = true.
Proof.
  intros [b0 b1 b2 b3 b4 b5 b6 b7];
    destruct b0, b1, b2, b3, b4, b5, b6, b7; vm_compute; congruence.
Qed.

Lemma autoEscapeStr_kept : forall q,
  Url.forall_chars kept_char q = true -> Url.autoEscapeStr q = q.
Proof.
  induction q as [|a q IH]; intros H; [reflexivity|].
  cbn [Url.forall_chars] in H. apply andb_true_iff in H as [Ha Hq].
  cbn [Url.autoEscapeStr]. now rewrite (kept_char_kept a Ha), (IH Hq).
Qed.

Lemma query_of_kept : forall q,
  Url.forall_chars kept_char q = true ->
  Url.query_of ("?" ++ q) = Some q.
Proof.
  intros q H. unfold Url.query_of.
  rewrite span_all.
  - reflexivity.
  - rewrite forall_chars_app. apply andb_true_iff. split; [reflexivity|].
    revert H. apply forall_chars_impl, kept_char_no_hash.
Qed.

Lemma transport_url_plain : forall q,
  Url.forall_chars kept_char q = true ->
  Url.forall_chars plain (transport_url q) = true.
Proof.
  intros q H. unfold transport_url. rewrite forall_chars_app.
  apply andb_true_iff. split; [reflexivity|].
  revert H. apply forall_chars_impl, kept_char_plain.
Qed.

(** [url.parse] on a URL of the migration transport, whatever the query:
    the protocol, the host, and the query as [querystring.parse] reads
    it. *)
Lemma parse_transport_url_kept : forall q,
  Url.forall_chars kept_char q = true ->
  Url.parse (transport_url q) =
    Return (Url.mk (Some "otpauth-migration:") (Some "offline")
              (Url.querystring_parse q)).
Proof.
  intros q H. unfold Url.parse.
  rewrite (trim_plain _ (transport_url_plain q H)).
  change (Url.convert_backslashes (transport_url q)) with (transport_url q).
  change (Url.match_protocol (transport_url q))
    with (Some ("otpauth-migration:", "//offline?" ++ q)).
  cbv beta iota zeta.
  change (option_map toLowerCase (Some "otpauth-migration:"))
    with (Some "otpauth-migration:").
  change (Url.hostlessProtocol (Some "otpauth-migration:")) with false.
  change (Url.starts_with_slashes ("//offline?" ++ q)) with true.
  cbn [orb andb negb].
  change (Url.drop 2 ("//offline?" ++ q)) with ("offline?" ++ q).
  change (Url.parse_host ("offline?" ++ q))
    with (Return ("offline", "?" ++ q) : completion (string * string)).
  cbn [bind fst snd].
  change (Url.autoEscapeStr ("?" ++ q)) with ("?" ++ Url.autoEscapeStr q).
  rewrite (autoEscapeStr_kept q H), (query_of_kept q H).
  reflexivity.
Qed.

Lemma parse_transport_url : forall q,
  Url.forall_chars query_char q = true ->
  Url.parse (transport_url q) =
    Return (Url.mk (Some "otpauth-migration:") (Some "offline")
              (Url.querystring_parse q)).
Proof.
  intros q H. apply parse_transport_url_kept.
  revert H. apply forall_chars_impl, query_char_kept_char.
Qed.

Lemma data_query_chars : forall d,
  Url.forall_chars data_char d = true ->
  Url.forall_chars query_char ("data=" ++ d) = true.
Proof.
  intros d H. rewrite forall_chars_app. apply andb_true_iff. split; [reflexivity|].
  revert H. apply forall_chars_impl, data_char_query.
Qed.

(** A query that is the one parameter [data]. *)
Lemma querystring_parse_one : forall d,
  Url.forall_chars (fun a => negb (Ascii.eqb a "&")) d = true ->
  Url.querystring_parse ("data=" ++ d) =
    [("data", Url.QString (Url.unescape (replace_all "+" " " d)))].
Proof.
  intros d H. unfold Url.querystring_parse.
  change ("data=" ++ d) with (String "d" ("ata=" ++ d)). cbv iota.
  change (String "d" ("ata=" ++ d)) with ("data=" ++ d).
  rewrite split_no_sep.
  - reflexivity.
  - rewrite forall_chars_app. apply andb_true_iff. split; [reflexivity|exact H].
Qed.

Lemma querystring_parse_data : forall d,
  Url.forall_chars data_char d = true ->
  Url.querystring_parse ("data=" ++ d) =
    [("data", Url.QString (Url.unescape (replace_all "+" " " d)))].
Proof.
  intros d H. apply querystring_parse_one.
  revert H. apply forall_chars_impl, data_char_no_amp.
Qed.

Lemma parse_migration_url : forall d,
  Url.forall_chars data_char d = true ->
  Url.parse (migration_url d) =
    Return (Url.mk (Some "otpauth-migration:") (Some "offline")
              [("data", Url.QString (Url.unescape (replace_all "+" " " d)))]).
Proof.
  intros d H.
  change (migration_url d) with (transport_url ("data=" ++ d)).
  rewrite (parse_transport_url _ (data_query_chars d H)).
  now rewrite (querystring_parse_data d H).
Qed.

(** The same with the [data] parameter given twice: the query object
    holds the array of the two values. *)
Lemma querystring_parse_data_twice : forall d1 d2,
  Url.forall_chars data_char d1 = true ->
  Url.forall_chars data_char d2 = true ->
  Url.querystring_parse ("data=" ++ d1 ++ "&data=" ++ d2) =
    [("data", Url.QArray [Url.unescape (replace_all "+" " " d1);
                          Url.unescape (replace_all "+" " " d2)])].
Proof.
  intros d1 d2 H1 H2. unfold Url.querystring_parse.
  change ("data=" ++ d1 ++ "&data=" ++ d2)
    with (String "d" ("ata=" ++ d1 ++ "&data=" ++ d2)). cbv iota.
  change (String "d" ("ata=" ++ d1 ++ "&data=" ++ d2))
    with (("data=" ++ d1) ++ String "&" ("data=" ++ d2)) at 1.
  replace ("data=" ++ d1 ++ "&data=" ++ d2)
    with (("data=" ++ d1) ++ String "&" ("data=" ++ d2))
    by (now rewrite !append_assoc).
  rewrite split_app_sep, split_no_sep.
  - reflexivity.
  - rewrite forall_chars_app. apply andb_true_iff. split; [reflexivity|].
    revert H2. apply forall_chars_impl, data_char_no_amp.
  - rewrite forall_chars_app. apply andb_true_iff. split; [reflexivity|].
    revert H1. apply forall_chars_impl, data_char_no_amp.
Qed.

(** *** Escapes and the plus sign *)

Lemma to_N_byte_of_ascii : forall a, Byte.to_N (byte_of_ascii a) = N_of_ascii a.
Proof.
  intros [b0 b1 b2 b3 b4 b5 b6 b7];
    destruct b0, b1, b2, b3, b4, b5, b6, b7; reflexivity.
Qed.

(** ASCII bytes decode to themselves. *)
Lemma utf8Slice_ascii : forall s,
  Url.forall_chars (fun a => (Url.code a <? 128)%N) s = true ->
  Utf8.utf8Slice (list_byte_of_string s) = s.
Proof.
  unfold Utf8.utf8Slice, list_byte_of_string.
  induction s as [|a s IH]; intros H; [reflexivity|].
  cbn [Url.forall_chars] in H. apply andb_true_iff in H as [Ha Hs].
  apply N.ltb_lt in Ha. unfold Url.code in Ha.
  cbn [list_ascii_of_string map Utf8.decode_from].
  rewrite to_N_byte_of_ascii. unfold Utf8.classify.
  replace (N_of_ascii a <=? 127)%N with true by (symmetry; apply N.leb_le; lia).
  rewrite ascii_of_byte_of_ascii, (IH Hs). reflexivity.
Qed.

Lemma unescapeBuffer_no_percent : forall s,
  Url.forall_chars (fun a => negb (Url.is_char "%" a)) s = true ->
  Url.unescapeBuffer s = list_byte_of_string s.
Proof.
  unfold list_byte_of_string.
  induction s as [|a s IH]; intros H; [reflexivity|].
  cbn [Url.forall_chars] in H. apply andb_true_iff in H as [Ha Hs].
  apply negb_true_iff in Ha.
  cbn [Url.unescapeBuffer list_ascii_of_string map]. rewrite Ha. cbn [andb].
  rewrite <- (IH Hs). destruct s as [|h [|l s]]; reflexivity.
Qed.

Lemma replace_all_none : forall c r s,
  Url.forall_chars (fun a => negb (Ascii.eqb a c)) s = true ->
  replace_all c r s = s.
Proof.
  intros c r. induction s as [|a s IH]; intros H; [reflexivity|].
  cbn [Url.forall_chars] in H. apply andb_true_iff in H as [Ha Hs].
  apply negb_true_iff in Ha. cbn [replace_all]. now rewrite Ha, (IH Hs).
Qed.

(** A plus sign read as a space is made a plus sign again. *)
Lemma replace_plus_space : forall s,
  Url.forall_chars (fun a => negb (Ascii.eqb a " ")) s = true ->
  replace_all " " "+" (replace_all "+" " " s) = s.
Proof.
  induction s as [|a s IH]; intros H; [reflexivity|].
  cbn [Url.forall_chars] in H. apply andb_true_iff in H as [Ha Hs].
  apply negb_true_iff in Ha. cbn [replace_all].
  destruct (Ascii.eqb a "+") eqn:E.
  - apply Ascii.eqb_eq in E. subst a. cbn. now rewrite (IH Hs).
  - cbn [replace_all]. now rewrite Ha, (IH Hs).
Qed.

Lemma forall_chars_replace_plus : forall p s,
  p " "%char = true ->
  Url.forall_chars p s = true ->
  Url.forall_chars p (replace_all "+" " " s) = true.
Proof.
  intros p s Hp. induction s as [|a s IH]; intros H; [reflexivity|].
  cbn [Url.forall_chars] in H. apply andb_true_iff in H as [Ha Hs].
  cbn [replace_all]. destruct (Ascii.eqb a "+"); cbn; rewrite ?Hp, ?Ha, (IH Hs); reflexivity.
Qed.

Lemma data_char_facts : forall a,
  data_char a = true ->
  (Url.code a <? 128)%N = true /\ negb (Ascii.eqb a " ") = true.
Proof.
  intros [b0 b1 b2 b3 b4 b5 b6 b7];
    destruct b0, b1, b2, b3, b4, b5, b6, b7; vm_compute; split; congruence.
Qed.

(** The query parser and the [replace] of the script undo each other on
    an ASCII value without escapes and spaces. *)
Lemma unescape_plain : forall d,
  Url.forall_chars (fun a => (Url.code a <? 128)%N) d = true ->
  Url.forall_chars (fun a => negb (Ascii.eqb a " ")) d = true ->
  Url.forall_chars (fun a => negb (Url.is_char "%" a)) d = true ->
  replace_all " " "+" (Url.unescape (replace_all "+" " " d)) = d.
Proof.
  intros d Ha Hs Hp. unfold Url.unescape.
  rewrite unescapeBuffer_no_percent by (apply forall_chars_replace_plus; [reflexivity|exact Hp]).
  rewrite utf8Slice_ascii.
  - apply replace_plus_space, Hs.
  - apply forall_chars_replace_plus; [reflexivity|exact Ha].
Qed.

Lemma unescape_raw : forall d,
  Url.forall_chars data_char d = true ->
  Url.forall_chars (fun a => negb (Url.is_char "%" a)) d = true ->
  replace_all " " "+" (Url.unescape (replace_all "+" " " d)) = d.
Proof.
  intros d H Hp. apply unescape_plain; [| |exact Hp];
    revert H; apply forall_chars_impl; intros a Ha; apply (data_char_facts a Ha).
Qed.

(** The unwrapper on a migration URL: what comes out of the query
    parser is put through the [replace] and the base64 decoder. *)
Lemma extractDataFromUrl_migration_url : forall d,
  Url.forall_chars data_char d = true ->
  extractDataFromUrl (migration_url d) =
    Return (Buffer.from_base64
              (replace_all " " "+" (Url.unescape (replace_all "+" " " d)))).
Proof.
  intros d H.
  rewrite (extractDataFromUrl_parsed _ _ (parse_migration_url d H)); reflexivity.
Qed.

(** ** Base64: Node's decoder on RFC 4648 text *)

Lemma list_ind3 : forall (A : Type) (P : list A -> Prop),
  P [] ->
  (forall a, P [a]) ->
  (forall a b, P [a; b]) ->
  (forall a b c rest, P rest -> P (a :: b :: c :: rest)) ->
  forall l, P l.
Proof.
  intros A P H0 H1 H2 H3.
  fix IH 1. intros l.
  destruct l as [|a [|b [|c rest]]].
  - exact H0.
  - apply H1.
  - apply H2.
  - apply H3, IH.
Qed.

(** The four characters of three bytes. *)
Lemma base64_unpadded_group : forall a b c rest,
  base64_unpadded (a :: b :: c :: rest) =
  String (RFC4648.char64
            (RFC4648.N_of_bits [bit a 7; bit a 6; bit a 5; bit a 4; bit a 3; bit a 2]))
    (String (RFC4648.char64
               (RFC4648.N_of_bits [bit a 1; bit a 0; bit b 7; bit b 6; bit b 5; bit b 4]))
       (String (RFC4648.char64
                  (RFC4648.N_of_bits [bit b 3; bit b 2; bit b 1; bit b 0; bit c 7; bit c 6]))
          (String (RFC4648.char64
                     (RFC4648.N_of_bits [bit c 5; bit c 4; bit c 3; bit c 2; bit c 1; bit c 0]))
             (base64_unpadded rest)))).
Proof.
  intros. unfold base64_unpadded, RFC4648.bits_of_bytes.
  cbn [flat_map]. rewrite !bits_of_byte.
  cbn [app RFC4648.sextets map RFC4648.string_of_chars].
  reflexivity.
Qed.

Lemma base64_unpadded_one : forall a,
  base64_unpadded [a] =
  String (RFC4648.char64
            (RFC4648.N_of_bits [bit a 7; bit a 6; bit a 5; bit a 4; bit a 3; bit a 2]))
    (String (RFC4648.char64
               (RFC4648.N_of_bits [bit a 1; bit a 0; false; false; false; false]))
       EmptyString).
Proof. reflexivity. Qed.

Lemma base64_unpadded_two : forall a b,
  base64_unpadded [a; b] =
  String (RFC4648.char64
            (RFC4648.N_of_bits [bit a 7; bit a 6; bit a 5; bit a 4; bit a 3; bit a 2]))
    (String (RFC4648.char64
               (RFC4648.N_of_bits [bit a 1; bit a 0; bit b 7; bit b 6; bit b 5; bit b 4]))
       (String (RFC4648.char64
                  (RFC4648.N_of_bits [bit b 3; bit b 2; bit b 1; bit b 0; false; false]))
          EmptyString)).
Proof. reflexivity. Qed.

(** The decoder reads a character of the alphabet as the six bits it
    stands for. *)
Lemma unbase64_char64 : forall x1 x2 x3 x4 x5 x6,
  Buffer.unbase64 (RFC4648.char64 (RFC4648.N_of_bits [x1; x2; x3; x4; x5; x6])) =
    Some (RFC4648.N_of_bits [x1; x2; x3; x4; x5; x6]).
Proof. intros [] [] [] [] [] []; reflexivity. Qed.

(** The three bytes of four characters. *)
Lemma decoded_byte_1 : forall a y7 y6 y5 y4,
  Buffer.byte_of_N
    (N.lor (N.shiftl
              (N.land (RFC4648.N_of_bits
                         [bit a 7; bit a 6; bit a 5; bit a 4; bit a 3; bit a 2]) 63) 2)
           (N.shiftr
              (N.land (RFC4648.N_of_bits [bit a 1; bit a 0; y7; y6; y5; y4]) 48) 4)) = a.
Proof.
  intros a y7 y6 y5 y4. apply Byte.byte_dec_bl. revert a.
  apply forall_byte. destruct y7, y6, y5, y4; vm_compute; reflexivity.
Qed.

Lemma decoded_byte_2 : forall x1 x0 b y7 y6,
  Buffer.byte_of_N
    (N.lor (N.shiftl
              (N.land (RFC4648.N_of_bits
                         [x1; x0; bit b 7; bit b 6; bit b 5; bit b 4]) 15) 4)
           (N.shiftr
              (N.land (RFC4648.N_of_bits [bit b 3; bit b 2; bit b 1; bit b 0; y7; y6]) 60)
              2)) = b.
Proof.
  intros x1 x0 b y7 y6. apply Byte.byte_dec_bl. revert b.
  apply forall_byte. destruct x1, x0, y7, y6; vm_compute; reflexivity.
Qed.

Lemma decoded_byte_3 : forall x3 x2 x1 x0 c,
  Buffer.byte_of_N
    (N.lor (N.shiftl
              (N.land (RFC4648.N_of_bits [x3; x2; x1; x0; bit c 7; bit c 6]) 3) 6)
           (N.land (RFC4648.N_of_bits
                      [bit c 5; bit c 4; bit c 3; bit c 2; bit c 1; bit c 0]) 63)) = c.
Proof.
  intros x3 x2 x1 x0 c. apply Byte.byte_dec_bl. revert c.
  apply forall_byte. destruct x3, x2, x1, x0; vm_compute; reflexivity.
Qed.

(** A group of four starts afresh: the last character of the group
    before plays no part. *)
Lemma base64_decode_fresh : forall s hi hi',
  Buffer.base64_decode 0 hi s = Buffer.base64_decode 0 hi' s.
Proof.
  induction s as [|c s IH]; intros hi hi'; [reflexivity|].
  cbn [Buffer.base64_decode].
  destruct (Buffer.unbase64 c); [reflexivity|].
  destruct (Ascii.eqb c "="); [reflexivity|apply IH].
Qed.

(** The decoder gives back the bytes of unpadded base64 text, whatever
    follows it: the end of the text or the padding. *)
Lemma base64_decode_unpadded : forall bytes tail,
  (forall phase hi, Buffer.base64_decode phase hi tail = []) ->
  Buffer.base64_decode 0 0 (base64_unpadded bytes ++ tail) = bytes.
Proof.
  intros bytes tail Htail.
  induction bytes as [|a|a b|a b c rest IH] using list_ind3.
  - apply Htail.
  - rewrite base64_unpadded_one. cbn [append Buffer.base64_decode].
    rewrite !unbase64_char64, decoded_byte_1, Htail. reflexivity.
  - rewrite base64_unpadded_two. cbn [append Buffer.base64_decode].
    rewrite !unbase64_char64, decoded_byte_1, decoded_byte_2, Htail. reflexivity.
  - rewrite base64_unpadded_group. cbn [append Buffer.base64_decode].
    rewrite !unbase64_char64, decoded_byte_1, decoded_byte_2, decoded_byte_3.
    rewrite (base64_decode_fresh _ _ 0%N), IH. reflexivity.
Qed.

Lemma base64_decode_padding : forall n phase hi,
  Buffer.base64_decode phase hi (RFC4648.repeat_char "=" n) = [].
Proof. intros [|n] phase hi; reflexivity. Qed.

Lemma base64_padded : forall bytes,
  RFC4648.base64 bytes =
    base64_unpadded bytes ++
    RFC4648.repeat_char "=" ((4 - String.length (base64_unpadded bytes) mod 4) mod 4).
Proof. reflexivity. Qed.

(** *** The characters of base64 text *)

(** A character of a [data] value that is no escape. *)
Lemma char64_data : forall x1 x2 x3 x4 x5 x6,
  data_char (RFC4648.char64 (RFC4648.N_of_bits [x1; x2; x3; x4; x5; x6])) &&
  negb (Url.is_char "%" (RFC4648.char64 (RFC4648.N_of_bits [x1; x2; x3; x4; x5; x6]))) =
  true.
Proof. intros [] [] [] [] [] []; reflexivity. Qed.

Lemma base64_unpadded_chars : forall bytes,
  Url.forall_chars (fun a => data_char a && negb (Url.is_char "%" a))
    (base64_unpadded bytes) = true.
Proof.
  induction bytes as [|a|a b|a b c rest IH] using list_ind3.
  - reflexivity.
  - rewrite base64_unpadded_one. cbn [Url.forall_chars]. now rewrite !char64_data.
  - rewrite base64_unpadded_two. cbn [Url.forall_chars]. now rewrite !char64_data.
  - rewrite base64_unpadded_group. cbn [Url.forall_chars].
    now rewrite !char64_data, IH.
Qed.

Lemma repeat_pad_chars : forall n,
  Url.forall_chars (fun a => data_char a && negb (Url.is_char "%" a))
    (RFC4648.repeat_char "=" n) = true.
Proof. induction n as [|n IH]; [reflexivity|]. cbn. exact IH. Qed.

Lemma base64_chars : forall bytes,
  Url.forall_chars (fun a => data_char a && negb (Url.is_char "%" a))
    (RFC4648.base64 bytes) = true.
Proof.
  intros bytes. rewrite base64_padded, forall_chars_app.
  now rewrite base64_unpadded_chars, repeat_pad_chars.
Qed.

Lemma data_chars_ascii : forall s,
  Url.forall_chars (fun a => data_char a && negb (Url.is_char "%" a)) s = true ->
  Url.forall_chars (fun a => (Url.code a <? 128)%N) s = true.
Proof.
  intros s. apply forall_chars_impl. intros a Ha.
  apply andb_true_iff in Ha as [Ha _]. apply (data_char_facts a Ha).
Qed.

(** [Buffer.from(text, 'base64')] on the base64 text of bytes gives the
    bytes. *)
Lemma from_base64_base64 : forall bytes,
  Buffer.from_base64 (RFC4648.base64 bytes) = bytes.
Proof.
  intros bytes. unfold Buffer.from_base64.
  rewrite (low_bytes_ascii _ (data_chars_ascii _ (base64_chars bytes))), base64_padded.
  apply base64_decode_unpadded, base64_decode_padding.
Qed.

Lemma data_and_raw : forall s,
  Url.forall_chars (fun a => data_char a && negb (Url.is_char "%" a)) s = true ->
  Url.forall_chars data_char s = true /\
  Url.forall_chars (fun a => negb (Url.is_char "%" a)) s = true.
Proof.
  intros s H. split; revert H; apply forall_chars_impl; intros a Ha;
    apply andb_true_iff in Ha; tauto.
Qed.

(** *** Percent-encoded values *)

Lemma unescapeBuffer_percent : forall a s,
  Url.unescapeBuffer (Uri.percent a ++ s) = byte_of_ascii a :: Url.unescapeBuffer s.
Proof.
  intros [b0 b1 b2 b3 b4 b5 b6 b7] s;
    destruct b0, b1, b2, b3, b4, b5, b6, b7; reflexivity.
Qed.

Lemma unreserved_no_percent : forall a,
  Uri.unreserved a = true -> Url.is_char "%" a = false.
Proof.
  intros [b0 b1 b2 b3 b4 b5 b6 b7];
    destruct b0, b1, b2, b3, b4, b5, b6, b7; vm_compute; congruence.
Qed.

(** Unescaping what [encodeURIComponent] wrote gives the bytes of the
    text. *)
Lemma unescapeBuffer_escape : forall x,
  Url.unescapeBuffer (Uri.escape x) = list_byte_of_string x.
Proof.
  unfold list_byte_of_string.
  induction x as [|a x IH]; [reflexivity|].
  change (Uri.escape (String a x))
    with (if Uri.unreserved a then String a (Uri.escape x)
          else Uri.percent a ++ Uri.escape x).
  cbn [list_ascii_of_string map]. rewrite <- IH.
  destruct (Uri.unreserved a) eqn:E.
  - cbn [Url.unescapeBuffer]. rewrite (unreserved_no_percent a E). cbn [andb].
    destruct (Uri.escape x) as [|h [|l s]]; reflexivity.
  - apply unescapeBuffer_percent.
Qed.

Lemma escaped_char_data : forall a,
  data_char a && negb (Url.is_char "%" a) = true ->
  Url.forall_chars (fun c => data_char c && negb (Ascii.eqb c "+"))
    (if Uri.unreserved a then String a EmptyString else Uri.percent a) = true.
Proof.
  intros [b0 b1 b2 b3 b4 b5 b6 b7];
    destruct b0, b1, b2, b3, b4, b5, b6, b7; vm_compute; congruence.
Qed.

Lemma escape_data : forall x,
  Url.forall_chars (fun a => data_char a && negb (Url.is_char "%" a)) x = true ->
  Url.forall_chars (fun c => data_char c && negb (Ascii.eqb c "+")) (Uri.escape x) = true.
Proof.
  induction x as [|a x IH]; intros H; [reflexivity|].
  cbn [Url.forall_chars] in H. apply andb_true_iff in H as [Ha Hx].
  change (Uri.escape (String a x))
    with (if Uri.unreserved a then String a (Uri.escape x)
          else Uri.percent a ++ Uri.escape x).
  pose proof (escaped_char_data a Ha) as Hc.
  destruct (Uri.unreserved a).
  - cbn [Url.forall_chars] in *. rewrite andb_true_r in Hc. now rewrite Hc, (IH Hx).
  - rewrite forall_chars_app, Hc, (IH Hx). reflexivity.
Qed.

(** The query parser and the [replace] of the script on a
    percent-encoded value: the value before the encoding. *)
Lemma unescape_escaped : forall x,
  Url.forall_chars (fun a => data_char a && negb (Url.is_char "%" a)) x = true ->
  Url.forall_chars data_char (Uri.escape x) = true /\
  replace_all " " "+" (Url.unescape (replace_all "+" " " (Uri.escape x))) = x.
Proof.
  intros x H. pose proof (escape_data x H) as He.
  destruct (data_and_raw x H) as [Hd _].
  split.
  - revert He. apply forall_chars_impl. intros a Ha. apply andb_true_iff in Ha. tauto.
  - rewrite (replace_all_none "+" " " (Uri.escape x))
      by (revert He; apply forall_chars_impl; intros a Ha;
          apply andb_true_iff in Ha; tauto).
    unfold Url.unescape. rewrite unescapeBuffer_escape, utf8Slice_ascii.
    + apply replace_all_none. revert Hd. apply forall_chars_impl.
      intros a Ha. apply (data_char_facts a Ha).
    + revert Hd. apply forall_chars_impl. intros a Ha. apply (data_char_facts a Ha).
Qed.

(** *** The URL-safe alphabet *)

Lemma unbase64_url_safe : forall c,
  Buffer.unbase64 (url_safe c) = Buffer.unbase64 c /\
  Ascii.eqb (url_safe c) "=" = Ascii.eqb c "=".
Proof.
  intros [b0 b1 b2 b3 b4 b5 b6 b7];
    destruct b0, b1, b2, b3, b4, b5, b6, b7; split; reflexivity.
Qed.

Lemma base64_decode_url_safe : forall s phase hi,
  Buffer.base64_decode phase hi (map_chars url_safe s) = Buffer.base64_decode phase hi s.
Proof.
  induction s as [|c s IH]; intros phase hi; [reflexivity|].
  cbn [map_chars Buffer.base64_decode].
  destruct (unbase64_url_safe c) as [-> ->].
  destruct (Buffer.unbase64 c) as [lo|].
  - destruct phase as [|[|[|phase]]]; rewrite IH; reflexivity.
  - destruct (Ascii.eqb c "="); [reflexivity|apply IH].
Qed.

Lemma url_safe_data : forall a,
  data_char a && negb (Url.is_char "%" a) = true ->
  data_char (url_safe a) && negb (Url.is_char "%" (url_safe a)) = true.
Proof.
  intros [b0 b1 b2 b3 b4 b5 b6 b7];
    destruct b0, b1, b2, b3, b4, b5, b6, b7; vm_compute; congruence.
Qed.

Lemma base64url_chars : forall bytes,
  Url.forall_chars (fun a => data_char a && negb (Url.is_char "%" a))
    (base64url bytes) = true.
Proof.
  intros bytes. unfold base64url.
  pose proof (base64_unpadded_chars bytes) as H.
  induction (base64_unpadded bytes) as [|a s IH]; [reflexivity|].
  cbn [Url.forall_chars map_chars] in *. apply andb_true_iff in H as [Ha Hs].
  now rewrite (url_safe_data a Ha), (IH Hs).
Qed.

Lemma from_base64_base64url : forall bytes,
  Buffer.from_base64 (base64url bytes) = bytes.
Proof.
  intros bytes. unfold Buffer.from_base64.
  rewrite (low_bytes_ascii _ (data_chars_ascii _ (base64url_chars bytes))).
  unfold base64url. rewrite base64_decode_url_safe.
  rewrite <- (append_nil_r (base64_unpadded bytes)).
  apply (base64_decode_unpadded bytes EmptyString). reflexivity.
Qed.

(** *** Round trips of the transport *)

(** X1.  The transport round trip: whatever the bytes, the URL
    [otpauth-migration://offline?data=] followed by their base64 text is
    unwrapped to the bytes.  (The query parser reads a [+] of the text
    as a space; the [replace] of the script makes it a [+] again.) *)
Theorem extractDataFromUrl_base64_round_trip : forall bytes : list byte,
  extractDataFromUrl (migration_url (RFC4648.base64 bytes)) = Return bytes.
Proof.
  intros bytes.
  destruct (data_and_raw _ (base64_chars bytes)) as [Hd Hr].
  rewrite (extractDataFromUrl_migration_url _ Hd), (unescape_raw _ Hd Hr).
  now rewrite from_base64_base64.
Qed.

(** X2.  The same when the base64 text is percent-encoded in the URL, as
    [encodeURIComponent] writes it ([%2B], [%2F], [%3D]). *)
Theorem extractDataFromUrl_escaped_round_trip : forall bytes : list byte,
  extractDataFromUrl (migration_url (Uri.escape (RFC4648.base64 bytes))) = Return bytes.
Proof.
  intros bytes.
  destruct (unescape_escaped _ (base64_chars bytes)) as [Hd He].
  rewrite (extractDataFromUrl_migration_url _ Hd), He.
  now rewrite from_base64_base64.
Qed.

(** X3.  The same for the URL-safe alphabet without padding: [-] and [_]
    are read as [+] and [/], and the decoder needs no [=]. *)
Theorem extractDataFromUrl_base64url_round_trip : forall bytes : list byte,
  extractDataFromUrl (migration_url (base64url bytes)) = Return bytes.
Proof.
  intros bytes.
  destruct (data_and_raw _ (base64url_chars bytes)) as [Hd Hr].
  rewrite (extractDataFromUrl_migration_url _ Hd), (unescape_raw _ Hd Hr).
  now rewrite from_base64_base64url.
Qed.

(** X4.  A URL that gives the [data] parameter twice is refused: the
    query object holds an array there, an array has no [replace], and the
    [TypeError] makes [decodeUrl] return no record. *)
Theorem decodeUrl_data_given_twice : forall d1 d2 : string,
  Url.forall_chars data_char d1 = true ->
  Url.forall_chars data_char d2 = true ->
  extractDataFromUrl (transport_url ("data=" ++ d1 ++ "&data=" ++ d2)) =
    Throw (TypeError "data.replace is not a function") /\
  decodeUrl (transport_url ("data=" ++ d1 ++ "&data=" ++ d2)) =
    ([], [TypeError "data.replace is not a function"]).
Proof.
  intros d1 d2 H1 H2.
  assert (Hq : Url.forall_chars query_char ("data=" ++ d1 ++ "&data=" ++ d2) = true).
  { rewrite !forall_chars_app. repeat (apply andb_true_iff; split); try reflexivity.
    - revert H1. apply forall_chars_impl, data_char_query.
    - revert H2. apply forall_chars_impl, data_char_query. }
  assert (E : extractDataFromUrl (transport_url ("data=" ++ d1 ++ "&data=" ++ d2)) =
              Throw (TypeError "data.replace is not a function")).
  { rewrite (extractDataFromUrl_parsed _ _ (parse_transport_url _ Hq)); try reflexivity.
    cbn [Url.query]. now rewrite (querystring_parse_data_twice d1 d2 H1 H2). }
  split; [exact E|].
  unfold decodeUrl, decodeUrl_try. now rewrite E.
Qed.

Lemma decodeUrl_data_given_twice_witness :
  extractDataFromUrl (transport_url ("data=" ++ "CgcKBUhlbGxv" ++ "&data=" ++ "Cg4K")) =
    Throw (TypeError "data.replace is not a function") /\
  decodeUrl (transport_url ("data=" ++ "CgcKBUhlbGxv" ++ "&data=" ++ "Cg4K")) =
    ([], [TypeError "data.replace is not a function"]).
Proof.
  apply (decodeUrl_data_given_twice "CgcKBUhlbGxv" "Cg4K"); reflexivity.
Defined.

(** ** From the URL to the accounts *)

(** The message of a record, field by field. *)
Lemma message_fields : forall r,
  Expected.message r =
    Protobuf.mkOtpParameters (Some (Wire.secret r))
      (option_map Expected.text (Wire.name r))
      (option_map Expected.text (Wire.issuer r))
      (option_map Protobuf.to_int32 (Wire.algorithm r))
      (option_map Protobuf.to_int32 (Wire.digits r))
      (option_map Protobuf.to_int32 (Wire.type r))
      (Wire.counter r).
Proof.
  intros [s n i a d t c]. unfold Expected.message, Wire.fields.
  cbn [Wire.secret Wire.name Wire.issuer Wire.algorithm Wire.digits Wire.type Wire.counter].
  destruct n, i, a, d, t, c; reflexivity.
Qed.

(** The object [toObject] makes of it. *)
Lemma toObject_message : forall r,
  OtpParameters_toObject (Expected.message r) =
    mkParams (VBuffer (Wire.secret r))
      (optional VString (option_map Expected.text (Wire.name r)))
      (optional VString (option_map Expected.text (Wire.issuer r)))
      (optional (fun n => Protobuf.enum_toObject Protobuf.Algorithm (Protobuf.to_int32 n))
                (Wire.algorithm r))
      (optional (fun n => Protobuf.enum_toObject Protobuf.DigitCount (Protobuf.to_int32 n))
                (Wire.digits r))
      (optional (fun n => Protobuf.enum_toObject Protobuf.OtpType (Protobuf.to_int32 n))
                (Wire.type r))
      (optional (fun n => VString (string_of_N n)) (Wire.counter r)).
Proof.
  intros r. rewrite message_fields. unfold OtpParameters_toObject.
  cbn [Protobuf.secret Protobuf.name Protobuf.issuer Protobuf.algorithm Protobuf.digits
       Protobuf.type Protobuf.counter Protobuf.field].
  destruct (Wire.name r), (Wire.issuer r), (Wire.algorithm r), (Wire.digits r),
    (Wire.type r), (Wire.counter r); reflexivity.
Qed.

(** The account [decodeUrl] makes of a message that has its secret. *)
Lemma account_of_message : forall m bytes,
  Protobuf.secret m = Some bytes ->
  exists uri,
    createOtpauthUrl (OtpParameters_toObject m) = Return uri /\
    account_of (OtpParameters_toObject m) =
      Return (mkAccount (name (OtpParameters_toObject m))
                (issuer (OtpParameters_toObject m))
                (Buffer.toString_hex bytes)
                (type (OtpParameters_toObject m))
                (algorithm (OtpParameters_toObject m))
                (digits (OtpParameters_toObject m))
                uri).
Proof.
  intros m bytes Hs.
  destruct (createOtpauthUrl_of_message m bytes Hs) as [uri [Hc _]].
  exists uri. split; [exact Hc|].
  unfold account_of. rewrite Hc. unfold OtpParameters_toObject at 1.
  cbn [secret]. rewrite Hs. reflexivity.
Qed.

Lemma accounts_of_records : forall records,
  exists accounts,
    map_completion account_of
      (map OtpParameters_toObject (map Expected.message records)) = Return accounts /\
    Forall2 (fun r a =>
               account_of (OtpParameters_toObject (Expected.message r)) = Return a)
            records accounts.
Proof.
  induction records as [|r records [accounts [E F]]].
  - exists []. split; [reflexivity|constructor].
  - destruct (account_of_message (Expected.message r) (Wire.secret r)
                (proj1 (message_secret r))) as [uri [_ Ea]].
    eexists (_ :: accounts). split.
    + cbn [map map_completion]. rewrite Ea. cbn [bind]. rewrite E. reflexivity.
    + constructor; [exact Ea|exact F].
Qed.

(** The whole way: a payload of records, written as base64 in a
    migration URL, gives the account of every record, in order, and
    nothing is logged. *)
Lemma decodeUrl_records : forall records t,
  records <> [] ->
  forallb Wire.record_ok records = true ->
  Wire.trailer_ok t = true ->
  exists accounts,
    decodeUrl (migration_url (RFC4648.base64 (Wire.encode_payload records t))) =
      (accounts, []) /\
    Forall2 (fun r a =>
               account_of (OtpParameters_toObject (Expected.message r)) = Return a)
            records accounts.
Proof.
  intros records t Hne Hr Ht.
  destruct (decode_encode_payload records t Hr Ht) as [message [Hd Hm]].
  destruct (accounts_of_records records) as [accounts [Ha Hf]].
  exists accounts. split; [|exact Hf].
  unfold decodeUrl. rewrite decodeUrl_try_accounts.
  destruct (data_and_raw _ (base64_chars (Wire.encode_payload records t))) as [Hc Hraw].
  rewrite (extractDataFromUrl_migration_url _ Hc), (unescape_raw _ Hc Hraw).
  rewrite from_base64_base64. cbn [bind]. rewrite Hd. cbn [bind].
  unfold accounts_of, Payload_toObject. cbn [otpParameters]. rewrite Hm.
  destruct records as [|r records]; [contradiction|].
  cbn [map] in *. now rewrite Ha.
Qed.

(** *** Enum numbers *)

Lemma to_int32_small : forall n,
  (n < 2147483648)%N -> Protobuf.to_int32 n = Z.of_N n.
Proof.
  intros n H. unfold Protobuf.to_int32, Protobuf.u32.
  rewrite N.mod_small by lia.
  replace (Z.of_N n <? 2147483648)%Z with true by (symmetry; apply Z.ltb_lt; lia).
  reflexivity.
Qed.

Lemma to_int32_range : forall n,
  (n < 4294967296)%N ->
  (Protobuf.to_int32 n < 0)%Z \/ Protobuf.to_int32 n = Z.of_N n.
Proof.
  intros n H. unfold Protobuf.to_int32, Protobuf.u32.
  rewrite N.mod_small by lia.
  destruct (Z.of_N n <? 2147483648)%Z eqn:E; [right; reflexivity|left].
  apply Z.ltb_ge in E. lia.
Qed.

Lemma nth_error_beyond : forall (A : Type) (l : list A) n,
  (N.of_nat (length l) <= n)%N -> nth_error l (N.to_nat n) = None.
Proof. intros A l n H. apply nth_error_None. lia. Qed.

Lemma Algorithm_member : forall n,
  (n < 4294967296)%N ->
  Protobuf.enum_toObject Protobuf.Algorithm (Protobuf.to_int32 n) =
    member Algorithm_members n.
Proof.
  intros n H. destruct (N.lt_ge_cases n 5) as [Hs|Hs].
  - assert (Hn : (n = 0 \/ n = 1 \/ n = 2 \/ n = 3 \/ n = 4)%N) by lia.
    destruct Hn as [ -> | [ -> | [ -> | [ -> | -> ] ] ] ]; reflexivity.
  - unfold member. rewrite nth_error_beyond by (cbn; lia).
    unfold Protobuf.enum_toObject, Protobuf.Algorithm. cbn [Protobuf.valuesById].
    destruct (to_int32_range n H) as [Hz|Hz];
      repeat (match goal with
              | |- context [(?k =? ?z)%Z] =>
                  replace (k =? z)%Z with false by (symmetry; apply Z.eqb_neq; lia)
              end); reflexivity.
Qed.

Lemma DigitCount_member : forall n,
  (n < 4294967296)%N ->
  Protobuf.enum_toObject Protobuf.DigitCount (Protobuf.to_int32 n) =
    member DigitCount_members n.
Proof.
  intros n H. destruct (N.lt_ge_cases n 3) as [Hs|Hs].
  - assert (Hn : (n = 0 \/ n = 1 \/ n = 2)%N) by lia.
    destruct Hn as [ -> | [ -> | -> ] ]; reflexivity.
  - unfold member. rewrite nth_error_beyond by (cbn; lia).
    unfold Protobuf.enum_toObject, Protobuf.DigitCount. cbn [Protobuf.valuesById].
    destruct (to_int32_range n H) as [Hz|Hz];
      repeat (match goal with
              | |- context [(?k =? ?z)%Z] =>
                  replace (k =? z)%Z with false by (symmetry; apply Z.eqb_neq; lia)
              end); reflexivity.
Qed.

Lemma OtpType_member : forall n,
  (n < 4294967296)%N ->
  Protobuf.enum_toObject Protobuf.OtpType (Protobuf.to_int32 n) =
    member OtpType_members n.
Proof.
  intros n H. destruct (N.lt_ge_cases n 3) as [Hs|Hs].
  - assert (Hn : (n = 0 \/ n = 1 \/ n = 2)%N) by lia.
    destruct Hn as [ -> | [ -> | -> ] ]; reflexivity.
  - unfold member. rewrite nth_error_beyond by (cbn; lia).
    unfold Protobuf.enum_toObject, Protobuf.OtpType. cbn [Protobuf.valuesById].
    destruct (to_int32_range n H) as [Hz|Hz];
      repeat (match goal with
              | |- context [(?k =? ?z)%Z] =>
                  replace (k =? z)%Z with false by (symmetry; apply Z.eqb_neq; lia)
              end); reflexivity.
Qed.

(** *** The tables on what [toObject] gives *)

Lemma string_of_Z_head : forall z,
  exists c s, string_of_Z z = String c s /\ Url.any_char "0123456789-" c = true.
Proof.
  intros z. unfold string_of_Z, NilZero.string_of_int.
  destruct (Z.to_int z) as [d|d].
  - unfold NilZero.string_of_uint. destruct d; cbn [NilEmpty.string_of_uint];
      eexists; eexists; split; reflexivity.
  - eexists; eexists; split; reflexivity.
Qed.

Lemma digit_no_letter : forall c,
  Url.any_char "0123456789-" c = true ->
  Ascii.eqb c "A" = false /\ Ascii.eqb c "D" = false /\ Ascii.eqb c "O" = false.
Proof.
  intros [b0 b1 b2 b3 b4 b5 b6 b7];
    destruct b0, b1, b2, b3, b4, b5, b6, b7; vm_compute; repeat split; congruence.
Qed.

(** A number is no key of the tables. *)
Lemma lookup_number : forall z,
  lookup algorithmNames (VNumber z) = VUndefined /\
  lookup digitCounts (VNumber z) = VUndefined /\
  lookup otpTypes (VNumber z) = VUndefined.
Proof.
  intros z. unfold lookup. cbn [ToString].
  destruct (string_of_Z_head z) as [c [s [-> Hc]]].
  destruct (digit_no_letter c Hc) as [Ha [Hd Ho]].
  unfold algorithmNames, digitCounts, otpTypes.
  cbn [lookup_key String.eqb]. rewrite Ha, Hd, Ho. cbn [andb].
  repeat split; reflexivity.
Qed.

Lemma member_cases : forall names n,
  (exists s, nth_error names (N.to_nat n) = Some s /\ member names n = VString s) \/
  (nth_error names (N.to_nat n) = None /\ member names n = VNumber (Protobuf.to_int32 n)).
Proof.
  intros names n. unfold member.
  destruct (nth_error names (N.to_nat n)) as [s|]; [left; eauto|right; auto].
Qed.

Lemma nth_error_cases : forall (A : Type) (l : list A) n,
  nth_error l (N.to_nat n) = None \/
  exists k, (k < length l)%nat /\ n = N.of_nat k.
Proof.
  intros A l n. destruct (nth_error l (N.to_nat n)) eqn:E; [right|now left].
  exists (N.to_nat n). split; [|lia].
  apply nth_error_Some. congruence.
Qed.

(** The table of the algorithms on the member [toObject] gives for the
    number [n]: the canonical name of [n]. *)
Lemma lookup_algorithm_member : forall n,
  lookup algorithmNames (member Algorithm_members n) =
    match nth_error algorithm_canonical (N.to_nat n) with
    | Some s => VString s
    | None => VUndefined
    end.
Proof.
  intros n. unfold member.
  destruct (nth_error_cases _ Algorithm_members n) as [E|[k [Hk ->]]].
  - rewrite E. assert (E' : nth_error algorithm_canonical (N.to_nat n) = None).
    { apply nth_error_None. apply nth_error_None in E. exact E. }
    rewrite E'. apply lookup_number.
  - rewrite Nat2N.id.
    do 5 (destruct k as [|k]; [reflexivity|]). cbn in Hk. lia.
Qed.

Lemma lookup_digits_member : forall n,
  lookup digitCounts (member DigitCount_members n) =
    match nth_error digits_canonical (N.to_nat n) with
    | Some s => VString s
    | None => VUndefined
    end.
Proof.
  intros n. unfold member.
  destruct (nth_error_cases _ DigitCount_members n) as [E|[k [Hk ->]]].
  - rewrite E. assert (E' : nth_error digits_canonical (N.to_nat n) = None).
    { apply nth_error_None. apply nth_error_None in E. exact E. }
    rewrite E'. apply lookup_number.
  - rewrite Nat2N.id.
    do 3 (destruct k as [|k]; [reflexivity|]). cbn in Hk. lia.
Qed.

Lemma lookup_type_member : forall n,
  lookup otpTypes (member OtpType_members n) =
    match nth_error type_canonical (N.to_nat n) with
    | Some s => VString s
    | None => VUndefined
    end.
Proof.
  intros n. unfold member.
  destruct (nth_error_cases _ OtpType_members n) as [E|[k [Hk ->]]].
  - rewrite E. assert (E' : nth_error type_canonical (N.to_nat n) = None).
    { apply nth_error_None. apply nth_error_None in E. exact E. }
    rewrite E'. apply lookup_number.
  - rewrite Nat2N.id.
    do 3 (destruct k as [|k]; [reflexivity|]). cbn in Hk. lia.
Qed.

(** What [record_ok] says of the enum fields. *)
Lemma record_ok_enums : forall r,
  Wire.record_ok r = true ->
  Wire.opt_ok Wire.fits32 (Wire.algorithm r) = true /\
  Wire.opt_ok Wire.fits32 (Wire.digits r) = true /\
  Wire.opt_ok Wire.fits32 (Wire.type r) = true.
Proof.
  intros r H. unfold Wire.record_ok in H.
  repeat (apply andb_true_iff in H; destruct H as [H ?]).
  repeat split; assumption.
Qed.

(** The object of a record that fits the wire format, with the members
    of the enums by name. *)
Lemma toObject_record : forall r,
  Wire.record_ok r = true ->
  OtpParameters_toObject (Expected.message r) =
    mkParams (VBuffer (Wire.secret r))
      (optional VString (option_map Expected.text (Wire.name r)))
      (optional VString (option_map Expected.text (Wire.issuer r)))
      (optional (member Algorithm_members) (Wire.algorithm r))
      (optional (member DigitCount_members) (Wire.digits r))
      (optional (member OtpType_members) (Wire.type r))
      (optional (fun n => VString (string_of_N n)) (Wire.counter r)).
Proof.
  intros r H. rewrite toObject_message.
  destruct (record_ok_enums r H) as [Ha [Hd Ht]].
  destruct (Wire.algorithm r) as [a|], (Wire.digits r) as [d|], (Wire.type r) as [t|];
    cbn [optional Wire.opt_ok] in *;
    rewrite ?(Algorithm_member a) by (now apply fits32_lt);
    rewrite ?(DigitCount_member d) by (now apply fits32_lt);
    rewrite ?(OtpType_member t) by (now apply fits32_lt);
    reflexivity.
Qed.

(** The canonical names of the URI. *)
Lemma lookup_canonical : forall x,
  ToString (lookup algorithmNames (optional (member Algorithm_members) x)) =
    canonical algorithm_canonical x /\
  ToString (lookup digitCounts (optional (member DigitCount_members) x)) =
    canonical digits_canonical x /\
  ToString (lookup otpTypes (optional (member OtpType_members) x)) =
    canonical type_canonical x /\
  (forall lit, String.eqb "undefined" lit = false ->
     strict_eq_string (lookup otpTypes (optional (member OtpType_members) x)) lit =
       String.eqb (canonical type_canonical x) lit).
Proof.
  intros [n|]; cbn [optional canonical].
  - rewrite lookup_algorithm_member, lookup_digits_member, lookup_type_member.
    destruct (nth_error algorithm_canonical (N.to_nat n)),
      (nth_error digits_canonical (N.to_nat n)),
      (nth_error type_canonical (N.to_nat n));
      repeat split; try reflexivity; intros lit Hl; cbn [strict_eq_string];
      now rewrite ?Hl.
  - repeat split; try reflexivity. intros lit Hl.
    change (strict_eq_string VUndefined lit = String.eqb "undefined" lit).
    cbn [strict_eq_string]. now rewrite Hl.
Qed.

Lemma string_of_N_truthy : forall n, truthy (VString (string_of_N n)) = true.
Proof.
  intros n. cbn [truthy]. unfold string_of_N, NilZero.string_of_uint.
  destruct (N.to_uint n); reflexivity.
Qed.

(** *** The account of a record *)

(** The URI [createOtpauthUrl] writes for a record. *)
Lemma createOtpauthUrl_record : forall r,
  Wire.record_ok r = true ->
  createOtpauthUrl (OtpParameters_toObject (Expected.message r)) =
    Return (expected_uri r).
Proof.
  intros r H. rewrite createOtpauthUrl_expected, (toObject_record r H).
  cbn [secret name issuer algorithm digits type counter].
  destruct (secretToBase32_rfc4648 (Wire.secret r)) as [-> _].
  rewrite base32_strip. unfold expected_uri, expected_query, label.
  cbn [secret name issuer algorithm digits type counter].
  destruct (lookup_canonical (Wire.algorithm r)) as [-> _].
  destruct (lookup_canonical (Wire.digits r)) as [_ [-> _]].
  destruct (lookup_canonical (Wire.type r)) as [_ [_ [-> Heq]]].
  rewrite (Heq "hotp" eq_refl), (Heq "totp" eq_refl).
  cbv zeta. apply f_equal. apply f_equal2.
  - unfold Uri.encodeURIComponent. destruct (Wire.name r); reflexivity.
  - apply f_equal.
    destruct (Wire.issuer r) as [i|], (Wire.counter r) as [c|];
      cbn [optional option_map Uri.encodeURIComponent ToString];
      rewrite ?string_of_N_truthy; cbn [truthy];
      rewrite ?andb_true_r, ?andb_false_r;
      try destruct (String.eqb (Expected.text i) "");
      destruct (String.eqb (canonical type_canonical (Wire.type r)) "hotp");
      destruct (String.eqb (canonical type_canonical (Wire.type r)) "totp");
      reflexivity.
Qed.

Lemma account_of_record : forall r a,
  Wire.record_ok r = true ->
  account_of (OtpParameters_toObject (Expected.message r)) = Return a ->
  a = mkAccount
        (optional VString (option_map Expected.text (Wire.name r)))
        (optional VString (option_map Expected.text (Wire.issuer r)))
        (Buffer.toString_hex (Wire.secret r))
        (optional (member OtpType_members) (Wire.type r))
        (optional (member Algorithm_members) (Wire.algorithm r))
        (optional (member DigitCount_members) (Wire.digits r))
        (expected_uri r).
Proof.
  intros r a H Ha.
  destruct (account_of_message (Expected.message r) (Wire.secret r)
              (proj1 (message_secret r))) as [uri [Hc Hacc]].
  rewrite (createOtpauthUrl_record r H) in Hc. apply Return_inj in Hc. subst uri.
  rewrite Hacc in Ha. apply Return_inj in Ha. subst a.
  rewrite (toObject_record r H). reflexivity.
Qed.

Lemma Forall2_records : forall (R Q : Wire.record -> Account -> Prop) records accounts,
  forallb Wire.record_ok records = true ->
  Forall2 R records accounts ->
  (forall r a, Wire.record_ok r = true -> R r a -> Q r a) ->
  Forall2 Q records accounts.
Proof.
  intros R Q records accounts Hok HR Himp.
  induction HR as [|r a records accounts Hra _ IH]; [constructor|].
  cbn [forallb] in Hok. apply andb_true_iff in Hok as [Hr Hrs].
  constructor; [apply Himp; assumption|apply IH, Hrs].
Qed.

(** *** The secret in hexadecimal *)

Lemma hex_byte : forall b,
  hex_value (hex_digit_lower (N.shiftr (Byte.to_N b) 4)) = Some (N.shiftr (Byte.to_N b) 4) /\
  hex_value (hex_digit_lower (N.land (Byte.to_N b) 15)) = Some (N.land (Byte.to_N b) 15) /\
  Buffer.byte_of_N (16 * N.shiftr (Byte.to_N b) 4 + N.land (Byte.to_N b) 15) = b.
Proof. intros b. destruct b; repeat split; reflexivity. Qed.

Lemma hex_decode_toString_hex : forall bytes,
  hex_decode (Buffer.toString_hex bytes) = Some bytes /\
  String.length (Buffer.toString_hex bytes) = (2 * length bytes)%nat.
Proof.
  induction bytes as [|b bytes [IH1 IH2]]; [split; reflexivity|].
  cbn [Buffer.toString_hex hex_decode String.length length].
  destruct (hex_byte b) as [-> [-> ->]]. rewrite IH1, IH2. split; [reflexivity|lia].
Qed.

(** *** The shape of the base32 text *)

Lemma length_string_of_chars : forall cs,
  String.length (RFC4648.string_of_chars cs) = length cs.
Proof. induction cs as [|c cs IH]; [reflexivity|]. cbn. now rewrite IH. Qed.

Lemma length_quintets : forall bits,
  length (RFC4648.quintets bits) = ((length bits + 4) / 5)%nat.
Proof.
  induction bits using list_ind5; try reflexivity.
  cbn [RFC4648.quintets length]. rewrite IHbits.
  replace (S (S (S (S (S (length bits))))) + 4)%nat with (length bits + 4 + 1 * 5)%nat
    by lia.
  rewrite Nat.div_add by lia. lia.
Qed.

Lemma length_bits_of_bytes : forall bytes,
  length (RFC4648.bits_of_bytes bytes) = (8 * length bytes)%nat.
Proof.
  induction bytes as [|b bytes IH]; [reflexivity|].
  unfold RFC4648.bits_of_bytes in *. cbn [flat_map]. rewrite length_app, IH.
  cbn [RFC4648.bits_of_N length]. lia.
Qed.

Lemma char32_alphabet : forall q,
  length q = 5%nat -> is_char32 (RFC4648.char32 (RFC4648.N_of_bits q)) = true.
Proof.
  intros q H. unfold is_char32. now rewrite (value32_char32 q H).
Qed.

Lemma base32_unpadded_shape : forall bytes,
  String.length (RFC4648.base32_unpadded bytes) = ((8 * length bytes + 4) / 5)%nat /\
  Url.forall_chars is_char32 (RFC4648.base32_unpadded bytes) = true.
Proof.
  intros bytes. unfold RFC4648.base32_unpadded. split.
  - now rewrite length_string_of_chars, length_map, length_quintets, length_bits_of_bytes.
  - pose proof (quintets_length5 (RFC4648.bits_of_bytes bytes)) as H.
    induction H as [|q qs Hq Hqs IH]; [reflexivity|].
    cbn [map RFC4648.string_of_chars Url.forall_chars].
    now rewrite (char32_alphabet q Hq), IH.
Qed.

(** *** Properties of the accounts *)

(** X5.  The text [secretToBase32] writes for a buffer of [n] bytes has
    as many characters as [8 n] bits need groups of five, all of them
    from the base32 alphabet [A-Z2-7]: no padding is left. *)
Theorem secretToBase32_shape : forall bytes : list byte,
  exists text : string,
    secretToBase32 (VBuffer bytes) = Return text /\
    String.length text = ((8 * length bytes + 4) / 5)%nat /\
    Url.forall_chars is_char32 text = true.
Proof.
  intros bytes. exists (RFC4648.base32_unpadded bytes).
  destruct (secretToBase32_rfc4648 bytes) as [E _].
  rewrite base32_strip in E. split; [exact E|apply base32_unpadded_shape].
Qed.

(** X6.  The [secret] of an account is the secret of its record in
    lowercase hexadecimal, two digits a byte: reading the digits back
    gives the secret bytes. *)
Theorem decodeUrl_secret_hex : forall (records : list Wire.record) (t : Wire.trailer),
  records <> [] ->
  forallb Wire.record_ok records = true ->
  Wire.trailer_ok t = true ->
  exists accounts : list Account,
    decodeUrl (migration_url (RFC4648.base64 (Wire.encode_payload records t))) =
      (accounts, []) /\
    Forall2 (fun r a =>
               account_secret a = Buffer.toString_hex (Wire.secret r) /\
               String.length (account_secret a) = (2 * length (Wire.secret r))%nat /\
               hex_decode (account_secret a) = Some (Wire.secret r))
            records accounts.
Proof.
  intros records t Hne Hr Ht.
  destruct (decodeUrl_records records t Hne Hr Ht) as [accounts [Hd Hf]].
  exists accounts. split; [exact Hd|].
  apply (Forall2_records _ _ records accounts Hr Hf).
  intros r a Hok Ha. rewrite (account_of_record r a Hok Ha). cbn [account_secret].
  destruct (hex_decode_toString_hex (Wire.secret r)) as [H1 H2]. auto.
Qed.

Lemma decodeUrl_secret_hex_witness :
  exists accounts : list Account,
    decodeUrl (migration_url
                 (RFC4648.base64
                    (Wire.encode_payload Expected.sample_records Expected.sample_trailer))) =
      (accounts, []) /\
    Forall2 (fun r a =>
               account_secret a = Buffer.toString_hex (Wire.secret r) /\
               String.length (account_secret a) = (2 * length (Wire.secret r))%nat /\
               hex_decode (account_secret a) = Some (Wire.secret r))
            Expected.sample_records accounts.
Proof.
  apply (decodeUrl_secret_hex Expected.sample_records Expected.sample_trailer);
    [discriminate|reflexivity|reflexivity].
Defined.

(** X7.  The other columns of an account are the fields of its record:
    name and issuer are the UTF-8 text of the bytes on the wire
    ([undefined] for a field left off), and type, algorithm and digits
    are the members of the schema by name, or the bare number when the
    schema has no member for it.  The text of ASCII bytes is the bytes
    themselves. *)
Theorem decodeUrl_account_fields : forall (records : list Wire.record) (t : Wire.trailer),
  records <> [] ->
  forallb Wire.record_ok records = true ->
  Wire.trailer_ok t = true ->
  exists accounts : list Account,
    decodeUrl (migration_url (RFC4648.base64 (Wire.encode_payload records t))) =
      (accounts, []) /\
    Forall2 (fun r a =>
               account_name a = optional VString (option_map Expected.text (Wire.name r)) /\
               account_issuer a =
                 optional VString (option_map Expected.text (Wire.issuer r)) /\
               account_type a = optional (member OtpType_members) (Wire.type r) /\
               account_algorithm a =
                 optional (member Algorithm_members) (Wire.algorithm r) /\
               account_digits a = optional (member DigitCount_members) (Wire.digits r))
            records accounts /\
    (forall s : string,
       Url.forall_chars (fun c => (Url.code c <? 128)%N) s = true -> Expected.text s = s).
Proof.
  intros records t Hne Hr Ht.
  destruct (decodeUrl_records records t Hne Hr Ht) as [accounts [Hd Hf]].
  exists accounts. split; [exact Hd|]. split; [|exact utf8Slice_ascii].
  apply (Forall2_records _ _ records accounts Hr Hf).
  intros r a Hok Ha. rewrite (account_of_record r a Hok Ha).
  repeat split; reflexivity.
Qed.

Lemma decodeUrl_account_fields_witness :
  exists accounts : list Account,
    decodeUrl (migration_url
                 (RFC4648.base64
                    (Wire.encode_payload Expected.sample_records Expected.sample_trailer))) =
      (accounts, []) /\
    Forall2 (fun r a =>
               account_name a = optional VString (option_map Expected.text (Wire.name r)) /\
               account_issuer a =
                 optional VString (option_map Expected.text (Wire.issuer r)) /\
               account_type a = optional (member OtpType_members) (Wire.type r) /\
               account_algorithm a =
                 optional (member Algorithm_members) (Wire.algorithm r) /\
               account_digits a = optional (member DigitCount_members) (Wire.digits r))
            Expected.sample_records accounts /\
    (forall s : string,
       Url.forall_chars (fun c => (Url.code c <? 128)%N) s = true -> Expected.text s = s).
Proof.
  apply (decodeUrl_account_fields Expected.sample_records Expected.sample_trailer);
    [discriminate|reflexivity|reflexivity].
Defined.

(** X8.  The URI of an account, in full: [otpauth://], the canonical
    type of the record's type number ([totp] for 0 and 2, [hotp] for 1),
    the percent-encoded name, and the parameters secret, issuer (when
    the text is not empty), algorithm and digits (the canonical names of
    the numbers), counter (for [hotp], when the counter is on the wire)
    and [period=30] (for [totp]).  A type, an algorithm or a digit count
    that is left off the wire or that the tables do not know is written
    [undefined]. *)
Theorem decodeUrl_otpauthUrl : forall (records : list Wire.record) (t : Wire.trailer),
  records <> [] ->
  forallb Wire.record_ok records = true ->
  Wire.trailer_ok t = true ->
  exists accounts : list Account,
    decodeUrl (migration_url (RFC4648.base64 (Wire.encode_payload records t))) =
      (accounts, []) /\
    Forall2 (fun r a => otpauthUrl a = expected_uri r) records accounts.
Proof.
  intros records t Hne Hr Ht.
  destruct (decodeUrl_records records t Hne Hr Ht) as [accounts [Hd Hf]].
  exists accounts. split; [exact Hd|].
  apply (Forall2_records _ _ records accounts Hr Hf).
  intros r a Hok Ha. now rewrite (account_of_record r a Hok Ha).
Qed.

Lemma decodeUrl_otpauthUrl_witness :
  exists accounts : list Account,
    decodeUrl (migration_url
                 (RFC4648.base64
                    (Wire.encode_payload Expected.sample_records Expected.sample_trailer))) =
      (accounts, []) /\
    Forall2 (fun r a => otpauthUrl a = expected_uri r) Expected.sample_records accounts.
Proof.
  apply (decodeUrl_otpauthUrl Expected.sample_records Expected.sample_trailer);
    [discriminate|reflexivity|reflexivity].
Defined.

(** *** A record without its secret *)

Lemma account_of_without_secret : forall m,
  Protobuf.secret m = None ->
  account_of (OtpParameters_toObject m) =
    Throw (TypeError "Cannot read properties of undefined (reading 'constructor')").
Proof.
  intros m Hs. unfold account_of. rewrite createOtpauthUrl_expected.
  unfold OtpParameters_toObject at 1. cbn [secret]. rewrite Hs. reflexivity.
Qed.

Lemma map_account_of_without_secret : forall ms,
  (exists m, In m ms /\ Protobuf.secret m = None) ->
  map_completion account_of (map OtpParameters_toObject ms) =
    Throw (TypeError "Cannot read properties of undefined (reading 'constructor')").
Proof.
  induction ms as [|m ms IH]; intros [m0 [Hin Hs]]; [contradiction|].
  cbn [map map_completion].
  destruct (Protobuf.secret m) as [bytes|] eqn:E.
  - destruct (account_of_message m bytes E) as [uri [_ ->]]. cbn [bind].
    destruct Hin as [->|Hin]; [congruence|].
    rewrite IH by eauto. reflexivity.
  - now rewrite (account_of_without_secret m E).
Qed.

(** X9.  One record without a secret voids its whole URL: [base32.encode]
    is given [undefined] and throws inside the [map], so [decodeUrl]
    returns no account at all, also none for the records of the payload
    that have their secret. *)
Theorem decodeUrl_record_without_secret :
  forall (migrationUrl : string) (data : list byte) (message : Protobuf.Payload),
    extractDataFromUrl migrationUrl = Return data ->
    Protobuf.decode data = Return message ->
    (exists m, In m (Protobuf.otpParameters message) /\ Protobuf.secret m = None) ->
    decodeUrl migrationUrl =
      ([], [TypeError "Cannot read properties of undefined (reading 'constructor')"]).
Proof.
  intros u data message Hu Hd Hm.
  unfold decodeUrl. rewrite decodeUrl_try_accounts, Hu. cbn [bind].
  rewrite Hd. cbn [bind]. unfold accounts_of, Payload_toObject. cbn [otpParameters].
  destruct (Protobuf.otpParameters message) as [|m ms] eqn:E.
  - destruct Hm as [m [[] _]].
  - now rewrite (map_account_of_without_secret (m :: ms) Hm).
Qed.

Lemma decodeUrl_record_without_secret_witness :
  decodeUrl "otpauth-migration://offline?data=CgcKBUhlbGxvCgUSA2JvYg==" =
    ([], [TypeError "Cannot read properties of undefined (reading 'constructor')"]).
Proof.
  apply (decodeUrl_record_without_secret
           "otpauth-migration://offline?data=CgcKBUhlbGxvCgUSA2JvYg=="
           [x0a; x07; x0a; x05; x48; x65; x6c; x6c; x6f; x0a; x05; x12; x03; x62; x6f; x62]
           (Protobuf.mkPayload
              [Protobuf.mkOtpParameters (Some [x48; x65; x6c; x6c; x6f]) None None None
                 None None None;
               Protobuf.mkOtpParameters None (Some "bob") None None None None None]
              None None None None)).
  - reflexivity.
  - reflexivity.
  - eexists. split; [right; left; reflexivity|reflexivity].
Defined.

(** ** The characters of a URI *)

Lemma uri_chars_app : forall a b,
  Url.forall_chars uri_char a = true -> Url.forall_chars uri_char b = true ->
  Url.forall_chars uri_char (a ++ b) = true.
Proof. intros a b Ha Hb. now rewrite forall_chars_app, Ha, Hb. Qed.

Lemma escaped_uri_char : forall a,
  Url.forall_chars uri_char
    (if Uri.unreserved a then String a EmptyString else Uri.percent a) = true.
Proof.
  intros [b0 b1 b2 b3 b4 b5 b6 b7];
    destruct b0, b1, b2, b3, b4, b5, b6, b7; reflexivity.
Qed.

Lemma escape_uri_chars : forall s, Url.forall_chars uri_char (Uri.escape s) = true.
Proof.
  induction s as [|a s IH]; [reflexivity|].
  change (Uri.escape (String a s))
    with (if Uri.unreserved a then String a (Uri.escape s)
          else Uri.percent a ++ Uri.escape s).
  pose proof (escaped_uri_char a) as H.
  destruct (Uri.unreserved a).
  - cbn [Url.forall_chars] in *. rewrite andb_true_r in H. now rewrite H, IH.
  - apply uri_chars_app; assumption.
Qed.

Lemma char32_uri_char : forall c, is_char32 c = true -> uri_char c = true.
Proof.
  intros [b0 b1 b2 b3 b4 b5 b6 b7];
    destruct b0, b1, b2, b3, b4, b5, b6, b7; vm_compute; congruence.
Qed.

Lemma digits_uri_chars : forall d,
  Url.forall_chars uri_char (NilEmpty.string_of_uint d) = true.
Proof. induction d; cbn; try reflexivity; exact IHd. Qed.

Lemma string_of_N_uri_chars : forall n, Url.forall_chars uri_char (string_of_N n) = true.
Proof.
  intros n. unfold string_of_N, NilZero.string_of_uint.
  destruct (N.to_uint n); try reflexivity; apply digits_uri_chars.
Qed.

Lemma lookup_uri_chars : forall (t : table) (v : value),
  Forall (fun s => Url.forall_chars uri_char s = true) (map snd t) ->
  Url.forall_chars uri_char (ToString (lookup t v)) = true.
Proof.
  intros t v Ht. unfold lookup.
  destruct (lookup_key_cases t (ToString v)) as [E|[s [Hin E]]]; rewrite E.
  - reflexivity.
  - cbn [ToString]. rewrite Forall_forall in Ht. apply Ht, Hin.
Qed.

Lemma tables_uri_chars :
  Forall (fun s => Url.forall_chars uri_char s = true) (map snd otpTypes) /\
  Forall (fun s => Url.forall_chars uri_char s = true) (map snd algorithmNames) /\
  Forall (fun s => Url.forall_chars uri_char s = true) (map snd digitCounts).
Proof. repeat split; repeat constructor. Qed.

Lemma join_uri_chars : forall parts,
  Forall (fun s => Url.forall_chars uri_char s = true) parts ->
  Url.forall_chars uri_char (join "&" parts) = true.
Proof.
  induction parts as [|p ps IH]; intros H; [reflexivity|].
  inversion H as [|? ? Hp Hps]; subst.
  destruct ps as [|p' ps]; [exact Hp|].
  change (join "&" (p :: p' :: ps)) with (p ++ "&" ++ join "&" (p' :: ps)).
  apply uri_chars_app; [exact Hp|]. apply (uri_chars_app "&"); [reflexivity|].
  apply IH, Hps.
Qed.

Lemma glue_uri_chars : forall k v,
  Url.forall_chars uri_char k = true -> Url.forall_chars uri_char v = true ->
  Url.forall_chars uri_char (glue (k, v)) = true.
Proof.
  intros k v Hk Hv. unfold glue. cbn [fst snd].
  apply uri_chars_app; [exact Hk|]. cbn [Url.forall_chars]. exact Hv.
Qed.

Lemma expected_query_uri_chars : forall params b32,
  Url.forall_chars uri_char b32 = true ->
  Url.forall_chars uri_char (ToString (counter params)) = true ->
  Forall (fun s => Url.forall_chars uri_char s = true)
         (map glue (expected_query params b32)).
Proof.
  intros params b32 Hb Hc. unfold expected_query.
  destruct tables_uri_chars as [Ht [Ha Hd]].
  destruct (truthy (issuer params));
    destruct (strict_eq_string (lookup otpTypes (type params)) "hotp" &&
              truthy (counter params));
    destruct (strict_eq_string (lookup otpTypes (type params)) "totp");
    cbn [app map]; repeat constructor;
    apply glue_uri_chars; try reflexivity; try assumption;
    first [ apply escape_uri_chars | apply lookup_uri_chars; assumption ].
Qed.

(** X10.  Whatever the record, the URI [createOtpauthUrl] returns for
    what the decoder hands it is written with the characters
    [encodeURIComponent] leaves alone, the percent sign and the
    delimiters [: / ? & =] only: no space, no quote, no angle bracket and
    no byte outside ASCII is ever in it. *)
Theorem createOtpauthUrl_characters :
  forall (m : Protobuf.OtpParameters) (uri : string),
    createOtpauthUrl (OtpParameters_toObject m) = Return uri ->
    Url.forall_chars uri_char uri = true.
Proof.
  intros m uri H. rewrite createOtpauthUrl_expected in H.
  destruct (secretToBase32 (secret (OtpParameters_toObject m))) as [b32|e] eqn:E;
    [|discriminate].
  apply Return_inj in H. subst uri. unfold uri_text.
  assert (Hb : Url.forall_chars uri_char b32 = true).
  { unfold OtpParameters_toObject in E. cbn [secret] in E.
    destruct (Protobuf.secret m) as [bytes|]; cbn [Protobuf.field] in E;
      [|discriminate].
    destruct (secretToBase32_rfc4648 bytes) as [E' _]. rewrite E' in E.
    apply Return_inj in E. subst b32. rewrite base32_strip.
    destruct (base32_unpadded_shape bytes) as [_ Hs].
    revert Hs. apply forall_chars_impl, char32_uri_char. }
  assert (Hc : Url.forall_chars uri_char
                 (ToString (counter (OtpParameters_toObject m))) = true).
  { unfold OtpParameters_toObject. cbn [counter].
    destruct (Protobuf.counter m); cbn [Protobuf.field ToString];
      [apply string_of_N_uri_chars|reflexivity]. }
  apply uri_chars_app.
  - apply (uri_chars_app "otpauth://"); [reflexivity|].
    apply uri_chars_app; [apply lookup_uri_chars, tables_uri_chars|].
    apply (uri_chars_app "/"); [reflexivity|].
    apply uri_chars_app; [apply escape_uri_chars|reflexivity].
  - apply join_uri_chars, expected_query_uri_chars; assumption.
Qed.

Lemma createOtpauthUrl_characters_witness :
  Url.forall_chars uri_char
    "otpauth://hotp/bob%20%26%20%3Cco%3E?secret=AAAQE&issuer=A%3DB&algorithm=SHA1&digits=8&counter=5" =
    true.
Proof.
  apply (createOtpauthUrl_characters
           (Protobuf.mkOtpParameters (Some [x00; x01; x02]) (Some "bob & <co>")
              (Some "A=B") (Some 1%Z) (Some 2%Z) (Some 1%Z) (Some 5%N))).
  reflexivity.
Defined.

(** ** The page *)

Lemma contains_refl : forall x, contains x x.
Proof. intros x. exists EmptyString, EmptyString. now rewrite append_nil_r. Qed.

Lemma contains_app : forall x a b c, contains x b -> contains x (a ++ b ++ c).
Proof.
  intros x a b c [p [q ->]]. exists (a ++ p), (q ++ c).
  now rewrite !append_assoc.
Qed.

Lemma contains_trans : forall x y z, contains x y -> contains y z -> contains x z.
Proof.
  intros x y z Hxy [p [q ->]]. now apply contains_app.
Qed.

Lemma contains_join : forall x parts,
  In x parts -> contains x (join EmptyString parts).
Proof.
  intros x parts. induction parts as [|p ps IH]; intros H; [contradiction|].
  destruct ps as [|p' ps].
  - destruct H as [->|[]]. apply contains_refl.
  - change (join EmptyString (p :: p' :: ps)) with (p ++ join EmptyString (p' :: ps)).
    destruct H as [->|H].
    + exists EmptyString, (join EmptyString (p' :: ps)). reflexivity.
    + apply (contains_app x p _ EmptyString) in IH; [|exact H].
      now rewrite append_nil_r in IH.
Qed.

(** The rows are in the page, and every row is in the rows. *)
Lemma generateHtml_rows : forall accounts a,
  In a accounts -> contains (Page.row a) (Page.generateHtml accounts).
Proof.
  intros accounts a H. unfold Page.generateHtml.
  apply (contains_trans _ (join EmptyString (map Page.row accounts))).
  - apply contains_join, in_map, H.
  - apply contains_join. cbn [In]. repeat (first [left; reflexivity | right]).
Qed.

(** The first cell of a row: the name as it is. *)
Lemma row_name : forall a s,
  account_name (Page.account a) = VString s -> s <> EmptyString ->
  contains ("<td>" ++ s ++ "</td>") (Page.row a).
Proof.
  intros a s Hn Hs. unfold Page.row. rewrite Hn.
  assert (E : Page.or_dash (VString s) = s).
  { unfold Page.or_dash. cbn [truthy ToString].
    destruct s; [congruence|reflexivity]. }
  rewrite E.
  eexists "
    <tr>
      ", _.
  cbn [join]. rewrite !append_assoc. cbn [append]. reflexivity.
Qed.

(** *** [generateQRCodes] *)

Lemma generateQRCodes_returns : forall toDataURL (qr : string -> string) accounts,
  (forall a, In a accounts -> toDataURL (otpauthUrl a) = Return (qr (otpauthUrl a))) ->
  Page.generateQRCodes toDataURL accounts =
    Return (map (fun a => Page.mkAccountQR a (qr (otpauthUrl a))) accounts).
Proof.
  intros toDataURL qr. unfold Page.generateQRCodes.
  induction accounts as [|a accounts IH]; intros H; [reflexivity|].
  cbn [map_completion map]. rewrite (H a (or_introl eq_refl)). cbn [bind].
  rewrite IH by (intros b Hb; apply H; right; exact Hb). reflexivity.
Qed.

Lemma generateQRCodes_throws : forall toDataURL accounts,
  (exists a, In a accounts /\ is_throw (toDataURL (otpauthUrl a)) = true) ->
  exists error, Page.generateQRCodes toDataURL accounts = Throw error.
Proof.
  intros toDataURL. unfold Page.generateQRCodes.
  induction accounts as [|a accounts IH]; intros [b [Hin Hb]]; [contradiction|].
  cbn [map_completion].
  destruct (toDataURL (otpauthUrl a)) as [url|e] eqn:E; cbn [bind]; [|eauto].
  destruct Hin as [->|Hin]; [rewrite E in Hb; discriminate|].
  destruct (IH (ex_intro _ b (conj Hin Hb))) as [e ->]. cbn [bind]. eauto.
Qed.

Lemma length_zero : forall (A : Type) (l : list A),
  (length l =? 0)%nat = match l with [] => true | _ => false end.
Proof. intros A [|x l]; reflexivity. Qed.

Lemma not_written_in_errors : forall errors path content,
  ~ In (Page.FileWritten path content)
       (map (Page.ConsoleError "Error decoding migration data:") errors).
Proof.
  intros errors path content H. apply in_map_iff in H as [e [He _]]. discriminate.
Qed.

(** X11.  No page unless every QR code is drawn: when the URLs give no
    account, or when [qrcode.toDataURL] fails for the URI of one account,
    the run ends after the errors of the decoding with one more line
    ([No valid accounts found.], or the error under [Error processing
    URLs:]) and writes no file, also not for the accounts whose QR code
    was drawn. *)
Theorem processAllUrls_no_page :
  forall (toDataURL : string -> completion string) (outputPath : string)
         (writeFileSync : string -> string -> completion unit)
         (migrationUrls : list string),
    fst (processAllUrls migrationUrls) = [] \/
    (exists a, In a (fst (processAllUrls migrationUrls)) /\
               is_throw (toDataURL (otpauthUrl a)) = true) ->
    (exists final,
       Page.processAllUrls toDataURL outputPath writeFileSync migrationUrls =
         (map (Page.ConsoleError "Error decoding migration data:")
              (snd (processAllUrls migrationUrls)) ++ [final])%list /\
       (final = Page.ConsoleLog "No valid accounts found." \/
        exists error, final = Page.ConsoleError "Error processing URLs:" error)) /\
    (forall path content,
       ~ In (Page.FileWritten path content)
            (Page.processAllUrls toDataURL outputPath writeFileSync migrationUrls)).
Proof.
  intros toDataURL outputPath writeFileSync urls H.
  assert (G : exists final,
            Page.processAllUrls toDataURL outputPath writeFileSync urls =
              (map (Page.ConsoleError "Error decoding migration data:")
                   (snd (processAllUrls urls)) ++ [final])%list /\
            (final = Page.ConsoleLog "No valid accounts found." \/
             exists error, final = Page.ConsoleError "Error processing URLs:" error)).
  { unfold Page.processAllUrls.
    destruct (processAllUrls urls) as [accounts errors]. cbn [fst snd] in *.
    rewrite length_zero.
    destruct accounts as [|a accounts].
    - eexists. split; [reflexivity|left; reflexivity].
    - destruct H as [H|H]; [discriminate|].
      destruct (generateQRCodes_throws toDataURL (a :: accounts) H) as [e ->].
      eexists. split; [reflexivity|right; eauto]. }
  split; [exact G|].
  destruct G as [final [-> Hf]]. intros path content Hin.
  apply in_app_or in Hin as [Hin|[Hin|[]]].
  - exact (not_written_in_errors _ _ _ Hin).
  - destruct Hf as [->|[e ->]]; discriminate.
Qed.

Lemma processAllUrls_no_page_witness :
  (exists final,
     Page.processAllUrls
       (fun _ => Throw (Error "The amount of data is too big to be stored in a QR Code"))
       "otp_accounts.html" (fun _ _ => Return tt)
       ["otpauth-migration://offline?data=Cg4KBUhlbGxvEgVhbGljZQ=="] =
       (map (Page.ConsoleError "Error decoding migration data:")
            (snd (processAllUrls
                    ["otpauth-migration://offline?data=Cg4KBUhlbGxvEgVhbGljZQ=="])) ++
        [final])%list /\
     (final = Page.ConsoleLog "No valid accounts found." \/
      exists error, final = Page.ConsoleError "Error processing URLs:" error)) /\
  (forall path content,
     ~ In (Page.FileWritten path content)
          (Page.processAllUrls
             (fun _ => Throw (Error "The amount of data is too big to be stored in a QR Code"))
             "otp_accounts.html" (fun _ _ => Return tt)
             ["otpauth-migration://offline?data=Cg4KBUhlbGxvEgVhbGljZQ=="])).
Proof.
  apply (processAllUrls_no_page
           (fun _ => Throw (Error "The amount of data is too big to be stored in a QR Code"))
           "otp_accounts.html" (fun _ _ => Return tt)
           ["otpauth-migration://offline?data=Cg4KBUhlbGxvEgVhbGljZQ=="]).
  right.
  exists (mkAccount (VString "alice") VUndefined "48656c6c6f" VUndefined VUndefined VUndefined
            "otpauth://undefined/alice?secret=JBSWY3DP&algorithm=undefined&digits=undefined").
  split; [vm_compute; left; reflexivity|reflexivity].
Defined.

(** X12.  The page: when the URLs give an account or more, every QR code
    is drawn and the file can be written, the run logs the errors of the
    decoding, writes one file, the page of all the accounts in the order
    of the URLs, each with its QR code, and ends with the two lines that
    name the file and count the accounts. *)
Theorem processAllUrls_page :
  forall (toDataURL : string -> completion string) (qr : string -> string)
         (outputPath : string) (writeFileSync : string -> string -> completion unit)
         (migrationUrls : list string),
    fst (processAllUrls migrationUrls) <> [] ->
    (forall a, In a (fst (processAllUrls migrationUrls)) ->
               toDataURL (otpauthUrl a) = Return (qr (otpauthUrl a))) ->
    writeFileSync outputPath
      (Page.generateHtml
         (map (fun a => Page.mkAccountQR a (qr (otpauthUrl a)))
              (fst (processAllUrls migrationUrls)))) = Return tt ->
    Page.processAllUrls toDataURL outputPath writeFileSync migrationUrls =
      (map (Page.ConsoleError "Error decoding migration data:")
           (snd (processAllUrls migrationUrls)) ++
       [ Page.FileWritten outputPath
           (Page.generateHtml
              (map (fun a => Page.mkAccountQR a (qr (otpauthUrl a)))
                   (fst (processAllUrls migrationUrls))));
         Page.ConsoleLog ("HTML file generated: " ++ outputPath);
         Page.ConsoleLog ("Total accounts: " ++
                          string_of_N (N.of_nat (length (fst (processAllUrls migrationUrls))))) ])%list.
Proof.
  intros toDataURL qr outputPath writeFileSync urls Hne Hqr Hw.
  unfold Page.processAllUrls.
  destruct (processAllUrls urls) as [accounts errors]. cbn [fst snd] in *.
  rewrite length_zero. destruct accounts as [|a accounts]; [congruence|].
  rewrite (generateQRCodes_returns toDataURL qr (a :: accounts) Hqr).
  cbv zeta. rewrite Hw. reflexivity.
Qed.

Lemma processAllUrls_page_witness :
  Page.processAllUrls (fun uri => Return ("data:image/png;base64," ++ uri))
    "otp_accounts.html" (fun _ _ => Return tt)
    ["https://offline?data=Cg4KBUhlbGxvEgVhbGljZQ==";
     "otpauth-migration://offline?data=Cg4KBUhlbGxvEgVhbGljZQ=="] =
    (map (Page.ConsoleError "Error decoding migration data:")
         (snd (processAllUrls
                 ["https://offline?data=Cg4KBUhlbGxvEgVhbGljZQ==";
                  "otpauth-migration://offline?data=Cg4KBUhlbGxvEgVhbGljZQ=="])) ++
     [ Page.FileWritten "otp_accounts.html"
         (Page.generateHtml
            (map (fun a => Page.mkAccountQR a ("data:image/png;base64," ++ otpauthUrl a))
                 (fst (processAllUrls
                         ["https://offline?data=Cg4KBUhlbGxvEgVhbGljZQ==";
                          "otpauth-migration://offline?data=Cg4KBUhlbGxvEgVhbGljZQ=="]))));
       Page.ConsoleLog ("HTML file generated: " ++ "otp_accounts.html");
       Page.ConsoleLog
         ("Total accounts: " ++
          string_of_N
            (N.of_nat
               (length (fst (processAllUrls
                               ["https://offline?data=Cg4KBUhlbGxvEgVhbGljZQ==";
                                "otpauth-migration://offline?data=Cg4KBUhlbGxvEgVhbGljZQ=="]))))) ])%list.
Proof.
  apply (processAllUrls_page (fun uri => Return ("data:image/png;base64," ++ uri))
           (fun uri => "data:image/png;base64," ++ uri)
           "otp_accounts.html" (fun _ _ => Return tt)
           ["https://offline?data=Cg4KBUhlbGxvEgVhbGljZQ==";
            "otpauth-migration://offline?data=Cg4KBUhlbGxvEgVhbGljZQ=="]).
  - discriminate.
  - intros a _. reflexivity.
  - reflexivity.
Defined.

(** *** From the wire to the page *)

Lemma Forall2_In : forall (A B : Type) (R : A -> B -> Prop) l l' x,
  Forall2 R l l' -> In x l -> exists y, In y l' /\ R x y.
Proof.
  intros A B R l l' x H. induction H as [|a b l l' Hab _ IH]; intros Hin; [contradiction|].
  destruct Hin as [->|Hin].
  - exists b. split; [left; reflexivity|exact Hab].
  - destruct (IH Hin) as [y [Hy Hr]]. exists y. split; [right; exact Hy|exact Hr].
Qed.

Lemma processAllUrls_one : forall url accounts,
  decodeUrl url = (accounts, []) -> processAllUrls [url] = (accounts, []).
Proof.
  intros url accounts H. unfold processAllUrls. cbn [map concat fst snd].
  rewrite H. cbn [fst snd]. now rewrite app_nil_r.
Qed.

(** X13.  Nothing is escaped on the way to the page: the name of a
    record, a text of ASCII characters, stands in the written file
    between [<td>] and [</td>] character for character, markup included. *)
Theorem processAllUrls_name_verbatim :
  forall (toDataURL : string -> completion string) (qr : string -> string)
         (outputPath : string) (writeFileSync : string -> string -> completion unit)
         (records : list Wire.record) (t : Wire.trailer) (r : Wire.record) (s : string),
    forallb Wire.record_ok records = true ->
    Wire.trailer_ok t = true ->
    In r records ->
    Wire.name r = Some s ->
    s <> EmptyString ->
    Url.forall_chars (fun c => (Url.code c <? 128)%N) s = true ->
    (forall uri, toDataURL uri = Return (qr uri)) ->
    (forall content, writeFileSync outputPath content = Return tt) ->
    exists content,
      In (Page.FileWritten outputPath content)
         (Page.processAllUrls toDataURL outputPath writeFileSync
            [migration_url (RFC4648.base64 (Wire.encode_payload records t))]) /\
      contains ("<td>" ++ s ++ "</td>") content.
Proof.
  intros toDataURL qr outputPath writeFileSync records t r s Hr Ht Hin Hn Hs Hascii Hqr Hw.
  assert (Hne : records <> []) by (intros ->; contradiction).
  destruct (decodeUrl_records records t Hne Hr Ht) as [accounts [Hd Hf]].
  destruct (Forall2_In _ _ _ _ _ r Hf Hin) as [a [Ha Hra]].
  assert (Hok : Wire.record_ok r = true) by exact (proj1 (forallb_forall _ _) Hr r Hin).
  apply (account_of_record r a Hok) in Hra.
  assert (Hname : account_name a = VString s).
  { rewrite Hra. cbn [account_name]. rewrite Hn. cbn [option_map optional].
    unfold Expected.text. now rewrite (utf8Slice_ascii s Hascii). }
  unfold Page.processAllUrls.
  rewrite (processAllUrls_one _ accounts Hd). cbn [fst snd map app].
  rewrite length_zero. destruct accounts as [|a0 accounts]; [contradiction|].
  rewrite (generateQRCodes_returns toDataURL qr (a0 :: accounts) (fun b _ => Hqr _)).
  cbv zeta. rewrite Hw.
  eexists. split; [left; reflexivity|].
  apply (contains_trans _ (Page.row (Page.mkAccountQR a (qr (otpauthUrl a))))).
  - apply row_name; assumption.
  - apply generateHtml_rows.
    apply (in_map (fun a => Page.mkAccountQR a (qr (otpauthUrl a))) _ _ Ha).
Qed.

Lemma processAllUrls_name_verbatim_witness :
  exists content,
    In (Page.FileWritten "otp_accounts.html" content)
       (Page.processAllUrls (fun uri => Return ("data:image/png;base64," ++ uri))
          "otp_accounts.html" (fun _ _ => Return tt)
          [migration_url
             (RFC4648.base64
                (Wire.encode_payload
                   [Wire.mkRecord [x48; x65; x6c; x6c; x6f] (Some "<b>x</b>") None None None
                      None None]
                   Expected.sample_trailer))]) /\
    contains ("<td>" ++ "<b>x</b>" ++ "</td>") content.
Proof.
  apply (processAllUrls_name_verbatim
           (fun uri => Return ("data:image/png;base64," ++ uri))
           (fun uri => "data:image/png;base64," ++ uri)
           "otp_accounts.html" (fun _ _ => Return tt)
           [Wire.mkRecord [x48; x65; x6c; x6c; x6f] (Some "<b>x</b>") None None None
              None None]
           Expected.sample_trailer
           (Wire.mkRecord [x48; x65; x6c; x6c; x6f] (Some "<b>x</b>") None None None
              None None)
           "<b>x</b>").
  - reflexivity.
  - reflexivity.
  - left; reflexivity.
  - reflexivity.
  - discriminate.
  - reflexivity.
  - reflexivity.
  - reflexivity.
Defined.

(** *** Several URLs *)



(** *** The command line *)

(** X15.  What a run writes: for every command line, a file is written
    only under the path of the page, only when an argument after the
    first two decodes to an account, and then the process is not made to
    exit; no run writes two files. *)
Theorem main_writes_only_the_page :
  forall (toDataURL : string -> completion string) (outputPath : string)
         (writeFileSync : string -> string -> completion unit)
         (argv : list string) (path content : string),
    In (Page.FileWritten path content)
       (fst (Page.main toDataURL outputPath writeFileSync argv)) ->
    path = outputPath /\
    (exists url, In url (skipn 2 argv) /\ fst (decodeUrl url) <> []) /\
    snd (Page.main toDataURL outputPath writeFileSync argv) = None /\
    (forall path' content',
       In (Page.FileWritten path' content')
          (fst (Page.main toDataURL outputPath writeFileSync argv)) ->
       Page.FileWritten path' content' = Page.FileWritten path content).
Proof.
  intros toDataURL outputPath writeFileSync argv path content.
  unfold Page.main. cbv zeta. rewrite length_zero.
  destruct (skipn 2 argv) as [|u us] eqn:E; cbn [fst snd].
  { intros [H|[]]. discriminate. }
  unfold Page.processAllUrls.
  destruct (processAllUrls (u :: us)) as [accounts errors] eqn:P.
  rewrite length_zero.
  assert (Hsome : accounts <> [] -> exists url, In url (u :: us) /\ fst (decodeUrl url) <> []).
  { intros Hne. apply (f_equal fst) in P. cbn [fst] in P. subst accounts.
    clear E. unfold processAllUrls in Hne. cbn [fst] in Hne.
    induction (u :: us) as [|v vs IH]; [now elim Hne|].
    cbn [map concat] in Hne.
    destruct (fst (decodeUrl v)) as [|a l] eqn:D.
    - destruct (IH Hne) as [url [Hin Hu]]. exists url. split; [right; exact Hin|exact Hu].
    - exists v. split; [left; reflexivity|]. rewrite D. discriminate. }
  destruct accounts as [|a accounts].
  { intros H. apply in_app_or in H as [H|[H|[]]].
    - elim (not_written_in_errors _ _ _ H).
    - discriminate. }
  specialize (Hsome ltac:(discriminate)).
  destruct (Page.generateQRCodes toDataURL (a :: accounts)) as [withQR|e].
  2:{ intros H. apply in_app_or in H as [H|[H|[]]].
      - elim (not_written_in_errors _ _ _ H).
      - discriminate. }
  cbv zeta.
  destruct (writeFileSync outputPath (Page.generateHtml withQR)) as [[]|e].
  2:{ intros H. apply in_app_or in H as [H|[H|[]]].
      - elim (not_written_in_errors _ _ _ H).
      - discriminate. }
  intros H. apply in_app_or in H as [H|[H|[H|[H|[]]]]]; try discriminate.
  { elim (not_written_in_errors _ _ _ H). }
  injection H as <- <-.
  split; [reflexivity|]. split; [exact Hsome|]. split; [reflexivity|].
  intros p c H. apply in_app_or in H as [H|[H|[H|[H|[]]]]]; try discriminate.
  - elim (not_written_in_errors _ _ _ H).
  - symmetry. exact H.
Qed.

Lemma main_writes_only_the_page_witness :
  "otp_accounts.html" = "otp_accounts.html" /\
  (exists url,
     In url (skipn 2 ["node"; "generate-html.js";
                      "otpauth-migration://offline?data=Cg4KBUhlbGxvEgVhbGljZQ=="]) /\
     fst (decodeUrl url) <> []) /\
  snd (Page.main (fun uri => Return ("data:image/png;base64," ++ uri))
         "otp_accounts.html" (fun _ _ => Return tt)
         ["node"; "generate-html.js";
          "otpauth-migration://offline?data=Cg4KBUhlbGxvEgVhbGljZQ=="]) = None /\
  (forall path' content',
     In (Page.FileWritten path' content')
        (fst (Page.main (fun uri => Return ("data:image/png;base64," ++ uri))
                "otp_accounts.html" (fun _ _ => Return tt)
                ["node"; "generate-html.js";
                 "otpauth-migration://offline?data=Cg4KBUhlbGxvEgVhbGljZQ=="])) ->
     Page.FileWritten path' content' =
       Page.FileWritten "otp_accounts.html"
         (Page.generateHtml
            (map (fun a => Page.mkAccountQR a ("data:image/png;base64," ++ otpauthUrl a))
                 (fst (decodeUrl
                         "otpauth-migration://offline?data=Cg4KBUhlbGxvEgVhbGljZQ=="))))).
Proof.
  apply (main_writes_only_the_page
           (fun uri => Return ("data:image/png;base64," ++ uri))
           "otp_accounts.html" (fun _ _ => Return tt)
           ["node"; "generate-html.js";
            "otpauth-migration://offline?data=Cg4KBUhlbGxvEgVhbGljZQ=="]
           "otp_accounts.html"
           (Page.generateHtml
              (map (fun a => Page.mkAccountQR a ("data:image/png;base64," ++ otpauthUrl a))
                   (fst (decodeUrl
                           "otpauth-migration://offline?data=Cg4KBUhlbGxvEgVhbGljZQ=="))))).
  vm_compute. left. reflexivity.
Defined.

(** ** The lenient decoder against its reference *)

Lemma unbase64_value64 : forall c, Buffer.unbase64 c = value64 c.
Proof.
  intros [b0 b1 b2 b3 b4 b5 b6 b7];
    destruct b0, b1, b2, b3, b4, b5, b6, b7; reflexivity.
Qed.

Lemma value64_lt : forall c v, value64 c = Some v -> (v < 64)%N.
Proof.
  intros [b0 b1 b2 b3 b4 b5 b6 b7] v;
    destruct b0, b1, b2, b3, b4, b5, b6, b7; vm_compute;
    intros H; first [discriminate | injection H as <-; reflexivity].
Qed.

(** A property of two numbers of six bits, checked on all of them. *)
Lemma forall_sextets2 : forall P : N -> N -> bool,
  forallb (fun a =>
             forallb (fun b =>
                        if (Byte.to_N a <? 64)%N && (Byte.to_N b <? 64)%N
                        then P (Byte.to_N a) (Byte.to_N b) else true)
                     all_bytes)
          all_bytes = true ->
  forall hi lo, (hi < 64)%N -> (lo < 64)%N -> P hi lo = true.
Proof.
  intros P H hi lo Hh Hl.
  pose proof (forall_bytes2 _ H (Buffer.byte_of_N hi) (Buffer.byte_of_N lo)) as G.
  cbv beta in G. rewrite !to_N_byte_of_N in G by lia.
  replace (hi <? 64)%N with true in G by (symmetry; apply N.ltb_lt; exact Hh).
  replace (lo <? 64)%N with true in G by (symmetry; apply N.ltb_lt; exact Hl).
  exact G.
Qed.

(** The three bytes of a group of four characters, as bits. *)
Lemma byte_of_sextets_1 : forall hi lo,
  (hi < 64)%N -> (lo < 64)%N ->
  Buffer.byte_of_N (N.lor (N.shiftl (N.land hi 63) 2) (N.shiftr (N.land lo 48) 4)) =
    RFC4648.byte_of_bits
      [N.testbit hi 5; N.testbit hi 4; N.testbit hi 3; N.testbit hi 2; N.testbit hi 1;
       N.testbit hi 0; N.testbit lo 5; N.testbit lo 4].
Proof.
  intros hi lo Hh Hl. apply Byte.byte_dec_bl. revert hi lo Hh Hl.
  apply (forall_sextets2
           (fun hi lo =>
              Byte.eqb
                (Buffer.byte_of_N
                   (N.lor (N.shiftl (N.land hi 63) 2) (N.shiftr (N.land lo 48) 4)))
                (RFC4648.byte_of_bits
                   [N.testbit hi 5; N.testbit hi 4; N.testbit hi 3; N.testbit hi 2;
                    N.testbit hi 1; N.testbit hi 0; N.testbit lo 5; N.testbit lo 4]))).
  vm_compute. reflexivity.
Qed.

Lemma byte_of_sextets_2 : forall hi lo,
  (hi < 64)%N -> (lo < 64)%N ->
  Buffer.byte_of_N (N.lor (N.shiftl (N.land hi 15) 4) (N.shiftr (N.land lo 60) 2)) =
    RFC4648.byte_of_bits
      [N.testbit hi 3; N.testbit hi 2; N.testbit hi 1; N.testbit hi 0; N.testbit lo 5;
       N.testbit lo 4; N.testbit lo 3; N.testbit lo 2].
Proof.
  intros hi lo Hh Hl. apply Byte.byte_dec_bl. revert hi lo Hh Hl.
  apply (forall_sextets2
           (fun hi lo =>
              Byte.eqb
                (Buffer.byte_of_N
                   (N.lor (N.shiftl (N.land hi 15) 4) (N.shiftr (N.land lo 60) 2)))
                (RFC4648.byte_of_bits
                   [N.testbit hi 3; N.testbit hi 2; N.testbit hi 1; N.testbit hi 0;
                    N.testbit lo 5; N.testbit lo 4; N.testbit lo 3; N.testbit lo 2]))).
  vm_compute. reflexivity.
Qed.

Lemma byte_of_sextets_3 : forall hi lo,
  (hi < 64)%N -> (lo < 64)%N ->
  Buffer.byte_of_N (N.lor (N.shiftl (N.land hi 3) 6) (N.land lo 63)) =
    RFC4648.byte_of_bits
      [N.testbit hi 1; N.testbit hi 0; N.testbit lo 5; N.testbit lo 4; N.testbit lo 3;
       N.testbit lo 2; N.testbit lo 1; N.testbit lo 0].
Proof.
  intros hi lo Hh Hl. apply Byte.byte_dec_bl. revert hi lo Hh Hl.
  apply (forall_sextets2
           (fun hi lo =>
              Byte.eqb
                (Buffer.byte_of_N (N.lor (N.shiftl (N.land hi 3) 6) (N.land lo 63)))
                (RFC4648.byte_of_bits
                   [N.testbit hi 1; N.testbit hi 0; N.testbit lo 5; N.testbit lo 4;
                    N.testbit lo 3; N.testbit lo 2; N.testbit lo 1; N.testbit lo 0]))).
  vm_compute. reflexivity.
Qed.

(** Node's decoder, from any point of a group of four, gives the whole
    bytes of the bits it carries and of the bits of the characters it
    reads. *)
Lemma base64_decode_carried : forall s phase hi,
  (phase <= 3)%nat -> (hi < 64)%N ->
  Buffer.base64_decode phase hi s =
    map RFC4648.byte_of_bits
        (RFC4648.octets (carried phase hi ++ flat_map (RFC4648.bits_of_N 6) (values64 s))).
Proof.
  induction s as [|c s IH]; intros phase hi Hp Hh.
  - destruct phase as [|[|[|[|phase]]]]; try lia; reflexivity.
  - cbn [Buffer.base64_decode values64]. rewrite unbase64_value64.
    destruct (value64 c) as [lo|] eqn:E.
    + pose proof (value64_lt c lo E) as Hl.
      cbn [flat_map].
      destruct phase as [|[|[|[|phase]]]]; try lia.
      * rewrite (IH 1%nat lo) by (lia || exact Hl). reflexivity.
      * rewrite (IH 2%nat lo) by (lia || exact Hl).
        rewrite (byte_of_sextets_1 hi lo Hh Hl). reflexivity.
      * rewrite (IH 3%nat lo) by (lia || exact Hl).
        rewrite (byte_of_sextets_2 hi lo Hh Hl). reflexivity.
      * rewrite (IH 0%nat lo) by (lia || exact Hl).
        rewrite (byte_of_sextets_3 hi lo Hh Hl). reflexivity.
    + destruct (Ascii.eqb c "=").
      * destruct phase as [|[|[|[|phase]]]]; try lia; reflexivity.
      * apply IH; assumption.
Qed.

(** [Buffer.from(text, 'base64')] on ASCII text is the lenient decoding
    of the reference. *)
Lemma from_base64_lenient : forall s,
  Url.forall_chars (fun a => (Url.code a <? 128)%N) s = true ->
  Buffer.from_base64 s = lenient_base64 s.
Proof.
  intros s H. unfold Buffer.from_base64. rewrite (low_bytes_ascii s H).
  apply (base64_decode_carried s 0%nat 0%N); [lia|reflexivity].
Qed.

(** ** The parser on any scheme and host *)

Lemma class_chars : forall a,
  (scheme_char a = true ->
     plain a = true /\ Url.proto_char a = true /\ Url.any_char "?#" a = false /\
     Url.is_char "\" a = false) /\
  (host_char a = true ->
     plain a = true /\ Url.any_char "?#" a = false /\ Url.is_char "\" a = false /\
     host_char (to_lower a) = true /\ Url.forbiddenHostChars (to_lower a) = false /\
     Url.any_char "/\#?:" a = false /\ Url.is_char "[" a = false /\
     Url.is_char ":" a = false).
Proof.
  intros [b0 b1 b2 b3 b4 b5 b6 b7];
    destruct b0, b1, b2, b3, b4, b5, b6, b7; vm_compute;
    split; first [discriminate | intros _; repeat split].
Qed.

(** Backslashes are looked for behind a text that has none, and no [?]
    or [#] either. *)
Lemma convert_backslashes_app : forall pre s,
  Url.forall_chars
    (fun a => negb (Url.any_char "?#" a) && negb (Url.is_char "\" a)) pre = true ->
  Url.convert_backslashes (pre ++ s) = pre ++ Url.convert_backslashes s.
Proof.
  induction pre as [|a pre IH]; intros s H; [reflexivity|].
  cbn [Url.forall_chars] in H. apply andb_true_iff in H as [Ha Hp].
  apply andb_true_iff in Ha as [H1 H2].
  apply negb_true_iff in H1. apply negb_true_iff in H2.
  cbn [append Url.convert_backslashes]. now rewrite H1, H2, (IH s Hp).
Qed.

Lemma toLowerCase_app : forall a b,
  toLowerCase (a ++ b) = toLowerCase a ++ toLowerCase b.
Proof.
  induction a as [|x a IH]; intros b; cbn [append toLowerCase]; [reflexivity|].
  now rewrite IH.
Qed.

Lemma length_toLowerCase : forall s, String.length (toLowerCase s) = String.length s.
Proof. induction s as [|a s IH]; cbn; [reflexivity|now rewrite IH]. Qed.

Lemma take_app_length : forall a b, Url.take (String.length a) (a ++ b) = a.
Proof. induction a as [|x a IH]; intros b; cbn; [now destruct b|now rewrite IH]. Qed.

Lemma drop_app_length : forall a b, Url.drop (String.length a) (a ++ b) = b.
Proof. induction a as [|x a IH]; intros b; cbn; [reflexivity|apply IH]. Qed.

(** What [convert_backslashes] leaves of a tail is a tail. *)
Lemma convert_backslashes_tail : forall tail,
  tail_ok tail = true -> tail_ok (Url.convert_backslashes tail) = true.
Proof.
  intros tail H. unfold tail_ok in *. apply andb_true_iff in H as [Hp Hc].
  apply andb_true_iff. split.
  - clear Hc. induction tail as [|a tail IH]; [reflexivity|].
    pose proof Hp as Hp'. cbn [Url.forall_chars] in Hp'.
    apply andb_true_iff in Hp' as [Ha Ht].
    cbn [Url.convert_backslashes]. destruct (Url.any_char "?#" a); [exact Hp|].
    cbn [Url.forall_chars]. rewrite (IH Ht).
    destruct (Url.is_char "\" a); [reflexivity|now rewrite Ha].
  - destruct tail as [|c tail]; [reflexivity|].
    cbn [Url.convert_backslashes]. destruct (Url.any_char "?#" c) eqn:E; [exact Hc|].
    destruct (Url.is_char "\" c) eqn:E2; [reflexivity|exact Hc].
Qed.

(** The loop that looks for the end of the host, on a plain host name
    and what follows it. *)
Lemma scan_host_name : forall host tail i,
  Url.forall_chars host_char host = true ->
  tail_ok tail = true ->
  Url.scan_host (host ++ tail) i None None =
    (host ++ tail, None,
     match tail with
     | EmptyString => None
     | _ => Some (i + String.length host)%nat
     end).
Proof.
  induction host as [|a host IH]; intros tail i H Ht.
  - unfold tail_ok in Ht. apply andb_true_iff in Ht as [_ Hc].
    destruct tail as [|c tail]; [reflexivity|].
    cbn [append String.length]. rewrite Nat.add_0_r.
    revert Hc. destruct c as [b0 b1 b2 b3 b4 b5 b6 b7];
      destruct b0, b1, b2, b3, b4, b5, b6, b7; vm_compute;
      first [discriminate | reflexivity].
  - cbn [Url.forall_chars] in H. apply andb_true_iff in H as [Ha Hh].
    cbn [append Url.scan_host String.length].
    rewrite (IH tail (S i) Hh Ht).
    replace (i + S (String.length host))%nat with (S i + String.length host)%nat by lia.
    revert Ha. destruct a as [b0 b1 b2 b3 b4 b5 b6 b7];
      destruct b0, b1, b2, b3, b4, b5, b6, b7; vm_compute;
      first [discriminate | destruct tail; reflexivity].
Qed.

Lemma forall_chars_span_snd : forall p f s,
  Url.forall_chars p s = true -> Url.forall_chars p (snd (Url.span f s)) = true.
Proof.
  intros p f. induction s as [|a s IH]; intros H; [reflexivity|].
  pose proof H as H'. cbn [Url.forall_chars] in H'. apply andb_true_iff in H' as [Ha Hs].
  cbn [Url.span]. destruct (f a); [|exact H].
  specialize (IH Hs). destruct (Url.span f s) as [x y]. exact IH.
Qed.

Lemma forall_chars_rev : forall p s,
  Url.forall_chars p s = true -> Url.forall_chars p (Url.rev s) = true.
Proof.
  intros p s H. unfold Url.rev. rewrite forall_chars_rev_append, H. reflexivity.
Qed.

Lemma parseHost_name : forall host,
  Url.forall_chars host_char host = true -> Url.parseHost host = (host, "").
Proof.
  intros host H. unfold Url.parseHost.
  pose proof (forall_chars_span_snd host_char Url.is_digit _ (forall_chars_rev _ _ H)) as G.
  destruct (Url.span Url.is_digit (Url.rev host)) as [digits_rev before_rev].
  cbn [snd] in G. destruct before_rev as [|c r]; [reflexivity|].
  cbn [Url.forall_chars] in G. apply andb_true_iff in G as [Hc _].
  destruct (class_chars c) as [_ C]. specialize (C Hc).
  destruct C as [_ [_ [_ [_ [_ [_ [_ ->]]]]]]]. reflexivity.
Qed.

Lemma isIpv6Hostname_name : forall host,
  Url.forall_chars host_char host = true -> Url.isIpv6Hostname host = false.
Proof.
  intros [|a host] H; [reflexivity|].
  cbn [Url.forall_chars] in H. apply andb_true_iff in H as [Ha _].
  destruct (class_chars a) as [_ C]. specialize (C Ha).
  destruct C as [_ [_ [_ [_ [_ [_ [E _]]]]]]].
  unfold Url.isIpv6Hostname. rewrite E.
  destruct (Url.rev (String a host)); reflexivity.
Qed.

Lemma getHostname_name : forall rest host,
  Url.forall_chars host_char host = true -> Url.getHostname rest host = (host, rest).
Proof.
  intros rest host H. unfold Url.getHostname.
  rewrite span_all; [reflexivity|].
  revert H. apply forall_chars_impl. intros a Ha.
  destruct (class_chars a) as [_ C]. specialize (C Ha).
  destruct C as [_ [_ [_ [_ [_ [E _]]]]]]. now rewrite E.
Qed.

Lemma toLowerCase_name : forall host,
  Url.forall_chars host_char host = true ->
  Url.forall_chars host_char (toLowerCase host) = true /\
  Url.exists_char Url.forbiddenHostChars (toLowerCase host) = false.
Proof.
  unfold Url.exists_char.
  induction host as [|a host IH]; intros H; [split; reflexivity|].
  cbn [Url.forall_chars] in H. apply andb_true_iff in H as [Ha Hh].
  destruct (IH Hh) as [I1 I2]. apply negb_false_iff in I2.
  destruct (class_chars a) as [_ C]. specialize (C Ha).
  destruct C as [_ [_ [_ [E1 [E2 _]]]]].
  cbn [toLowerCase Url.forall_chars]. rewrite E1, E2, I1, I2. split; reflexivity.
Qed.


(** The host part of [parse] on a plain host name and what follows it:
    the name in lower case (nothing when it is longer than 255
    characters). *)
Lemma parse_host_name : forall host tail,
  Url.forall_chars host_char host = true ->
  tail_ok tail = true ->
  Url.parse_host (host ++ tail) =
    Return (if (255 <? String.length host)%nat then "" else toLowerCase host, tail).
Proof.
  intros host tail H Ht. unfold Url.parse_host.
  rewrite (scan_host_name host tail 0 H Ht).
  destruct (toLowerCase_name host H) as [_ E'].
  destruct tail as [|c tail]; cbv beta iota zeta; cbn [bind].
  - cbn [Url.drop]. rewrite append_nil_r.
    rewrite (parseHost_name host H).
    rewrite (isIpv6Hostname_name host H), (getHostname_name _ host H).
    cbn [andb]. change (String.eqb "" "") with true. cbv iota.
    destruct (255 <? String.length host)%nat;
      [reflexivity|rewrite E', andb_false_r, append_nil_r; reflexivity].
  - rewrite Nat.add_0_l, Nat.sub_0_r. cbn [Url.drop].
    rewrite take_app_length, drop_app_length.
    rewrite (parseHost_name host H).
    rewrite (isIpv6Hostname_name host H), (getHostname_name _ host H).
    cbn [andb]. change (String.eqb "" "") with true. cbv iota.
    destruct (255 <? String.length host)%nat;
      [reflexivity|rewrite E', andb_false_r, append_nil_r; reflexivity].
Qed.

Lemma tail_plain : forall tail,
  tail_ok tail = true -> Url.forall_chars plain tail = true.
Proof. intros tail H. unfold tail_ok in H. now apply andb_true_iff in H as [H _]. Qed.

Lemma uri_of_plain : forall scheme host tail,
  Url.forall_chars scheme_char scheme = true ->
  Url.forall_chars host_char host = true ->
  tail_ok tail = true ->
  Url.forall_chars plain (uri_of scheme host tail) = true.
Proof.
  intros scheme host tail Hs Hh Ht. unfold uri_of. rewrite !forall_chars_app.
  repeat (apply andb_true_iff; split); try reflexivity.
  - revert Hs. apply forall_chars_impl. intros a Ha. apply (proj1 (class_chars a) Ha).
  - revert Hh. apply forall_chars_impl. intros a Ha. apply (proj2 (class_chars a) Ha).
  - apply tail_plain, Ht.
Qed.

Lemma uri_of_rest : forall scheme host tail,
  Url.forall_chars scheme_char scheme = true ->
  Url.forall_chars host_char host = true ->
  tail_ok tail = true ->
  Url.convert_backslashes (Url.trim (uri_of scheme host tail)) =
    uri_of scheme host (Url.convert_backslashes tail).
Proof.
  intros scheme host tail Hs Hh Ht.
  rewrite (trim_plain _ (uri_of_plain scheme host tail Hs Hh Ht)).
  unfold uri_of.
  replace (scheme ++ "://" ++ host ++ tail) with ((scheme ++ "://" ++ host) ++ tail)
    by (now rewrite !append_assoc).
  rewrite convert_backslashes_app; [now rewrite !append_assoc|].
  rewrite !forall_chars_app.
  repeat (apply andb_true_iff; split); try reflexivity.
  - revert Hs. apply forall_chars_impl. intros a Ha.
    destruct (proj1 (class_chars a) Ha) as [_ [_ [-> ->]]]. reflexivity.
  - revert Hh. apply forall_chars_impl. intros a Ha.
    destruct (proj2 (class_chars a) Ha) as [_ [-> [-> _]]]. reflexivity.
Qed.

Lemma match_protocol_uri_of : forall scheme rest,
  Url.forall_chars scheme_char scheme = true ->
  Url.match_protocol (scheme ++ String ":" rest) =
    match scheme with
    | EmptyString => None
    | _ => Some (scheme ++ ":", rest)
    end.
Proof.
  intros scheme rest Hs. unfold Url.match_protocol.
  rewrite span_app_sep.
  - destruct scheme; reflexivity.
  - revert Hs. apply forall_chars_impl. intros a Ha.
    apply (proj1 (class_chars a) Ha).
  - reflexivity.
Qed.

(** What [url.parse] makes of a scheme, a host and what follows them:
    the protocol and the host in lower case, and a query that depends on
    what follows the host only. *)
Lemma parse_uri_of : forall scheme host tail,
  Url.forall_chars scheme_char scheme = true ->
  Url.forall_chars host_char host = true ->
  tail_ok tail = true ->
  exists parsedUrl,
    Url.parse (uri_of scheme host tail) = Return parsedUrl /\
    Url.protocol parsedUrl =
      match scheme with
      | EmptyString => None
      | _ => Some (toLowerCase scheme ++ ":")
      end /\
    (toLowerCase scheme = "otpauth-migration" ->
     Url.host parsedUrl =
       Some (if (255 <? String.length host)%nat then "" else toLowerCase host) /\
     Url.query parsedUrl =
       match Url.query_of (Url.autoEscapeStr (Url.convert_backslashes tail)) with
       | Some q => Url.querystring_parse q
       | None => []
       end).
Proof.
  intros scheme host tail Hs Hh Ht. unfold Url.parse.
  rewrite (uri_of_rest scheme host tail Hs Hh Ht).
  pose proof (convert_backslashes_tail tail Ht) as Ht'.
  set (tail' := Url.convert_backslashes tail) in *.
  change (uri_of scheme host tail') with (scheme ++ String ":" ("//" ++ host ++ tail')).
  rewrite (match_protocol_uri_of scheme _ Hs).
  destruct scheme as [|c scheme].
  - eexists. split; [reflexivity|]. split; [reflexivity|]. discriminate.
  - set (proto := String c scheme) in *.
    cbv beta iota zeta. cbn [option_map orb].
    change (Url.starts_with_slashes ("//" ++ host ++ tail')) with true.
    cbn [andb orb].
    rewrite toLowerCase_app. change (toLowerCase ":") with ":".
    destruct (Url.hostlessProtocol (Some (toLowerCase proto ++ ":"))) eqn:Hl.
    + cbn [negb andb bind]. eexists. split; [reflexivity|]. split; [reflexivity|].
      intros E. rewrite E in Hl. discriminate.
    + cbn [negb andb orb].
      change (Url.drop 2 ("//" ++ host ++ tail')) with (host ++ tail').
      rewrite (parse_host_name host tail' Hh Ht'). cbn [bind fst snd].
      eexists. split; [reflexivity|]. split; [reflexivity|].
      intros _. split; reflexivity.
Qed.

Lemma lower_host_offline : forall host,
  toLowerCase host = "offline" ->
  (if (255 <? String.length host)%nat then "" else toLowerCase host) = "offline".
Proof.
  intros host E. rewrite <- (length_toLowerCase host), E. reflexivity.
Qed.

Lemma lower_host_other : forall host,
  toLowerCase host <> "offline" ->
  (if (255 <? String.length host)%nat then "" else toLowerCase host) <> "offline".
Proof.
  intros host E. destruct (255 <? String.length host)%nat; [discriminate|exact E].
Qed.

Lemma append_colon_inj : forall x y : string, x ++ ":" = y ++ ":" -> x = y.
Proof.
  induction x as [|a x IH]; intros [|b y] H; cbn [append] in H.
  - reflexivity.
  - destruct y; discriminate.
  - destruct x; discriminate.
  - injection H as -> H. now rewrite (IH y H).
Qed.

(** ** The scheme of an input that is unwrapped *)

Lemma span_spec : forall p s x y,
  Url.span p s = (x, y) -> s = x ++ y /\ Url.forall_chars p x = true.
Proof.
  intros p. induction s as [|a s IH]; intros x y H; cbn [Url.span] in H.
  - injection H as <- <-. split; reflexivity.
  - destruct (p a) eqn:E.
    + destruct (Url.span p s) as [x' y'] eqn:Es. injection H as <- <-.
      destruct (IH x' y' eq_refl) as [-> Hx]. cbn [append Url.forall_chars].
      rewrite E, Hx. split; reflexivity.
    + injection H as <- <-. split; reflexivity.
Qed.

Lemma rev_app : forall x y, Url.rev (x ++ y) = Url.rev y ++ Url.rev x.
Proof.
  unfold Url.rev. induction x as [|c x IH]; intros y; cbn [append Url.rev_append].
  - now rewrite append_nil_r.
  - rewrite (rev_append_app (x ++ y)), (rev_append_app x), IH.
    now rewrite append_assoc.
Qed.

(** What [trim] takes away at the start has no visible ASCII
    character. *)
Lemma trim_start_spec : forall n s,
  (String.length s <= n)%nat ->
  exists before,
    s = before ++ Url.trim_start s /\
    Url.forall_chars (fun a => negb (plain a)) before = true.
Proof.
  induction n as [|n IH]; intros s Hn.
  - destruct s; [|cbn in Hn; lia]. exists EmptyString. split; reflexivity.
  - destruct s as [|a s1]; [exists EmptyString; split; reflexivity|].
    cbn [String.length] in Hn. cbn [Url.trim_start].
    destruct (Url.code a <? 33)%N eqn:E1.
    + destruct (IH s1 ltac:(lia)) as [before [Hb Hp]].
      exists (String a before). split.
      * cbn [append]. now rewrite <- Hb.
      * cbn [Url.forall_chars]. rewrite Hp. unfold plain.
        apply N.ltb_lt in E1.
        replace (33 <=? Url.code a)%N with false by (symmetry; apply N.leb_gt; lia).
        reflexivity.
    + destruct s1 as [|b s2]; [exists EmptyString; split; reflexivity|].
      cbn [String.length] in Hn.
      destruct ((Url.code a =? 194)%N && (Url.code b =? 160)%N) eqn:E2.
      * apply andb_true_iff in E2 as [Ea Eb].
        apply N.eqb_eq in Ea. apply N.eqb_eq in Eb.
        destruct (IH s2 ltac:(lia)) as [before [Hb Hp]].
        exists (String a (String b before)). split.
        -- cbn [append]. now rewrite <- Hb.
        -- cbn [Url.forall_chars]. rewrite Hp. unfold plain. rewrite Ea, Eb. reflexivity.
      * destruct s2 as [|c s3]; [exists EmptyString; split; reflexivity|].
        cbn [String.length] in Hn.
        destruct ((Url.code a =? 239)%N && (Url.code b =? 187)%N && (Url.code c =? 191)%N)
          eqn:E3; [|exists EmptyString; split; reflexivity].
        apply andb_true_iff in E3 as [E3 Ec]. apply andb_true_iff in E3 as [Ea Eb].
        apply N.eqb_eq in Ea. apply N.eqb_eq in Eb. apply N.eqb_eq in Ec.
        destruct (IH s3 ltac:(lia)) as [before [Hb Hp]].
        exists (String a (String b (String c before))). split.
        -- cbn [append]. now rewrite <- Hb.
        -- cbn [Url.forall_chars]. rewrite Hp. unfold plain. rewrite Ea, Eb, Ec.
           reflexivity.
Qed.

Lemma trim_start_rev_spec : forall n s,
  (String.length s <= n)%nat ->
  exists before, s = before ++ Url.trim_start_rev s.
Proof.
  induction n as [|n IH]; intros s Hn.
  - destruct s; [|cbn in Hn; lia]. exists EmptyString. reflexivity.
  - destruct s as [|a s1]; [exists EmptyString; reflexivity|].
    cbn [String.length] in Hn. cbn [Url.trim_start_rev].
    destruct (Url.code a <? 33)%N.
    + destruct (IH s1 ltac:(lia)) as [before Hb].
      exists (String a before). cbn [append]. now rewrite <- Hb.
    + destruct s1 as [|b s2]; [exists EmptyString; reflexivity|].
      cbn [String.length] in Hn.
      destruct ((Url.code a =? 160)%N && (Url.code b =? 194)%N).
      * destruct (IH s2 ltac:(lia)) as [before Hb].
        exists (String a (String b before)). cbn [append]. now rewrite <- Hb.
      * destruct s2 as [|c s3]; [exists EmptyString; reflexivity|].
        cbn [String.length] in Hn.
        destruct ((Url.code a =? 191)%N && (Url.code b =? 187)%N && (Url.code c =? 239)%N);
          [|exists EmptyString; reflexivity].
        destruct (IH s3 ltac:(lia)) as [before Hb].
        exists (String a (String b (String c before))). cbn [append]. now rewrite <- Hb.
Qed.

(** The trimmed text inside the text. *)
Lemma trim_spec : forall s,
  exists before after,
    s = before ++ Url.trim s ++ after /\
    Url.forall_chars (fun a => negb (plain a)) before = true.
Proof.
  intros s. unfold Url.trim.
  destruct (trim_start_spec _ s (le_n _)) as [before [Hb Hp]].
  destruct (trim_start_rev_spec _ (Url.rev (Url.trim_start s)) (le_n _)) as [pre Hr].
  exists before, (Url.rev pre). split; [|exact Hp].
  rewrite <- rev_app, <- Hr, rev_rev. exact Hb.
Qed.

Lemma convert_backslashes_scheme : forall pre s rest,
  Url.forall_chars Url.proto_char pre = true ->
  Url.convert_backslashes s = pre ++ String ":" rest ->
  exists rest', s = pre ++ String ":" rest'.
Proof.
  induction pre as [|x pre IH]; intros s rest Hpre H.
  - destruct s as [|a s]; [discriminate|]. cbn [Url.convert_backslashes append] in *.
    destruct (Url.any_char "?#" a); [now exists rest|].
    injection H as Ha Hs. exists s.
    destruct (Url.is_char "\" a) eqn:E; [discriminate|]. now rewrite Ha.
  - cbn [Url.forall_chars] in Hpre. apply andb_true_iff in Hpre as [Hx Hpre].
    destruct s as [|a s]; [discriminate|]. cbn [Url.convert_backslashes append] in *.
    destruct (Url.any_char "?#" a); [now exists rest|].
    injection H as Ha Hs. destruct (IH s rest Hpre Hs) as [rest' ->].
    exists rest'. destruct (Url.is_char "\" a) eqn:E.
    + subst x. discriminate.
    + now rewrite Ha.
Qed.

(** The protocol [url.parse] reports is the one its pattern finds at
    the start of the trimmed input. *)
Lemma parse_protocol : forall url parsedUrl,
  Url.parse url = Return parsedUrl ->
  Url.protocol parsedUrl =
    option_map toLowerCase
      (option_map fst (Url.match_protocol (Url.convert_backslashes (Url.trim url)))).
Proof.
  intros u p. unfold Url.parse.
  destruct (Url.match_protocol (Url.convert_backslashes (Url.trim u))) as [[proto rest]|];
    cbv beta iota zeta;
    match goal with
    | |- bind ?c _ = _ -> _ => destruct c as [[h r]|e]
    end; cbn [bind]; intros H; try discriminate;
    injection H as <-; reflexivity.
Qed.

(** Bytes come out only for an input that starts, after white space,
    with the scheme [otpauth-migration] in some case of the letters. *)
Lemma extractDataFromUrl_bytes_scheme : forall migrationUrl data,
  extractDataFromUrl migrationUrl = Return data ->
  exists before scheme rest,
    migrationUrl = before ++ scheme ++ ":" ++ rest /\
    Url.forall_chars (fun a => negb (plain a)) before = true /\
    toLowerCase scheme = "otpauth-migration".
Proof.
  intros u data H.
  destruct (extractDataFromUrl_bytes_transport u data H) as [p [Hp [Hproto _]]].
  rewrite (parse_protocol u p Hp) in Hproto.
  destruct (Url.match_protocol (Url.convert_backslashes (Url.trim u)))
    as [[proto rest]|] eqn:M; [|discriminate].
  cbn [option_map fst] in Hproto.
  unfold Url.match_protocol in M.
  destruct (Url.span Url.proto_char (Url.convert_backslashes (Url.trim u)))
    as [pre post] eqn:S.
  destruct (span_spec _ _ _ _ S) as [Hc Hpre].
  destruct pre as [|x pre]; [discriminate|].
  destruct post as [|c post']; [discriminate|].
  destruct (Url.is_char ":" c) eqn:Ec; [|discriminate].
  apply Ascii.eqb_eq in Ec. subst c.
  injection M as <- <-.
  destruct (convert_backslashes_scheme _ _ _ Hpre Hc) as [rest' Ht].
  destruct (trim_spec u) as [before [after [Hu Hb]]].
  exists before, (String x pre), (rest' ++ after). split; [|split].
  - rewrite Hu at 1. rewrite Ht. now rewrite !append_assoc.
  - exact Hb.
  - assert (E : toLowerCase (String x pre ++ ":") = "otpauth-migration:").
    { apply (f_equal (fun o => match o with Some s => s | None => EmptyString end))
        in Hproto. exact Hproto. }
    rewrite toLowerCase_app in E. apply append_colon_inj. exact E.
Qed.

(** ** The transport check *)

(** C7, as the code has it.  For a URI written scheme, [://], host and
    what follows the host (nothing, or a path, a query or a fragment),
    the transport check compares scheme and host with
    [otpauth-migration] and [offline] without regard to the case of the
    letters: when both agree the URI is unwrapped as the URI in lower
    case is, and that is not the error of the check; when one of them
    differs the unwrapper throws
    [Invalid Google Authenticator migration URL] and gives no bytes.
    And whatever the ASCII input, bytes come out only when it starts,
    after white space, with the scheme [otpauth-migration] and a
    colon. *)
Theorem extractDataFromUrl_transport_check :
  (forall scheme host tail : string,
     Url.forall_chars scheme_char scheme = true ->
     Url.forall_chars host_char host = true ->
     tail_ok tail = true ->
     (toLowerCase scheme = "otpauth-migration" /\ toLowerCase host = "offline" ->
      extractDataFromUrl (uri_of scheme host tail) =
        extractDataFromUrl (uri_of "otpauth-migration" "offline" tail) /\
      extractDataFromUrl (uri_of scheme host tail) <>
        Throw (Error "Invalid Google Authenticator migration URL")) /\
     (~ (toLowerCase scheme = "otpauth-migration" /\ toLowerCase host = "offline") ->
      extractDataFromUrl (uri_of scheme host tail) =
        Throw (Error "Invalid Google Authenticator migration URL"))) /\
  (forall (migrationUrl : string) (data : list byte),
     Url.forall_chars (fun a => (Url.code a <? 128)%N) migrationUrl = true ->
     extractDataFromUrl migrationUrl = Return data ->
     exists before scheme rest : string,
       migrationUrl = before ++ scheme ++ ":" ++ rest /\
       Url.forall_chars (fun a => negb (plain a)) before = true /\
       toLowerCase scheme = "otpauth-migration").
Proof.
  split; [|intros u data _; apply extractDataFromUrl_bytes_scheme].
  intros scheme host tail Hs Hh Ht.
  destruct (parse_uri_of scheme host tail Hs Hh Ht) as [p [Hp [Hproto Hrest]]].
  split.
  - intros [Es Eh]. destruct (Hrest Es) as [Hhost Hquery].
    assert (P : Url.protocol p = Some "otpauth-migration:").
    { rewrite Hproto. destruct scheme; [discriminate|]. now rewrite Es. }
    rewrite (lower_host_offline host Eh) in Hhost.
    destruct (parse_uri_of "otpauth-migration" "offline" tail eq_refl eq_refl Ht)
      as [p0 [Hp0 [Hproto0 Hrest0]]].
    destruct (Hrest0 eq_refl) as [Hhost0 Hquery0].
    rewrite (extractDataFromUrl_parsed _ p Hp P Hhost), Hquery.
    rewrite (extractDataFromUrl_parsed _ p0 Hp0 Hproto0 Hhost0), Hquery0.
    split; [reflexivity|].
    destruct (Url.query_get _ "data") as [[d|ds]|]; discriminate.
  - intros Hne. unfold extractDataFromUrl. rewrite Hp. cbn [bind].
    destruct (match Url.protocol p with
              | Some s => String.eqb s "otpauth-migration:" | None => false end) eqn:E1;
      [|reflexivity].
    apply protocol_check in E1. rewrite Hproto in E1.
    assert (Es : toLowerCase scheme = "otpauth-migration").
    { apply append_colon_inj. change ("otpauth-migration" ++ ":") with "otpauth-migration:".
      destruct scheme; [discriminate|]. congruence. }
    destruct (Hrest Es) as [Hhost _]. rewrite Hhost. cbn [negb orb].
    destruct (String.eqb _ "offline") eqn:E2; [|reflexivity].
    apply String.eqb_eq in E2. exfalso. apply Hne. split; [exact Es|].
    destruct (string_dec (toLowerCase host) "offline") as [E|E]; [exact E|].
    elim (lower_host_other host E E2).
Qed.

Lemma extractDataFromUrl_transport_check_witness :
  (extractDataFromUrl (uri_of "OTPAUTH-Migration" "Offline" "?data=CgcKBUhlbGxv") =
     extractDataFromUrl (uri_of "otpauth-migration" "offline" "?data=CgcKBUhlbGxv") /\
   extractDataFromUrl (uri_of "OTPAUTH-Migration" "Offline" "?data=CgcKBUhlbGxv") <>
     Throw (Error "Invalid Google Authenticator migration URL")) /\
  extractDataFromUrl (uri_of "https" "offline" "?data=CgcKBUhlbGxv") =
    Throw (Error "Invalid Google Authenticator migration URL") /\
  extractDataFromUrl (uri_of "otpauth-migration" "offline.example" "/a?data=CgcKBUhlbGxv") =
    Throw (Error "Invalid Google Authenticator migration URL") /\
  exists before scheme rest : string,
    " Otpauth-Migration:offline?data=CgcKBUhlbGxv" = before ++ scheme ++ ":" ++ rest /\
    Url.forall_chars (fun a => negb (plain a)) before = true /\
    toLowerCase scheme = "otpauth-migration".
Proof.
  split; [|split; [|split]].
  - apply (proj1 extractDataFromUrl_transport_check
             "OTPAUTH-Migration" "Offline" "?data=CgcKBUhlbGxv");
      [reflexivity|reflexivity|reflexivity|split; reflexivity].
  - apply (proj1 extractDataFromUrl_transport_check
             "https" "offline" "?data=CgcKBUhlbGxv");
      [reflexivity|reflexivity|reflexivity|intros [H _]; discriminate].
  - apply (proj1 extractDataFromUrl_transport_check
             "otpauth-migration" "offline.example" "/a?data=CgcKBUhlbGxv");
      [reflexivity|reflexivity|reflexivity|intros [_ H]; discriminate].
  - apply (proj2 extractDataFromUrl_transport_check
             " Otpauth-Migration:offline?data=CgcKBUhlbGxv"
             [x0a; x07; x0a; x05; x48; x65; x6c; x6c; x6f]);
      reflexivity.
Defined.

(** C7, as stated, fails on both counts.  The first input has no
    authority at all (no [//] after the scheme), and it is unwrapped:
    [url.parse] reads a host after the colon of a scheme it does not
    know, with or without the slashes.  The second has the scheme
    [https], and the error it fails with is not the error of the
    transport check but the [URIError] of [url.parse], which meets a
    malformed escape before the [@]. *)
Lemma extractDataFromUrl_without_authority :
  RFC3986.scheme "otpauth-migration:offline?data=CgcKBUhlbGxv" = "otpauth-migration" /\
  RFC3986.authority "otpauth-migration:offline?data=CgcKBUhlbGxv" = None /\
  extractDataFromUrl "otpauth-migration:offline?data=CgcKBUhlbGxv" =
    Return [x0a; x07; x0a; x05; x48; x65; x6c; x6c; x6f] /\
  RFC3986.scheme "https://%@offline?data=CgcKBUhlbGxv" = "https" /\
  extractDataFromUrl "https://%@offline?data=CgcKBUhlbGxv" =
    Throw (URIError "URI malformed") /\
  extractDataFromUrl "https://%@offline?data=CgcKBUhlbGxv" <>
    Throw (Error "Invalid Google Authenticator migration URL").
Proof. repeat split; try (vm_compute; reflexivity). discriminate. Qed.

(** ** The order of the parameters *)

(** The parameters read back from the URI of a record. *)
Lemma query_pairs_record : forall r,
  Wire.record_ok r = true ->
  query_pairs (expected_uri r) = expected_pairs r.
Proof.
  intros r H.
  destruct (createOtpauthUrl_of_message (Expected.message r) (Wire.secret r)
              (proj1 (message_secret r))) as [uri [Hc Hq]].
  rewrite (createOtpauthUrl_record r H) in Hc. apply Return_inj in Hc. subst uri.
  rewrite Hq, base32_strip, (toObject_record r H).
  unfold expected_query, expected_pairs.
  cbn [secret name issuer algorithm digits type counter].
  destruct (lookup_canonical (Wire.algorithm r)) as [-> _].
  destruct (lookup_canonical (Wire.digits r)) as [_ [-> _]].
  destruct (lookup_canonical (Wire.type r)) as [_ [_ [_ Heq]]].
  rewrite (Heq "hotp" eq_refl), (Heq "totp" eq_refl). cbv zeta.
  destruct (Wire.issuer r) as [i|], (Wire.counter r) as [c|];
    cbn [optional option_map Uri.encodeURIComponent ToString];
    rewrite ?string_of_N_truthy; cbn [truthy];
    rewrite ?andb_true_r, ?andb_false_r;
    try destruct (String.eqb (Expected.text i) "");
    destruct (String.eqb (canonical type_canonical (Wire.type r)) "hotp");
    destruct (String.eqb (canonical type_canonical (Wire.type r)) "totp");
    reflexivity.
Qed.

(** C2, as the code has it.  For a payload of records, the parameters
    of the URI of every account, read back from the URI, are those of
    its record in the fixed order secret, issuer, algorithm, digits,
    counter, period: secret, algorithm and digits always; the issuer when
    the record has one and its text is not empty, percent-encoded; the
    counter when the type is [hotp] and the record has a counter on the
    wire, whatever its value; [period=30] when the type is [totp]. *)
Theorem createOtpauthUrl_query_order :
  forall (records : list Wire.record) (t : Wire.trailer),
    records <> [] ->
    forallb Wire.record_ok records = true ->
    Wire.trailer_ok t = true ->
    exists accounts : list Account,
      decodeUrl (migration_url (RFC4648.base64 (Wire.encode_payload records t))) =
        (accounts, []) /\
      Forall2 (fun r a => query_pairs (otpauthUrl a) = expected_pairs r) records accounts.
Proof.
  intros records t Hne Hr Ht.
  destruct (decodeUrl_records records t Hne Hr Ht) as [accounts [Hd Hf]].
  exists accounts. split; [exact Hd|].
  apply (Forall2_records _ _ records accounts Hr Hf).
  intros r a Hok Ha. rewrite (account_of_record r a Hok Ha). cbn [otpauthUrl].
  apply (query_pairs_record r Hok).
Qed.

Lemma createOtpauthUrl_query_order_witness :
  exists accounts : list Account,
    decodeUrl
      (migration_url
         (RFC4648.base64
            (Wire.encode_payload
               [ Wire.mkRecord [x00; x01; x02] (Some "bob & co") (Some "A=B")
                   (Some 1%N) (Some 2%N) (Some 1%N) (Some 5%N);
                 Wire.mkRecord [x48; x65; x6c; x6c; x6f] (Some "alice") None
                   (Some 2%N) (Some 1%N) (Some 2%N) (Some 7%N) ]
               Expected.sample_trailer))) = (accounts, []) /\
    Forall2 (fun r a => query_pairs (otpauthUrl a) = expected_pairs r)
      [ Wire.mkRecord [x00; x01; x02] (Some "bob & co") (Some "A=B")
          (Some 1%N) (Some 2%N) (Some 1%N) (Some 5%N);
        Wire.mkRecord [x48; x65; x6c; x6c; x6f] (Some "alice") None
          (Some 2%N) (Some 1%N) (Some 2%N) (Some 7%N) ]
      accounts.
Proof.
  apply (createOtpauthUrl_query_order
           [ Wire.mkRecord [x00; x01; x02] (Some "bob & co") (Some "A=B")
               (Some 1%N) (Some 2%N) (Some 1%N) (Some 5%N);
             Wire.mkRecord [x48; x65; x6c; x6c; x6f] (Some "alice") None
               (Some 2%N) (Some 1%N) (Some 2%N) (Some 7%N) ]
           Expected.sample_trailer);
    [discriminate|reflexivity|reflexivity].
Defined.

(** C2, as stated, fails for the counter: this record is of type
    [hotp] and its counter, written on the wire, is zero, and the URI has
    the parameter [counter=0].  ([toObject] is called with
    [longs: String], so the counter is the text [0], and a text that is
    not empty is truthy.) *)
Lemma createOtpauthUrl_counter_zero :
  "otpauth-migration://offline?data=ChMKBUhlbGxvEgJoMCABKAEwATgA" =
    migration_url
      (RFC4648.base64
         (Wire.encode_payload
            [Wire.mkRecord [x48; x65; x6c; x6c; x6f] (Some "h0") None (Some 1%N)
               (Some 1%N) (Some 1%N) (Some 0%N)]
            (Wire.mkTrailer None None None None))) /\
  map otpauthUrl
    (fst (decodeUrl "otpauth-migration://offline?data=ChMKBUhlbGxvEgJoMCABKAEwATgA")) =
    ["otpauth://hotp/h0?secret=JBSWY3DP&algorithm=SHA1&digits=6&counter=0"] /\
  query_pairs
    "otpauth://hotp/h0?secret=JBSWY3DP&algorithm=SHA1&digits=6&counter=0" =
    [("secret", "JBSWY3DP"); ("algorithm", "SHA1"); ("digits", "6"); ("counter", "0")].
Proof. repeat split; vm_compute; reflexivity. Qed.

(** ** Normalization *)





(** ** A value that is not base64 *)

Lemma raw_char_facts : forall a,
  raw_char a = true ->
  kept_char a = true /\ (Url.code a <? 128)%N = true /\
  negb (Ascii.eqb a " ") = true /\ negb (Url.is_char "%" a) = true /\
  negb (Ascii.eqb a "&") = true.
Proof.
  intros [b0 b1 b2 b3 b4 b5 b6 b7];
    destruct b0, b1, b2, b3, b4, b5, b6, b7; vm_compute;
    first [discriminate | intros _; repeat split].
Qed.

(** What [url.parse] writes for a character of a value has no [#] and
    no [&]. *)
Lemma value_char_escaped : forall a,
  value_char a = true ->
  Url.forall_chars (fun c => negb (Url.any_char "#&" c))
    (if Url.autoEscape a then Uri.percent a else String a EmptyString) = true.
Proof.
  intros [b0 b1 b2 b3 b4 b5 b6 b7];
    destruct b0, b1, b2, b3, b4, b5, b6, b7; vm_compute; congruence.
Qed.

Lemma autoEscapeStr_value : forall d,
  Url.forall_chars value_char d = true ->
  Url.forall_chars (fun c => negb (Url.any_char "#&" c)) (Url.autoEscapeStr d) = true.
Proof.
  induction d as [|a d IH]; intros H; [reflexivity|].
  cbn [Url.forall_chars] in H. apply andb_true_iff in H as [Ha Hd].
  pose proof (value_char_escaped a Ha) as Hc.
  cbn [Url.autoEscapeStr]. destruct (Url.autoEscape a).
  - rewrite forall_chars_app, Hc, (IH Hd). reflexivity.
  - cbn [Url.forall_chars] in *. rewrite andb_true_r in Hc. now rewrite Hc, (IH Hd).
Qed.

Lemma query_of_no_hash : forall q,
  Url.forall_chars (fun a => negb (Url.is_char "#" a)) q = true ->
  Url.query_of ("?" ++ q) = Some q.
Proof.
  intros q H. unfold Url.query_of. rewrite span_all; [reflexivity|].
  rewrite forall_chars_app. apply andb_true_iff. split; [reflexivity|exact H].
Qed.

Lemma value_tail : forall d,
  Url.forall_chars value_char d = true -> tail_ok ("?data=" ++ d) = true.
Proof.
  intros d H. unfold tail_ok. apply andb_true_iff. split; [|reflexivity].
  rewrite forall_chars_app. apply andb_true_iff. split; [reflexivity|].
  revert H. apply forall_chars_impl. intros a Ha.
  unfold value_char in Ha. now apply andb_true_iff in Ha as [Ha _].
Qed.

(** The unwrapper does not fail on a migration URL with one [data]
    value, whatever the value. *)
Lemma extractDataFromUrl_any_value : forall d,
  Url.forall_chars value_char d = true ->
  exists bytes, extractDataFromUrl (migration_url d) = Return bytes.
Proof.
  intros d H.
  destruct (parse_uri_of "otpauth-migration" "offline" ("?data=" ++ d)
              eq_refl eq_refl (value_tail d H)) as [p [Hp [Hproto Hrest]]].
  destruct (Hrest eq_refl) as [Hhost Hquery].
  change (uri_of "otpauth-migration" "offline" ("?data=" ++ d)) with (migration_url d)
    in Hp.
  rewrite (extractDataFromUrl_parsed _ p Hp Hproto Hhost), Hquery.
  change (Url.convert_backslashes ("?data=" ++ d)) with ("?data=" ++ d).
  change (Url.autoEscapeStr ("?data=" ++ d)) with ("?" ++ "data=" ++ Url.autoEscapeStr d).
  pose proof (autoEscapeStr_value d H) as He.
  rewrite query_of_no_hash.
  - rewrite querystring_parse_one.
    + cbn [Url.query_get]. change (String.eqb "data" "data") with true. cbv iota. eauto.
    + revert He. apply forall_chars_impl. intros a Ha.
      apply negb_true_iff in Ha. cbn [Url.any_char] in Ha.
      destruct (Ascii.eqb a "&"); [|reflexivity].
      now rewrite orb_true_r in Ha.
  - rewrite forall_chars_app. apply andb_true_iff. split; [reflexivity|].
    revert He. apply forall_chars_impl. intros a Ha.
    apply negb_true_iff in Ha. cbn [Url.any_char] in Ha. unfold Url.is_char.
    destruct (Ascii.eqb a "#"); [discriminate|reflexivity].
Qed.

(** The unwrapper on a migration URL whose value is handed over as it
    is written. *)
Lemma extractDataFromUrl_raw_value : forall d,
  Url.forall_chars raw_char d = true ->
  extractDataFromUrl (migration_url d) = Return (Buffer.from_base64 d).
Proof.
  intros d H.
  assert (Hk : Url.forall_chars kept_char ("data=" ++ d) = true).
  { rewrite forall_chars_app. apply andb_true_iff. split; [reflexivity|].
    revert H. apply forall_chars_impl. intros a Ha. apply (raw_char_facts a Ha). }
  change (migration_url d) with (transport_url ("data=" ++ d)).
  rewrite (extractDataFromUrl_parsed _ _ (parse_transport_url_kept _ Hk));
    try reflexivity.
  cbn [Url.query]. rewrite querystring_parse_one
    by (revert H; apply forall_chars_impl; intros a Ha; apply (raw_char_facts a Ha)).
  cbn [Url.query_get]. change (String.eqb "data" "data") with true. cbv iota.
  rewrite unescape_plain; [reflexivity| | |];
    revert H; apply forall_chars_impl; intros a Ha; apply (raw_char_facts a Ha).
Qed.

(** C4, as the code has it.  The unwrapper does not fail on a value
    that is not base64.  For every migration URL with one [data] value
    of visible ASCII characters it returns bytes; and when the value is
    written with the characters that reach the script as they are, the
    bytes are the lenient decoding of the value: six bits for each
    character of the standard or URL-safe alphabet before the first [=],
    the whole bytes of these bits, and nothing for any other
    character. *)
Theorem extractDataFromUrl_lenient_base64 : forall data : string,
  (Url.forall_chars value_char data = true ->
   exists bytes : list byte, extractDataFromUrl (migration_url data) = Return bytes) /\
  (Url.forall_chars raw_char data = true ->
   extractDataFromUrl (migration_url data) = Return (lenient_base64 data)).
Proof.
  intros d. split; [apply extractDataFromUrl_any_value|].
  intros H. rewrite (extractDataFromUrl_raw_value d H). f_equal.
  apply from_base64_lenient.
  revert H. apply forall_chars_impl. intros a Ha. apply (raw_char_facts a Ha).
Qed.

Lemma extractDataFromUrl_lenient_base64_witness :
  RFC4648.well_formed_base64 "Cg4K*BUhlbGxv$EgVhbGljZQ" = false /\
  (exists bytes : list byte,
     extractDataFromUrl (migration_url "Cg4K*BUhlbGxv$EgVhbGljZQ") = Return bytes) /\
  extractDataFromUrl (migration_url "Cg4K*BUhlbGxv$EgVhbGljZQ") =
    Return (lenient_base64 "Cg4K*BUhlbGxv$EgVhbGljZQ") /\
  exists bytes : list byte,
    extractDataFromUrl (migration_url "%zz<not-base64>%C5%81") = Return bytes.
Proof.
  split; [reflexivity|]. split; [|split].
  - apply (proj1 (extractDataFromUrl_lenient_base64 "Cg4K*BUhlbGxv$EgVhbGljZQ")).
    reflexivity.
  - apply (proj2 (extractDataFromUrl_lenient_base64 "Cg4K*BUhlbGxv$EgVhbGljZQ")).
    reflexivity.
  - apply (proj1 (extractDataFromUrl_lenient_base64 "%zz<not-base64>%C5%81")).
    reflexivity.
Defined.
